(** * The [sync_update] reconciliation engine of gitea-mcp

    A shallow embedding of [src/tools/sync-update.ts] (and of the copy of the
    same engine kept as private methods of the server class, whose handler is
    [handleSyncUpdate]), followed by the properties the specification states
    about it.

    JavaScript values are modelled as follows.
    - A string is a [string]; an optional field is an [option]; [undefined]
      is [None].  The truthiness tests of the source ([!x], [x || d]) are
      [falsy] and [orDefault]: a missing field and the empty string are falsy.
    - Counters are [nat]: they only count elements of lists.
    - An [async] function is a program of the monad [Prog]: it returns,
      throws, or awaits one [fetch] and continues with the reply.  [try] /
      [catch] is [tryCatch].
    - The [result] object that the executors mutate is passed in and returned.
      Every [throw] of an executor happens before its first write to
      [result], so a thrown error carries no pending mutation.
    - The normalised file objects are created by [validateAndNormalizeFiles],
      each is visited once by the detection loop, mutated there and then
      pushed; no later code mutates them, so values replace references.
    - A [string] is a sequence of bytes and stands for the JavaScript string
      whose WTF-8 form it is: well-formed text is its UTF-8 encoding, and a
      lone surrogate is the three bytes [ED A0..BF 80..BF].  The tests of the
      source on strings ([===], [includes], [startsWith], [replace]) are the
      same on both.
    - [Buffer.from(s, 'utf8')] is [utf8 s]: the bytes of [s] with every lone
      surrogate replaced by U+FFFD.  [bytes.toString('base64')] is
      [base64 bytes], and [Buffer.from(b, 'base64')] is [bytesOf b].  The
      content of a contents reply is kept decoded: [json_content] is
      [Buffer.from(remoteFile.content, 'base64').toString('utf8')].
    - The arguments of a [fetch] call are kept apart in a [Request]; the URL
      that the source builds from them, by interpolation and without
      encoding, is [url]. *)

From Stdlib Require Import ZArith String Ascii List Bool Lia.
From stdpp Require Import base option list strings gmap pretty.

Local Open Scope string_scope.
Local Open Scope Z_scope.

(** ** JavaScript helpers *)

(** [!x] for an optional string. *)
Definition falsy (x : option string) : bool :=
  match x with
  | None => true
  | Some s => if decide (s = "") then true else false
  end.

(** [x || d] for an optional string. *)
Definition orDefault (x : option string) (d : string) : string :=
  match x with
  | None => d
  | Some s => if decide (s = "") then d else s
  end.

Definition backslash : ascii := ascii_of_nat 92.
Definition slash : ascii := ascii_of_nat 47.

(** [s.replace(/\\/g, '/')]. *)
Fixpoint replaceBackslashes (s : string) : string :=
  match s with
  | EmptyString => EmptyString
  | String c rest =>
      String (if decide (c = backslash) then slash else c) (replaceBackslashes rest)
  end.

(** [xs.push(x)], as a new list. *)
Definition push {A} (xs : list A) (x : A) : list A := app xs [x].

(** [s.startsWith(p)]. *)
Definition startsWith (p s : string) : bool := String.prefix p s.

(** [s.includes(needle)]. *)
Fixpoint includes (needle s : string) : bool :=
  String.prefix needle s ||
  match s with
  | EmptyString => false
  | String _ rest => includes needle rest
  end.

(** ** Strings and bytes *)

Definition byteIs (n : nat) (c : ascii) : bool := bool_decide (c = ascii_of_nat n).

Definition byteIn (lo hi : nat) (c : ascii) : bool :=
  (lo <=? nat_of_ascii c)%nat && (nat_of_ascii c <=? hi)%nat.

(** The three bytes of a lone surrogate, U+D800 to U+DFFF. *)
Definition loneSurrogate (c1 c2 c3 : ascii) : bool :=
  byteIs 237 c1 && byteIn 160 191 c2 && byteIn 128 191 c3.

(** U+FFFD, the replacement character. *)
Definition replacementCharacter (rest : string) : string :=
  String (ascii_of_nat 239) (String (ascii_of_nat 191) (String (ascii_of_nat 189) rest)).

(** [Buffer.from(s, 'utf8')]: the UTF-8 encoding of [s], in which a lone
    surrogate becomes U+FFFD. *)
Fixpoint utf8 (s : string) : string :=
  match s with
  | EmptyString => EmptyString
  | String c1 rest1 =>
      match rest1 with
      | String c2 (String c3 rest3) =>
          if loneSurrogate c1 c2 c3 then replacementCharacter (utf8 rest3)
          else String c1 (utf8 rest1)
      | _ => String c1 (utf8 rest1)
      end
  end.

(** The base64 text of a sequence of bytes: [bytes.toString('base64')]. *)
Inductive Base64 := base64 (bytes : string).

(** [Buffer.from(b, 'base64')]. *)
Definition bytesOf (b : Base64) : string :=
  match b with base64 bytes => bytes end.

#[global] Instance Base64_eq_dec : EqDecision Base64.
Proof. solve_decision. Defined.

(** A character that a URL carries as it is: a letter, a digit, or one of
    [-], [.], [_] and [~]. *)
Definition unreserved (c : ascii) : bool :=
  byteIn 48 57 c || byteIn 65 90 c || byteIn 97 122 c
  || byteIs 45 c || byteIs 46 c || byteIs 95 c || byteIs 126 c.

Fixpoint allUnreserved (s : string) : bool :=
  match s with
  | EmptyString => true
  | String c rest => unreserved c && allUnreserved rest
  end.

(** A name that stands for itself in a URL and in a path: not empty, not a
    dot segment, and of unreserved characters only. *)
Definition plainSegment (s : string) : bool :=
  negb (bool_decide (s = "")) && negb (bool_decide (s = "."))
  && negb (bool_decide (s = "..")) && allUnreserved s.

(** [s.split('/')]. *)
Fixpoint segments (s : string) : list string :=
  match s with
  | EmptyString => [EmptyString]
  | String c rest =>
      if decide (c = slash) then EmptyString :: segments rest
      else
        match segments rest with
        | seg :: segs => String c seg :: segs
        | [] => [String c EmptyString]
        end
  end.

(** A path every segment of which is plain. *)
Definition plainPath (p : string) : bool := forallb plainSegment (segments p).

(** ** Errors ([utils/error-handling.ts]) *)

Inductive ErrorCode :=
| VALIDATION_ERROR
| NOT_FOUND
| UNAUTHORIZED
| EXTERNAL_API_ERROR
| RATE_LIMITED
| INTERNAL_ERROR.

Inductive McpErrorCode := InvalidParams | MethodNotFound | InternalError.

(** The values the code throws and catches. *)
Inductive JsError :=
| Error (message : string)
| AppError (code : ErrorCode) (message : string)
| McpError (mcpCode : McpErrorCode) (message : string)
| ZodError (message : string) (issues : list string)
| NonError.

(** The number of an error code of the SDK. *)
Definition mcpCodeNumber (c : McpErrorCode) : Z :=
  match c with
  | InvalidParams => -32602
  | MethodNotFound => -32601
  | InternalError => -32603
  end.

(** [error instanceof Error ? error.message : 'Unknown error'].  The
    constructor of the SDK's [McpError] passes
    [`MCP error ${code}: ${message}`] to [Error], so that is the message of
    an [McpError]. *)
Definition messageOf (error : JsError) : string :=
  match error with
  | Error m => m
  | AppError _ m => m
  | McpError c m => "MCP error " +:+ pretty (mcpCodeNumber c) +:+ ": " +:+ m
  | ZodError m _ => m
  | NonError => "Unknown error"
  end.

(** The result of evaluating something that may throw. *)
Inductive Completion (A : Type) :=
| Normal (a : A)
| Abrupt (error : JsError).
Arguments Normal {A} a.
Arguments Abrupt {A} error.

#[global] Instance Completion_ret : MRet Completion := @Normal.
#[global] Instance Completion_bind : MBind Completion := fun A B f c =>
  match c with
  | Normal a => f a
  | Abrupt e => Abrupt e
  end.

(** ** Data model *)

Inductive OpKind := add | modify | delete.

#[global] Instance OpKind_eq_dec : EqDecision OpKind.
Proof. solve_decision. Defined.

(** An element of [args.files], as received. *)
Record RawFile := {
  raw_path : option string;
  raw_content : option string;
  raw_operation : option string;
  raw_sha : option string
}.

Record FileOperation := {
  path : string;
  content : option string;
  operation : OpKind;
  sha : option string
}.

Record RemoteFileInfo := {
  remote_sha : string;
  remote_content : string;
  remote_path : string
}.

Record GiteaInstance := {
  id : string;
  baseUrl : string;
  token : string
}.

(** [params] once the required fields have been checked. *)
Record Params := {
  instanceId : string;
  owner : string;
  repository : string;
  files : list RawFile;
  message : string;
  branch : string;
  strategy : string;
  conflictResolution : string;
  detectChanges : bool;
  dryRun : bool
}.

(** The tool arguments as received. *)
Record Args := {
  arg_instanceId : option string;
  arg_owner : option string;
  arg_repository : option string;
  arg_files : list RawFile;
  arg_message : option string;
  arg_branch : option string;
  arg_strategy : option string;
  arg_conflictResolution : option string;
  arg_detectChanges : option bool;
  arg_dryRun : option bool
}.

(** ** The network *)

Inductive Method := GET | POST | PUT | DELETE.

Record BatchFileOp := {
  bf_path : string;
  bf_operation : string;
  bf_content : option Base64;
  bf_sha : option string
}.

(** The JSON body of a request; an absent key is [None]. *)
Inductive Body :=
| NoBody
| FileBody (body_content : option Base64) (body_message body_branch : string)
           (body_sha : option string)
| BatchBody (body_files : list BatchFileOp) (body_message body_branch : string).

(** The arguments of one [fetch] call: the method, what the URL is built
    from, the token of the [Authorization] header, and the body. *)
Record Request := {
  rq_method : Method;
  rq_baseUrl : string;
  rq_owner : string;
  rq_repository : string;
  rq_path : option string;
  rq_ref : option string;
  rq_token : string;
  rq_body : Body
}.

(** The URL of the call, as the template literals of the source build it:
    the parts are interpolated as they are, none is encoded.  A server reads
    the parts back from the URL only if they are plain: a [?], a [#], a [%]
    or a dot segment in one of them changes what the URL addresses. *)
Definition url (rq : Request) : string :=
  rq_baseUrl rq +:+ "/api/v1/repos/" +:+ rq_owner rq +:+ "/" +:+ rq_repository rq
  +:+ "/contents"
  +:+ match rq_path rq with Some p => "/" +:+ p | None => "" end
  +:+ match rq_ref rq with Some r => "?ref=" +:+ r | None => "" end.

(** The parts of the request are plain, so that the URL addresses the path
    [rq_path] of the repository [rq_owner/rq_repository] at [rq_ref], and the
    paths of a combined commit are the paths of the files it names. *)
Definition plainRequest (rq : Request) : bool :=
  plainSegment (rq_owner rq) && plainSegment (rq_repository rq)
  && match rq_path rq with Some p => plainPath p | None => true end
  && match rq_ref rq with Some r => plainPath r | None => true end
  && match rq_body rq with
     | BatchBody ops _ _ => forallb (fun op => plainPath (bf_path op)) ops
     | _ => true
     end.

(** What [response.json()] gives for a contents reply.  [json_content] is the
    content decoded: [Buffer.from(remoteFile.content, 'base64').toString('utf8')]. *)
Record RemoteFileJson := {
  json_sha : string;
  json_content : string
}.

Record Response := {
  status : Z;
  statusText : string;
  json : Completion RemoteFileJson;
  text : Completion string
}.

(** [response.ok]. *)
Definition ok (r : Response) : bool := (200 <=? status r) && (status r <=? 299).

(** A [fetch] promise resolves with a response or rejects. *)
Inductive FetchResult :=
| Resolved (response : Response)
| Rejected (error : JsError).

(** ** Asynchronous programs *)

Inductive Prog (A : Type) :=
| Ret (a : A)
| Throw (error : JsError)
| Fetch (rq : Request) (k : FetchResult -> Prog A).
Arguments Ret {A} a.
Arguments Throw {A} error.
Arguments Fetch {A} rq k.

Fixpoint bind {A B} (p : Prog A) (f : A -> Prog B) : Prog B :=
  match p with
  | Ret a => f a
  | Throw e => Throw e
  | Fetch rq k => Fetch rq (fun reply => bind (k reply) f)
  end.

#[global] Instance Prog_ret : MRet Prog := @Ret.
#[global] Instance Prog_bind : MBind Prog := fun A B f p => bind p f.

(** [try { p } catch (error) { h error }]. *)
Fixpoint tryCatch {A} (p : Prog A) (h : JsError -> Prog A) : Prog A :=
  match p with
  | Ret a => Ret a
  | Throw e => h e
  | Fetch rq k => Fetch rq (fun reply => tryCatch (k reply) h)
  end.

(** [await fetch(rq)]. *)
Definition fetch (rq : Request) : Prog Response :=
  Fetch rq (fun reply =>
    match reply with
    | Resolved r => Ret r
    | Rejected e => Throw e
    end).

(** [await] on a body reader, or a call to a function that may throw. *)
Definition liftC {A} (c : Completion A) : Prog A :=
  match c with
  | Normal a => Ret a
  | Abrupt e => Throw e
  end.

(** Running a program against a network [net] with state [W]: the completion,
    the final state of the network, and every request with its reply. *)
Fixpoint run {W A} (net : W -> Request -> FetchResult * W) (p : Prog A) (w : W)
  : Completion A * W * list (Request * FetchResult) :=
  match p with
  | Ret a => (Normal a, w, [])
  | Throw e => (Abrupt e, w, [])
  | Fetch rq k =>
      let '(reply, w1) := net w rq in
      let '(c, w2, log) := run net (k reply) w1 in
      (c, w2, (rq, reply) :: log)
  end.

Definition completion {W A} (r : Completion A * W * list (Request * FetchResult)) :=
  r.1.1.
Definition finalState {W A} (r : Completion A * W * list (Request * FetchResult)) :=
  r.1.2.
Definition requestLog {W A} (r : Completion A * W * list (Request * FetchResult)) :=
  r.2.

(** [for (const x of xs) { st = body st x }]. *)
Fixpoint forOf {S A} (body : S -> A -> Prog S) (xs : list A) (st : S) : Prog S :=
  match xs with
  | [] => Ret st
  | x :: rest => st1 ← body st x; forOf body rest st1
  end.

(** ** The engine ([src/tools/sync-update.ts]) *)

(** The body of the [files.map] callback of [validateAndNormalizeFiles].
    [invalidPath] builds the error thrown for a dangerous path: the tool
    module throws an [AppError] there, the server class a plain [Error]. *)
Definition normalizeFile (invalidPath : string -> JsError) (file : RawFile)
  : Completion FileOperation :=
  match raw_path file with
  | None => Abrupt (Error "File path is required")
  | Some file_path =>
      if decide (file_path = "") then Abrupt (Error "File path is required") else
      let operation := orDefault (raw_operation file) "add" in
      match
        (if decide (operation = "add") then Some add
         else if decide (operation = "modify") then Some modify
         else if decide (operation = "delete") then Some delete
         else None)
      with
      | None =>
          Abrupt (Error ("Invalid operation: " +:+ operation +:+
                         ". Must be add, modify, or delete"))
      | Some kind =>
          if (bool_decide (kind = add) || bool_decide (kind = modify))
             && falsy (raw_content file)
          then Abrupt (Error ("Content is required for " +:+ operation +:+
                              " operation on file: " +:+ file_path))
          else
            let normalizedPath := replaceBackslashes file_path in
            if includes ".." normalizedPath || startsWith "/" normalizedPath
            then Abrupt (invalidPath ("Invalid file path: " +:+ file_path))
            else Normal {| path := normalizedPath;
                           content := raw_content file;
                           operation := kind;
                           sha := raw_sha file |}
      end
  end.

Definition validateAndNormalizeFiles (invalidPath : string -> JsError)
  (files : list RawFile) : Completion (list FileOperation) :=
  mapM (normalizeFile invalidPath) files.

(** The [fetch] of the detection loop. *)
Definition probeRequest (instance : GiteaInstance) (params : Params)
  (file : FileOperation) : Request :=
  {| rq_method := GET;
     rq_baseUrl := baseUrl instance;
     rq_owner := owner params;
     rq_repository := repository params;
     rq_path := Some (path file);
     rq_ref := Some (branch params);
     rq_token := token instance;
     rq_body := NoBody |}.

Definition withSha (file : FileOperation) (s : option string) : FileOperation :=
  {| path := path file; content := content file;
     operation := operation file; sha := s |}.

Definition withOperation (file : FileOperation) (k : OpKind) : FileOperation :=
  {| path := path file; content := content file;
     operation := k; sha := sha file |}.

Abbreviation Detection := (list FileOperation * gmap string RemoteFileInfo)%type.

(** One iteration of the loop of [detectChangesNeeded]; the state is
    [(needsUpdate, remoteFiles)]. *)
Definition detectFile (instance : GiteaInstance) (params : Params)
  (st : Detection) (file : FileOperation) : Prog Detection :=
  let '(needsUpdate, remoteFiles) := st in
  tryCatch
    (response ← fetch (probeRequest instance params file);
     if ok response then
       remoteFile ← liftC (json response);
       let remoteContent := json_content remoteFile in
       let remoteFiles :=
         <[path file := {| remote_sha := json_sha remoteFile;
                           remote_content := remoteContent;
                           remote_path := path file |}]> remoteFiles in
       let file :=
         if bool_decide (operation file = modify)
            || bool_decide (operation file = delete)
         then withSha file (Some (json_sha remoteFile))
         else file in
       if bool_decide (operation file = modify)
          && bool_decide (content file = Some remoteContent)
       then Ret (needsUpdate, remoteFiles)
       else Ret (push needsUpdate file, remoteFiles)
     else if bool_decide (status response = 404) then
       match operation file with
       | add => Ret (push needsUpdate file, remoteFiles)
       | modify =>
           Ret (push needsUpdate (withSha (withOperation file add) None), remoteFiles)
       | delete => Ret (needsUpdate, remoteFiles)
       end
     else
       Throw (Error ("Failed to check remote file " +:+ path file +:+ ": " +:+
                     pretty (status response) +:+ " " +:+ statusText response)))
    (fun error => Ret (push needsUpdate file, remoteFiles)).

Definition detectChangesNeeded (instance : GiteaInstance) (params : Params)
  (files : list FileOperation) : Prog Detection :=
  forOf (detectFile instance params) files ([], ∅).

Definition determineStrategy (requestedStrategy : string)
  (files : list FileOperation) : string :=
  if negb (bool_decide (requestedStrategy = "auto")) then requestedStrategy
  else if bool_decide (length files = 1%nat) then "individual"
  else
    let hasComplexOperations :=
      existsb (fun f => bool_decide (operation f = delete)) files in
    if hasComplexOperations then "individual" else "batch".

(** ** The summary *)

(** An element of [result.details.operations]. *)
Record OperationDetail := {
  op_file : string;
  op_operation : OpKind;
  op_status : string;
  op_error : option string
}.

Record Details := {
  operations : list OperationDetail;
  conflicts : list (string * string);
  unchanged : list string
}.

Record Result := {
  discovered : nat;
  analyzed : nat;
  needsUpdate : nat;
  processed : nat;
  succeeded : nat;
  failed : nat;
  skipped : nat;
  details : Details
}.

(** The assignments the executors make to [result]. *)
Definition setProcessed (n : nat) (r : Result) : Result :=
  {| discovered := discovered r; analyzed := analyzed r; needsUpdate := needsUpdate r;
     processed := n; succeeded := succeeded r; failed := failed r;
     skipped := skipped r; details := details r |}.

Definition setSucceeded (n : nat) (r : Result) : Result :=
  {| discovered := discovered r; analyzed := analyzed r; needsUpdate := needsUpdate r;
     processed := processed r; succeeded := n; failed := failed r;
     skipped := skipped r; details := details r |}.

Definition setFailed (n : nat) (r : Result) : Result :=
  {| discovered := discovered r; analyzed := analyzed r; needsUpdate := needsUpdate r;
     processed := processed r; succeeded := succeeded r; failed := n;
     skipped := skipped r; details := details r |}.

Definition setOperations (ops : list OperationDetail) (r : Result) : Result :=
  {| discovered := discovered r; analyzed := analyzed r; needsUpdate := needsUpdate r;
     processed := processed r; succeeded := succeeded r; failed := failed r;
     skipped := skipped r;
     details := {| operations := ops;
                   conflicts := conflicts (details r);
                   unchanged := unchanged (details r) |} |}.

(** [result.details.operations.push(d)]. *)
Definition pushOperation (d : OperationDetail) (r : Result) : Result :=
  setOperations (push (operations (details r)) d) r.

(** [files.forEach(file => result.details.operations.push(mk file))]. *)
Definition pushOperations (mk : FileOperation -> OperationDetail)
  (files : list FileOperation) (r : Result) : Result :=
  fold_left (fun r file => pushOperation (mk file) r) files r.

Definition successDetail (file : FileOperation) : OperationDetail :=
  {| op_file := path file; op_operation := operation file;
     op_status := "success"; op_error := None |}.

Definition failedDetail (error : string) (file : FileOperation) : OperationDetail :=
  {| op_file := path file; op_operation := operation file;
     op_status := "failed"; op_error := Some error |}.

Definition wouldExecuteDetail (file : FileOperation) : OperationDetail :=
  {| op_file := path file; op_operation := operation file;
     op_status := "would-execute"; op_error := None |}.

(** ** The executors *)

(** The [files.map] callback that builds the batch payload. *)
Definition batchFileOp (file : FileOperation) : BatchFileOp :=
  if bool_decide (operation file = delete) then
    {| bf_path := path file;
       bf_operation := "delete";
       bf_content := None;
       bf_sha := if falsy (sha file) then None else sha file |}
  else
    {| bf_path := path file;
       bf_operation := if bool_decide (operation file = modify) then "update" else "create";
       bf_content := Some (base64 (utf8 (orDefault (content file) "")));
       bf_sha := if negb (falsy (sha file)) && bool_decide (operation file = modify)
                 then sha file else None |}.

Definition batchRequest (instance : GiteaInstance) (params : Params)
  (files : list FileOperation) : Request :=
  {| rq_method := POST;
     rq_baseUrl := baseUrl instance;
     rq_owner := owner params;
     rq_repository := repository params;
     rq_path := None;
     rq_ref := None;
     rq_token := token instance;
     rq_body := BatchBody (map batchFileOp files) (message params) (branch params) |}.

Definition executeBatchUpdate (instance : GiteaInstance) (params : Params)
  (files : list FileOperation) (result : Result) : Prog Result :=
  tryCatch
    (response ← fetch (batchRequest instance params files);
     if ok response then
       Ret (pushOperations successDetail files
              (setSucceeded (length files) (setProcessed (length files) result)))
     else
       errorText ← liftC (text response);
       Ret (pushOperations
              (failedDetail ("Batch operation failed: " +:+ pretty (status response)
                             +:+ " " +:+ errorText))
              files
              (setFailed (length files) (setProcessed (length files) result))))
    (fun error =>
       let errorMessage := messageOf error in
       Ret (pushOperations
              (failedDetail ("Batch operation error: " +:+ errorMessage))
              files
              (setFailed (length files) (setProcessed (length files) result)))).

Definition fileRequest (instance : GiteaInstance) (params : Params)
  (method : Method) (file : FileOperation) (body : Body) : Request :=
  {| rq_method := method;
     rq_baseUrl := baseUrl instance;
     rq_owner := owner params;
     rq_repository := repository params;
     rq_path := Some (path file);
     rq_ref := None;
     rq_token := token instance;
     rq_body := body |}.

(** The request [executeCreateOrUpdateOperation] builds. *)
Definition createOrUpdateRequest (instance : GiteaInstance) (params : Params)
  (file : FileOperation) : Request :=
  let base64Content := base64 (utf8 (orDefault (content file) "")) in
  if bool_decide (operation file = add) then
    fileRequest instance params POST file
      (FileBody (Some base64Content) (message params) (branch params) None)
  else
    fileRequest instance params PUT file
      (FileBody (Some base64Content) (message params) (branch params) (sha file)).

Definition executeCreateOrUpdateOperation (instance : GiteaInstance)
  (params : Params) (file : FileOperation) (result : Result) : Prog Result :=
  response ← fetch (createOrUpdateRequest instance params file);
  if ok response then
    Ret (pushOperation (successDetail file)
           (setSucceeded (S (succeeded result)) result))
  else
    errorText ← liftC (text response);
    Throw (Error (pretty (status response) +:+ ": " +:+ errorText)).

Definition deleteRequest (instance : GiteaInstance) (params : Params)
  (file : FileOperation) : Request :=
  fileRequest instance params DELETE file
    (FileBody None (message params) (branch params) (sha file)).

Definition executeDeleteOperation (instance : GiteaInstance)
  (params : Params) (file : FileOperation) (result : Result) : Prog Result :=
  response ← fetch (deleteRequest instance params file);
  if ok response then
    Ret (pushOperation (successDetail file)
           (setSucceeded (S (succeeded result)) result))
  else
    errorText ← liftC (text response);
    Throw (Error (pretty (status response) +:+ ": " +:+ errorText)).

(** One iteration of the loop of [executeIndividualUpdates]. *)
Definition executeOne (instance : GiteaInstance) (params : Params)
  (result : Result) (file : FileOperation) : Prog Result :=
  let result := setProcessed (S (processed result)) result in
  tryCatch
    (if bool_decide (operation file = delete)
     then executeDeleteOperation instance params file result
     else executeCreateOrUpdateOperation instance params file result)
    (fun error =>
       Ret (pushOperation (failedDetail (messageOf error) file)
              (setFailed (S (failed result)) result))).

Definition executeIndividualUpdates (instance : GiteaInstance) (params : Params)
  (files : list FileOperation) (result : Result) : Prog Result :=
  forOf (executeOne instance params) files result.

(** The dispatch on the chosen strategy in the handler. *)
Definition executeUpdates (instance : GiteaInstance) (params : Params)
  (strategy : string) (files : list FileOperation) (result : Result) : Prog Result :=
  if bool_decide (strategy = "batch") && bool_decide (1 < length files)%nat
  then executeBatchUpdate instance params files result
  else executeIndividualUpdates instance params files result.

(** ** The tool handler *)

(** An element of [filesNeedingUpdate] in the dry-run report. *)
Record PlannedFile := {
  pf_path : string;
  pf_operation : OpKind;
  hasRemoteSha : bool
}.

Record ReportDetails := {
  rd_repository : string;
  rd_branch : string;
  rd_commitMessage : string;
  rd_operations : list OperationDetail;
  rd_conflicts : option (list (string * string));
  rd_unchanged : option (list string)
}.

(** The object handed to [JSON.stringify] for the text of the reply. *)
Inductive ToolOutput :=
| DryRunReport (chosen : string) (summary : Result)
               (filesNeedingUpdate : list PlannedFile)
| ExecutionReport (success : bool) (chosen : string) (summary : Result)
                  (report : ReportDetails).

Definition summaryOf (o : ToolOutput) : Result :=
  match o with
  | DryRunReport _ s _ => s
  | ExecutionReport _ _ s _ => s
  end.

Definition chosenStrategy (o : ToolOutput) : string :=
  match o with
  | DryRunReport c _ _ => c
  | ExecutionReport _ c _ _ => c
  end.

(** [if (!x) throw new Error(msg)], giving the checked value. *)
Definition required (x : option string) (msg : string) : Prog string :=
  if falsy x then Throw (Error msg) else Ret (orDefault x "").

Definition plannedFile (f : FileOperation) : PlannedFile :=
  {| pf_path := path f; pf_operation := operation f;
     hasRemoteSha := negb (falsy (sha f)) |}.

(** [xs.length > 0 ? xs : undefined]. *)
Definition unlessEmpty {A} (xs : list A) : option (list A) :=
  match xs with [] => None | _ => Some xs end.

(** The body of the [try] block of the handler.  [config] is what
    [loadConfig().gitea.instances] holds.  [instanceNotFound] and
    [invalidPath] build the two errors whose class differs between the tool
    module and the server class. *)
Definition syncUpdate (instanceNotFound invalidPath : string -> JsError)
  (config : list GiteaInstance) (args : Args) : Prog ToolOutput :=
  let a_files := arg_files args in
  let a_branch := orDefault (arg_branch args) "main" in
  let a_strategy := orDefault (arg_strategy args) "auto" in
  let a_conflictResolution := orDefault (arg_conflictResolution args) "fail" in
  let a_detectChanges :=
    match arg_detectChanges args with Some false => false | _ => true end in
  let a_dryRun := default false (arg_dryRun args) in
  a_instanceId ← required (arg_instanceId args) "instanceId is required";
  a_owner ← required (arg_owner args) "owner is required";
  a_repository ← required (arg_repository args) "repository is required";
  a_message ← required (arg_message args) "message is required";
  if bool_decide (length a_files = 0%nat)
  then Throw (Error "files array is required and must not be empty") else
  let params :=
    {| instanceId := a_instanceId; owner := a_owner; repository := a_repository;
       files := a_files; message := a_message; branch := a_branch;
       strategy := a_strategy; conflictResolution := a_conflictResolution;
       detectChanges := a_detectChanges; dryRun := a_dryRun |} in
  match List.find (fun inst => bool_decide (id inst = instanceId params)) config with
  | None =>
      Throw (instanceNotFound
               ("Gitea instance '" +:+ instanceId params +:+ "' not found"))
  | Some instance =>
      normalizedFiles ← liftC (validateAndNormalizeFiles invalidPath (files params));
      detection ←
        (if detectChanges params
         then detectChangesNeeded instance params normalizedFiles
         else Ret (normalizedFiles, ∅));
      let plan := detection.1 in
      let chosen := determineStrategy (strategy params) plan in
      let result :=
        {| discovered := length (files params);
           analyzed := length normalizedFiles;
           needsUpdate := length plan;
           processed := 0; succeeded := 0; failed := 0; skipped := 0;
           details := {| operations := []; conflicts := []; unchanged := [] |} |} in
      if dryRun params then
        let result := setOperations (map wouldExecuteDetail plan) result in
        Ret (DryRunReport chosen result (map plannedFile plan))
      else
        result ← executeUpdates instance params chosen plan result;
        let success := bool_decide (failed result = 0%nat) in
        Ret (ExecutionReport success chosen result
               {| rd_repository := owner params +:+ "/" +:+ repository params;
                  rd_branch := branch params;
                  rd_commitMessage := message params;
                  rd_operations := operations (details result);
                  rd_conflicts := unlessEmpty (conflicts (details result));
                  rd_unchanged := unlessEmpty (unchanged (details result)) |})
  end.

(** *** [registerSyncUpdateTool]: the handler of [src/tools/sync-update.ts] *)

Module Tool.

Definition validateAndNormalizeFiles :=
  validateAndNormalizeFiles (AppError VALIDATION_ERROR).

(** [e.errors.map(e => e.message).join(', ')]. *)
Fixpoint join (xs : list string) : string :=
  match xs with
  | [] => ""
  | [x] => x
  | x :: rest => x +:+ ", " +:+ join rest
  end.

Definition handler (config : list GiteaInstance) (args : Args) : Prog ToolOutput :=
  tryCatch
    (syncUpdate Error (AppError VALIDATION_ERROR) config args)
    (fun error =>
       match error with
       | ZodError _ issues =>
           Throw (AppError VALIDATION_ERROR ("Invalid parameters: " +:+ join issues))
       | _ =>
           Throw (AppError EXTERNAL_API_ERROR
                    ("Failed to sync update files: " +:+ messageOf error))
       end).

End Tool.

(** *** [handleSyncUpdate]: the handler of the server class *)

Module Server.

Definition validateAndNormalizeFiles :=
  validateAndNormalizeFiles Error.

Inductive Reply :=
| Content (output : ToolOutput)
| IsError (errorText : string).

Definition handleSyncUpdate (config : list GiteaInstance) (args : Args) : Prog Reply :=
  tryCatch
    (output ← syncUpdate (McpError InvalidParams) Error config args;
     Ret (Content output))
    (fun error =>
       Ret (IsError ("Error sync updating files: " +:+ messageOf error))).

End Server.

(** ** The content store

    The engine talks to the contents API of a Gitea repository.  What the
    engine relies on is collected in [ContentStore]: a network whose replies
    to the requests for one repository are explained by the files it
    currently stores.  [stored w br p] is the version token and the text of
    [p] on branch [br], if [p] exists there.  The laws speak of requests whose
    parts are plain ([plainRequest]): only for those does the URL address
    the path it was built from.  [stored] and the replies hold the text of
    a file as the engine sees it, that is after
    [Buffer.from(content, 'base64').toString('utf8')]; a write carries
    bytes, and the laws speak of the writes whose bytes are the UTF-8
    encoding [utf8 t] of a text, which is well-formed and read back as the
    text it encodes. *)

Class ContentStore (W : Type) := {
  net : W -> Request -> FetchResult * W;
  stored : W -> string -> string -> option (string * string);
  (** reading leaves the files as they are and reports what is stored *)
  net_read : forall w rq p br,
    plainRequest rq = true ->
    rq_method rq = GET -> rq_path rq = Some p -> rq_ref rq = Some br ->
    (forall b q, stored (net w rq).2 b q = stored w b q) /\
    match stored w br p with
    | Some (s, c) =>
        exists r, (net w rq).1 = Resolved r /\ ok r = true /\
                  json r = Normal {| json_sha := s; json_content := c |}
    | None => exists r, (net w rq).1 = Resolved r /\ status r = 404
    end;
  (** an accepted create or update stores the text that its bytes encode,
      and only there *)
  net_write : forall w rq p t msg br s r,
    plainRequest rq = true ->
    rq_method rq = POST \/ rq_method rq = PUT ->
    rq_path rq = Some p ->
    rq_body rq = FileBody (Some (base64 (utf8 t))) msg br s ->
    (net w rq).1 = Resolved r -> ok r = true ->
    (exists s', stored (net w rq).2 br p = Some (s', utf8 t)) /\
    (forall b q, (b, q) <> (br, p) -> stored (net w rq).2 b q = stored w b q);
  (** an accepted delete removes the file, and only that one *)
  net_delete : forall w rq p c msg br s r,
    plainRequest rq = true ->
    rq_method rq = DELETE ->
    rq_path rq = Some p -> rq_body rq = FileBody c msg br s ->
    (net w rq).1 = Resolved r -> ok r = true ->
    stored (net w rq).2 br p = None /\
    (forall b q, (b, q) <> (br, p) -> stored (net w rq).2 b q = stored w b q);
  (** an accepted combined commit over distinct paths applies every entry *)
  net_batch : forall w rq ops msg br r,
    plainRequest rq = true ->
    rq_method rq = POST ->
    rq_path rq = None -> rq_body rq = BatchBody ops msg br ->
    NoDup (bf_path <$> ops) ->
    (net w rq).1 = Resolved r -> ok r = true ->
    (forall op, op ∈ ops ->
       (bf_operation op = "delete" -> stored (net w rq).2 br (bf_path op) = None) /\
       (bf_operation op <> "delete" ->
        forall t, bf_content op = Some (base64 (utf8 t)) ->
        exists s', stored (net w rq).2 br (bf_path op) = Some (s', utf8 t))) /\
    (forall b q, (b <> br \/ q ∉ bf_path <$> ops) ->
       stored (net w rq).2 b q = stored w b q)
}.

(** *** A store to run the engine against

    An in-memory store that behaves like the contents API: a create is
    refused when the path exists, an update or a delete needs the current
    version token, a combined commit is applied whole or not at all.  The
    version token of a text is derived from the text, as a blob hash is. *)

Module Gitea.

(** (branch, path) to text *)
Abbreviation Store := (gmap (string * string) string).

Definition blobSha (c : string) : string := "sha:" +:+ c.

Definition reply (st : Z) (stText : string) (body : Completion RemoteFileJson)
  (t : string) : FetchResult :=
  Resolved {| status := st; statusText := stText; json := body; text := Normal t |}.

Definition noJson : Completion RemoteFileJson :=
  Abrupt (Error "Unexpected end of JSON input").

Definition found (c : string) : FetchResult :=
  reply 200 "OK" (Normal {| json_sha := blobSha c; json_content := c |}) c.
Definition success (st : Z) : FetchResult := reply st "OK" noJson "".
Definition notFound : FetchResult := reply 404 "Not Found" noJson "not found".
Definition refused : FetchResult :=
  reply 422 "Unprocessable Entity" noJson "refused".
Definition badRequest : FetchResult := reply 400 "Bad Request" noJson "bad request".

Definition applyCreate (br p c : string) (s : Store) : option Store :=
  match s !! (br, p) with
  | Some _ => None
  | None => Some (<[(br, p) := c]> s)
  end.

Definition applyUpdate (br p c : string) (given : option string) (s : Store)
  : option Store :=
  match s !! (br, p) with
  | Some old =>
      if bool_decide (given = Some (blobSha old))
      then Some (<[(br, p) := c]> s) else None
  | None => None
  end.

Definition applyDelete (br p : string) (given : option string) (s : Store)
  : option Store :=
  match s !! (br, p) with
  | Some old =>
      if bool_decide (given = Some (blobSha old))
      then Some (base.delete (br, p) s) else None
  | None => None
  end.

Definition applyBatchOp (br : string) (op : BatchFileOp) (s : Store) : option Store :=
  if bool_decide (bf_operation op = "create")
  then applyCreate br (bf_path op) (default "" (bytesOf <$> bf_content op)) s
  else if bool_decide (bf_operation op = "update")
  then applyUpdate br (bf_path op) (default "" (bytesOf <$> bf_content op)) (bf_sha op) s
  else if bool_decide (bf_operation op = "delete")
  then applyDelete br (bf_path op) (bf_sha op) s
  else None.

Fixpoint applyBatch (br : string) (ops : list BatchFileOp) (s : Store) : option Store :=
  match ops with
  | [] => Some s
  | op :: rest =>
      match applyBatchOp br op s with
      | Some s1 => applyBatch br rest s1
      | None => None
      end
  end.

Definition answer (ok_reply : FetchResult) (s : Store) (s' : option Store)
  : FetchResult * Store :=
  match s' with
  | Some s1 => (ok_reply, s1)
  | None => (refused, s)
  end.

Definition serve (s : Store) (rq : Request) : FetchResult * Store :=
  match rq_method rq, rq_path rq, rq_body rq with
  | GET, Some p, _ =>
      match rq_ref rq with
      | Some br =>
          match s !! (br, p) with
          | Some c => (found c, s)
          | None => (notFound, s)
          end
      | None => (badRequest, s)
      end
  | POST, Some p, FileBody (Some c) _ br _ =>
      answer (success 201) s (applyCreate br p (bytesOf c) s)
  | PUT, Some p, FileBody (Some c) _ br given =>
      answer (success 200) s (applyUpdate br p (bytesOf c) given s)
  | DELETE, Some p, FileBody _ _ br given =>
      answer (success 200) s (applyDelete br p given s)
  | POST, None, BatchBody ops _ br =>
      answer (success 201) s (applyBatch br ops s)
  | _, _, _ => (badRequest, s)
  end.

Definition files (s : Store) (br p : string) : option (string * string) :=
  (fun c => (blobSha c, c)) <$> s !! (br, p).

End Gitea.

(** ** Vocabulary of the properties *)

(** The fields no executor assigns. *)
Definition sameHeader (r r' : Result) : Prop :=
  discovered r' = discovered r /\ analyzed r' = analyzed r /\
  needsUpdate r' = needsUpdate r /\ skipped r' = skipped r /\
  conflicts (details r') = conflicts (details r) /\
  unchanged (details r') = unchanged (details r).

(** A reply that the code treats as success: the promise resolved and
    [response.ok] holds. *)
Definition accepted (reply : FetchResult) : bool :=
  match reply with
  | Resolved r => ok r
  | Rejected _ => false
  end.

(** The request the individual executor issues for a file. *)
Definition individualRequest (instance : GiteaInstance) (params : Params)
  (file : FileOperation) : Request :=
  if bool_decide (operation file = delete)
  then deleteRequest instance params file
  else createOrUpdateRequest instance params file.

(** The error text recorded for a reply that is not [accepted]. *)
Definition failureText (reply : FetchResult) : string :=
  match reply with
  | Resolved r =>
      match text r with
      | Normal errorText => pretty (status r) +:+ ": " +:+ errorText
      | Abrupt e => messageOf e
      end
  | Rejected e => messageOf e
  end.

(** The error text the batch executor records for a reply to the combined
    commit that is not [accepted]. *)
Definition batchFailureText (reply : FetchResult) : string :=
  match reply with
  | Resolved r =>
      match text r with
      | Normal errorText =>
          "Batch operation failed: " +:+ pretty (status r) +:+ " " +:+ errorText
      | Abrupt e => "Batch operation error: " +:+ messageOf e
      end
  | Rejected e => "Batch operation error: " +:+ messageOf e
  end.

(** The outcome recorded for a file, given the reply to its request. *)
Definition outcomeDetail (file : FileOperation) (reply : FetchResult)
  : OperationDetail :=
  if accepted reply then successDetail file
  else failedDetail (failureText reply) file.

(** The summary after one file of the individual executor. *)
Definition recordOutcome (file : FileOperation) (reply : FetchResult)
  (result : Result) : Result :=
  let result := setProcessed (S (processed result)) result in
  if accepted reply
  then pushOperation (successDetail file) (setSucceeded (S (succeeded result)) result)
  else pushOperation (failedDetail (failureText reply) file)
         (setFailed (S (failed result)) result).

(** The number of replies that are not [accepted]. *)
Definition rejections (replies : list FetchResult) : nat :=
  length (filter (fun reply => accepted reply = false) replies).

(** What the detection loop decides for a file, given the reply to its
    probe: the entry it pushes to the plan, if any. *)
Definition classify (file : FileOperation) (reply : FetchResult)
  : option FileOperation :=
  match reply with
  | Resolved response =>
      if ok response then
        match json response with
        | Normal remoteFile =>
            if bool_decide (operation file = modify)
               && bool_decide (content file = Some (json_content remoteFile))
            then None
            else if bool_decide (operation file = modify)
                    || bool_decide (operation file = delete)
            then Some (withSha file (Some (json_sha remoteFile)))
            else Some file
        | Abrupt _ => Some file
        end
      else if bool_decide (status response = 404) then
        match operation file with
        | add => Some file
        | modify => Some (withSha (withOperation file add) None)
        | delete => None
        end
      else Some file
  | Rejected _ => Some file
  end.

(** The snapshot the detection loop stores for a file, if any. *)
Definition remember (file : FileOperation) (reply : FetchResult)
  (remoteFiles : gmap string RemoteFileInfo) : gmap string RemoteFileInfo :=
  match reply with
  | Resolved response =>
      if ok response then
        match json response with
        | Normal remoteFile =>
            <[path file := {| remote_sha := json_sha remoteFile;
                              remote_content := json_content remoteFile;
                              remote_path := path file |}]> remoteFiles
        | Abrupt _ => remoteFiles
        end
      else remoteFiles
  | Rejected _ => remoteFiles
  end.

(** The plan that the replies to the probes determine. *)
Definition planFrom (files : list FileOperation) (replies : list FetchResult)
  : list FileOperation :=
  concat (zip_with (fun file reply => option_list (classify file reply)) files replies).

(** [params] as the handler builds it from the arguments. *)
Definition paramsOf (args : Args) : Params :=
  {| instanceId := orDefault (arg_instanceId args) "";
     owner := orDefault (arg_owner args) "";
     repository := orDefault (arg_repository args) "";
     files := arg_files args;
     message := orDefault (arg_message args) "";
     branch := orDefault (arg_branch args) "main";
     strategy := orDefault (arg_strategy args) "auto";
     conflictResolution := orDefault (arg_conflictResolution args) "fail";
     detectChanges := match arg_detectChanges args with Some false => false | _ => true end;
     dryRun := default false (arg_dryRun args) |}.

(** What the handler does before its first request: the required arguments,
    the instance, the normalised files. *)
Definition preflight (instanceNotFound invalidPath : string -> JsError)
  (config : list GiteaInstance) (args : Args)
  : Completion (GiteaInstance * Params * list FileOperation) :=
  if falsy (arg_instanceId args) then Abrupt (Error "instanceId is required")
  else if falsy (arg_owner args) then Abrupt (Error "owner is required")
  else if falsy (arg_repository args) then Abrupt (Error "repository is required")
  else if falsy (arg_message args) then Abrupt (Error "message is required")
  else if bool_decide (length (arg_files args) = 0%nat)
  then Abrupt (Error "files array is required and must not be empty")
  else
    let params := paramsOf args in
    match List.find (fun inst => bool_decide (id inst = instanceId params)) config with
    | None =>
        Abrupt (instanceNotFound
                  ("Gitea instance '" +:+ instanceId params +:+ "' not found"))
    | Some instance =>
        match validateAndNormalizeFiles invalidPath (files params) with
        | Normal normalizedFiles => Normal (instance, params, normalizedFiles)
        | Abrupt e => Abrupt e
        end
    end.

(** The planning phase of the handler. *)
Definition planning (instance : GiteaInstance) (params : Params)
  (normalizedFiles : list FileOperation) : Prog Detection :=
  if detectChanges params
  then detectChangesNeeded instance params normalizedFiles
  else Ret (normalizedFiles, ∅).

(** [result] as the handler initialises it. *)
Definition initialResult (params : Params)
  (normalizedFiles plan : list FileOperation) : Result :=
  {| discovered := length (files params);
     analyzed := length normalizedFiles;
     needsUpdate := length plan;
     processed := 0; succeeded := 0; failed := 0; skipped := 0;
     details := {| operations := []; conflicts := []; unchanged := [] |} |}.

(** The report of a dry run. *)
Definition dryRunReport (params : Params)
  (normalizedFiles plan : list FileOperation) : ToolOutput :=
  DryRunReport (determineStrategy (strategy params) plan)
    (setOperations (map wouldExecuteDetail plan)
       (initialResult params normalizedFiles plan))
    (map plannedFile plan).

(** The report of an execution that left the summary [result]. *)
Definition executionReport (params : Params) (chosen : string) (result : Result)
  : ToolOutput :=
  ExecutionReport (bool_decide (failed result = 0%nat)) chosen result
    {| rd_repository := owner params +:+ "/" +:+ repository params;
       rd_branch := branch params;
       rd_commitMessage := message params;
       rd_operations := operations (details result);
       rd_conflicts := unlessEmpty (conflicts (details result));
       rd_unchanged := unlessEmpty (unchanged (details result)) |}.

(** What identifies an entry of the plan, and of the outcome list. *)
Definition fileKey (f : FileOperation) : string * OpKind := (path f, operation f).
Definition detailKey (d : OperationDetail) : string * OpKind := (op_file d, op_operation d).

(** A request that writes to the store. *)
Definition isWrite (rq : Request) : bool :=
  match rq_method rq with GET => false | _ => true end.

(** The error the [catch] of the tool handler throws for a caught error. *)
Definition surfaced (error : JsError) : JsError :=
  match error with
  | ZodError _ issues =>
      AppError VALIDATION_ERROR ("Invalid parameters: " +:+ Tool.join issues)
  | _ =>
      AppError EXTERNAL_API_ERROR
        ("Failed to sync update files: " +:+ messageOf error)
  end.

(** The category an error carries, if it is an [AppError]. *)
Definition categoryOf (error : JsError) : option ErrorCode :=
  match error with
  | AppError c _ => Some c
  | _ => None
  end.

(** The same call with [dryRun] set. *)
Definition withDryRun (b : bool) (args : Args) : Args :=
  {| arg_instanceId := arg_instanceId args;
     arg_owner := arg_owner args;
     arg_repository := arg_repository args;
     arg_files := arg_files args;
     arg_message := arg_message args;
     arg_branch := arg_branch args;
     arg_strategy := arg_strategy args;
     arg_conflictResolution := arg_conflictResolution args;
     arg_detectChanges := arg_detectChanges args;
     arg_dryRun := Some b |}.

(** A probe answered with status 404. *)
Definition isNotFound (reply : FetchResult) : bool :=
  match reply with
  | Resolved r => bool_decide (status r = 404)
  | Rejected _ => false
  end.

(** The entry the detection loop pushes for a file whose path currently
    holds [v] in a store that answers its probes ([ContentStore]). *)
Definition planEntry (file : FileOperation) (v : option (string * string))
  : option FileOperation :=
  match v with
  | Some (s, c) =>
      if bool_decide (operation file = modify)
         && bool_decide (content file = Some c)
      then None
      else if bool_decide (operation file = modify)
              || bool_decide (operation file = delete)
      then Some (withSha file (Some s))
      else Some file
  | None =>
      match operation file with
      | add => Some file
      | modify => Some (withSha (withOperation file add) None)
      | delete => None
      end
  end.

(** The plan over a store whose paths currently hold [view]. *)
Definition planOf (view : string -> option (string * string))
  (files : list FileOperation) : list FileOperation :=
  concat (map (fun file => option_list (planEntry file (view (path file)))) files).

(** What a path holds once the operation planned for it has been accepted. *)
Definition settledAfter (file : FileOperation) (v : option (string * string)) : Prop :=
  match operation file with
  | delete => v = None
  | _ => exists s, v = Some (s, utf8 (orDefault (content file) ""))
  end.

(** The call was executed and reports overall success ([failed == 0]). *)
Definition executedWithoutFailure (c : Completion ToolOutput) : bool :=
  match c with
  | Normal (ExecutionReport success _ _ _) => success
  | _ => false
  end.

(** The add operations of a list of files. *)
Definition adds (files : list FileOperation) : list FileOperation :=
  filter (fun f => operation f = add) files.

(** The call addresses what it names: the owner, the repository, the
    branch and the paths of the files are plain. *)
Definition plainCall (params : Params) (files : list FileOperation) : bool :=
  plainSegment (owner params) && plainSegment (repository params)
  && plainPath (branch params) && forallb (fun f => plainPath (path f)) files.

(** A text that its UTF-8 encoding gives back: it holds no lone surrogate. *)
Definition wellFormed (s : string) : bool := bool_decide (utf8 s = s).

(** *** Sample calls *)

Definition sampleConfig : list GiteaInstance :=
  [{| id := "main"; baseUrl := "https://git.example.org"; token := "secret" |}].

Definition sampleInstance : GiteaInstance :=
  {| id := "main"; baseUrl := "https://git.example.org"; token := "secret" |}.

Definition rawFile (p : string) (c : option string) (o : string) : RawFile :=
  {| raw_path := Some p; raw_content := c; raw_operation := Some o; raw_sha := None |}.

Definition sampleArgs (fs : list RawFile) (strat : option string) (dry : option bool)
  : Args :=
  {| arg_instanceId := Some "main"; arg_owner := Some "alice";
     arg_repository := Some "project"; arg_files := fs;
     arg_message := Some "sync"; arg_branch := None; arg_strategy := strat;
     arg_conflictResolution := None; arg_detectChanges := None; arg_dryRun := dry |}.

Definition sampleParams : Params := paramsOf (sampleArgs [] None None).

Definition fileOp (p : string) (c : option string) (k : OpKind) : FileOperation :=
  {| path := p; content := c; operation := k; sha := None |}.

(** * Vocabulary of the further properties of the engine *)

(** The operation names the normaliser accepts. *)
Definition kindName (k : OpKind) : string :=
  match k with add => "add" | modify => "modify" | delete => "delete" end.

(** The characters of a string. *)
Fixpoint chars (s : string) : list ascii :=
  match s with
  | EmptyString => []
  | String c rest => c :: chars rest
  end.

(** What the normaliser guarantees about a file it returns for [raw]. *)
Definition normalizedFrom (raw : RawFile) (f : FileOperation) : Prop :=
  exists p,
    raw_path raw = Some p /\ p <> "" /\
    path f = replaceBackslashes p /\
    content f = raw_content raw /\ sha f = raw_sha raw /\
    orDefault (raw_operation raw) "add" = kindName (operation f) /\
    (operation f <> delete -> falsy (raw_content raw) = false).

(** A path the engine is willing to send to the store. *)
Definition safePath (p : string) : Prop :=
  p <> "" /\ (backslash ∉ chars p) /\
  includes ".." p = false /\ startsWith "/" p = false.

(** The call names every required argument and at least one file, and no
    configured instance has the requested id. *)
Definition instanceUnknown (config : list GiteaInstance) (args : Args) : bool :=
  negb (falsy (arg_instanceId args)) && negb (falsy (arg_owner args))
  && negb (falsy (arg_repository args)) && negb (falsy (arg_message args))
  && negb (bool_decide (length (arg_files args) = 0%nat))
  && match List.find (fun inst => bool_decide (id inst = instanceId (paramsOf args)))
                     config with
     | None => true
     | Some _ => false
     end.

(** A probe that gives the loop nothing to decide on: the fetch was
    rejected, the body of an ok response could not be read, or the status is
    neither ok nor 404. *)
Definition probeFailed (reply : FetchResult) : bool :=
  match reply with
  | Rejected _ => true
  | Resolved r =>
      if ok r then match json r with Normal _ => false | Abrupt _ => true end
      else negb (bool_decide (status r = 404))
  end.

(** A plan entry [e] made from the file [f]: same path and content, and the
    same operation unless a modify was turned into an add. *)
Definition plannedFrom (f e : FileOperation) : Prop :=
  path e = path f /\ content e = content f /\
  (operation e = operation f \/ (operation f = modify /\ operation e = add)).

(** The outcomes with a given status. *)
Definition withStatus (s : string) (ops : list OperationDetail) : list OperationDetail :=
  filter (fun d => op_status d = s) ops.

(** What the counters and the outcome list of an executed plan of [n]
    operations satisfy. *)
Definition countsAddUp (n : nat) (r : Result) : Prop :=
  processed r = n /\ (succeeded r + failed r = n)%nat /\
  length (operations (details r)) = n /\
  length (withStatus "success" (operations (details r))) = succeeded r /\
  length (withStatus "failed" (operations (details r))) = failed r.

(** The plan of a finished planning phase (empty when it threw). *)
Definition completion_plan {W} (r : Completion Detection * W * list (Request * FetchResult))
  : list FileOperation :=
  match r.1.1 with
  | Normal detection => detection.1
  | Abrupt _ => []
  end.

(** * The upload tool ([src/tools/upload-files.ts], [handleUploadFiles]) *)

Module Upload.

(** A validated element of [args.files]. *)
Record ValidatedFile := {
  vf_path : string;
  vf_content : string
}.

(** An element of [results]. *)
Record UploadResult := {
  ur_status : string;
  ur_file : string;
  ur_reason : option string
}.

Record Summary := {
  totalFiles : nat;
  uploaded : nat;
  failedFiles : nat
}.

(** The object handed to [JSON.stringify] by the tool module. *)
Record Output := {
  success : bool;
  summary : Summary;
  failures : option (list string);
  out_repository : string;
  out_branch : string;
  out_commitMessage : string
}.

(** The [files.map] callback of the tool module. *)
Definition validateFile (file : RawFile) : Completion ValidatedFile :=
  match raw_path file with
  | None => Abrupt (Error "File path is required")
  | Some file_path =>
      if decide (file_path = "") then Abrupt (Error "File path is required") else
      match raw_content file with
      | None => Abrupt (Error "File content is required")
      | Some file_content =>
          let normalizedPath := replaceBackslashes file_path in
          if includes ".." normalizedPath || startsWith "/" normalizedPath
          then Abrupt (AppError VALIDATION_ERROR ("Invalid file path: " +:+ file_path))
          else Normal {| vf_path := normalizedPath; vf_content := file_content |}
      end
  end.

(** The [fetch] of the upload loop. *)
Definition uploadRequest (instance : GiteaInstance)
  (a_owner a_repository a_message a_branch : string) (file : ValidatedFile) : Request :=
  {| rq_method := POST;
     rq_baseUrl := baseUrl instance;
     rq_owner := a_owner;
     rq_repository := a_repository;
     rq_path := Some (vf_path file);
     rq_ref := None;
     rq_token := token instance;
     rq_body := FileBody (Some (base64 (utf8 (vf_content file)))) a_message a_branch
                  None |}.

(** One iteration of the upload loop of the tool module. *)
Definition uploadOne (instance : GiteaInstance)
  (a_owner a_repository a_message a_branch : string)
  (results : list UploadResult) (file : ValidatedFile) : Prog (list UploadResult) :=
  tryCatch
    (response ← fetch (uploadRequest instance a_owner a_repository a_message a_branch file);
     if ok response then
       Ret (push results {| ur_status := "fulfilled"; ur_file := vf_path file;
                            ur_reason := None |})
     else
       errorText ← liftC (text response);
       Ret (push results
              {| ur_status := "rejected"; ur_file := vf_path file;
                 ur_reason := Some (pretty (status response) +:+ ": " +:+ errorText) |}))
    (fun error =>
       Ret (push results {| ur_status := "rejected"; ur_file := vf_path file;
                            ur_reason := Some (messageOf error) |})).

(** [results.filter(r => r.status === s)]. *)
Definition withStatus (s : string) (results : list UploadResult) : list UploadResult :=
  filter (fun r => ur_status r = s) results.

(** The body of the [try] block of the tool module. *)
Definition uploadFiles (config : list GiteaInstance) (args : Args) : Prog Output :=
  let a_files := arg_files args in
  let a_branch := orDefault (arg_branch args) "main" in
  a_instanceId ← required (arg_instanceId args) "instanceId is required";
  a_owner ← required (arg_owner args) "owner is required";
  a_repository ← required (arg_repository args) "repository is required";
  a_message ← required (arg_message args) "message is required";
  if bool_decide (length a_files = 0%nat)
  then Throw (Error "files array is required and must not be empty") else
  validatedFiles ← liftC (mapM validateFile a_files);
  match List.find (fun inst => bool_decide (id inst = a_instanceId)) config with
  | None =>
      Throw (Error ("Gitea instance '" +:+ a_instanceId +:+ "' not found"))
  | Some instance =>
      results ← forOf (uploadOne instance a_owner a_repository a_message a_branch)
                  validatedFiles [];
      let successCount := length (withStatus "fulfilled" results) in
      let failureCount := length (withStatus "rejected" results) in
      let failureTexts :=
        map (fun r => orDefault (ur_reason r) "Unknown error")
            (withStatus "rejected" results) in
      Ret {| success := bool_decide (failureCount = 0%nat);
             summary := {| totalFiles := length a_files;
                           uploaded := successCount;
                           failedFiles := failureCount |};
             failures := unlessEmpty failureTexts;
             out_repository := a_owner +:+ "/" +:+ a_repository;
             out_branch := a_branch;
             out_commitMessage := a_message |}
  end.

Definition handler (config : list GiteaInstance) (args : Args) : Prog Output :=
  tryCatch
    (uploadFiles config args)
    (fun error =>
       match error with
       | ZodError _ issues =>
           Throw (AppError VALIDATION_ERROR ("Invalid parameters: " +:+ Tool.join issues))
       | _ =>
           Throw (AppError EXTERNAL_API_ERROR
                    ("Failed to upload files: " +:+ messageOf error))
       end).

End Upload.

(** ** The handler of the server class *)

Module ServerUpload.

(** The arguments of [handleUploadFiles], as the input schema of the tool
    types them: owner, repository and message are strings, each file has a
    path and a content. *)
Record UploadArgs := {
  ua_instanceId : option string;
  ua_owner : string;
  ua_repository : string;
  ua_message : string;
  ua_branch : option string;
  ua_files : list Upload.ValidatedFile
}.

(** An element of [results]. *)
Record FileResult := {
  fr_file : string;
  fr_status : string;
  fr_error : option string
}.

Inductive Reply :=
| Content (success : bool) (summary : Upload.Summary) (results : list FileResult)
| IsError (errorText : string).

(** One iteration of the upload loop. *)
Definition uploadOne (instance : GiteaInstance) (args : UploadArgs) (a_branch : string)
  (results : list FileResult) (file : Upload.ValidatedFile) : Prog (list FileResult) :=
  tryCatch
    (response ← fetch (Upload.uploadRequest instance (ua_owner args)
                         (ua_repository args) (ua_message args) a_branch file);
     if ok response then
       Ret (push results {| fr_file := Upload.vf_path file; fr_status := "success";
                            fr_error := None |})
     else
       errorText ← liftC (text response);
       Ret (push results
              {| fr_file := Upload.vf_path file; fr_status := "failed";
                 fr_error := Some (pretty (status response) +:+ ": " +:+ errorText) |}))
    (fun error =>
       Ret (push results {| fr_file := Upload.vf_path file; fr_status := "failed";
                            fr_error := Some (messageOf error) |})).

Definition withStatus (s : string) (results : list FileResult) : list FileResult :=
  filter (fun r => fr_status r = s) results.

Definition handleUploadFiles (config : list GiteaInstance) (args : UploadArgs)
  : Prog Reply :=
  tryCatch
    (match List.find (fun inst => bool_decide (Some (id inst) = ua_instanceId args))
                     config with
     | None =>
         Throw (McpError InvalidParams
                  ("Gitea instance '" +:+ default "undefined" (ua_instanceId args)
                   +:+ "' not found"))
     | Some instance =>
         let a_branch := orDefault (ua_branch args) "main" in
         results ← forOf (uploadOne instance args a_branch) (ua_files args) [];
         let successCount := length (withStatus "success" results) in
         let failureCount := length (withStatus "failed" results) in
         Ret (Content (bool_decide (failureCount = 0%nat))
                {| Upload.totalFiles := length (ua_files args);
                   Upload.uploaded := successCount;
                   Upload.failedFiles := failureCount |}
                results)
     end)
    (fun error =>
       Ret (IsError ("Error uploading files: " +:+ messageOf error))).

End ServerUpload.

(** ** Vocabulary of the properties of the upload tool *)

(** The result the tool module records for a file, given the reply. *)
Definition uploadResult (file : Upload.ValidatedFile) (reply : FetchResult)
  : Upload.UploadResult :=
  if accepted reply
  then {| Upload.ur_status := "fulfilled"; Upload.ur_file := Upload.vf_path file;
          Upload.ur_reason := None |}
  else {| Upload.ur_status := "rejected"; Upload.ur_file := Upload.vf_path file;
          Upload.ur_reason := Some (failureText reply) |}.

(** The result the server class records for a file, given the reply. *)
Definition serverUploadResult (file : Upload.ValidatedFile) (reply : FetchResult)
  : ServerUpload.FileResult :=
  if accepted reply
  then {| ServerUpload.fr_file := Upload.vf_path file;
          ServerUpload.fr_status := "success"; ServerUpload.fr_error := None |}
  else {| ServerUpload.fr_file := Upload.vf_path file;
          ServerUpload.fr_status := "failed";
          ServerUpload.fr_error := Some (failureText reply) |}.

(** The texts listed under [failures] for the replies that were not
    accepted. *)
Definition failureTexts (replies : list FetchResult) : list string :=
  map (fun reply => orDefault (Some (failureText reply)) "Unknown error")
      (filter (fun reply => accepted reply = false) replies).

(** What the upload handler does before its first request. *)
Definition uploadPreflight (config : list GiteaInstance) (args : Args)
  : Completion (GiteaInstance * list Upload.ValidatedFile) :=
  if falsy (arg_instanceId args) then Abrupt (Error "instanceId is required")
  else if falsy (arg_owner args) then Abrupt (Error "owner is required")
  else if falsy (arg_repository args) then Abrupt (Error "repository is required")
  else if falsy (arg_message args) then Abrupt (Error "message is required")
  else if bool_decide (length (arg_files args) = 0%nat)
  then Abrupt (Error "files array is required and must not be empty")
  else
    match mapM Upload.validateFile (arg_files args) with
    | Abrupt e => Abrupt e
    | Normal validatedFiles =>
        match List.find (fun inst => bool_decide
                                       (id inst = orDefault (arg_instanceId args) ""))
                        config with
        | None =>
            Abrupt (Error ("Gitea instance '" +:+ orDefault (arg_instanceId args) ""
                           +:+ "' not found"))
        | Some instance => Normal (instance, validatedFiles)
        end
    end.

(** The request the tool module issues for a validated file of a call. *)
Definition uploadRequestOf (instance : GiteaInstance) (args : Args)
  (file : Upload.ValidatedFile) : Request :=
  Upload.uploadRequest instance (orDefault (arg_owner args) "")
    (orDefault (arg_repository args) "") (orDefault (arg_message args) "")
    (orDefault (arg_branch args) "main") file.

(** * Errors ([handleMcpError]) *)

(** [handleMcpError]: an [AppError] is returned as it is, another error is
    wrapped as an [INTERNAL_ERROR] with its message, any other thrown value
    becomes an [INTERNAL_ERROR] with a fixed message. *)
Definition handleMcpError (error : JsError) : JsError :=
  match error with
  | AppError c m => AppError c m
  | NonError => AppError INTERNAL_ERROR "Unknown error occurred"
  | e => AppError INTERNAL_ERROR (messageOf e)
  end.

(** * Retrying ([withRetry])

    The operation is a thunk that may answer differently each time it is
    called: [operation n] is the completion of its call number [n], counted
    from zero.  Besides the completion, the model returns how often the
    operation was called and the delays that were slept, in order.

    The numbers of the options are JS numbers, that is doubles.  [Number]
    holds the doubles with an integer value, the infinities and [NaN];
    fractions are outside the model.  [finite z] stands for the double [z]
    when [z] is one ([double z = finite z]), which every integer of
    magnitude up to [2 ^ 53] is. *)
Module Retry.

Inductive Number :=
| finite (z : Z)
| infinity (negative : bool)
| NaN.

(** [Number.MAX_SAFE_INTEGER + 1]. *)
Definition safe : Z := 9007199254740992.

(** [Number.MAX_VALUE]. *)
Definition maxValue : Z := 2 ^ 1024 - 2 ^ 971.

(** The integer of 53 significant bits nearest to [z], ties to even. *)
Definition nearest (z : Z) : Z :=
  let a := Z.abs z in
  if a <=? safe then z
  else
    let e := Z.log2 a - 52 in
    let q := a / 2 ^ e in
    let r := a mod 2 ^ e in
    let half := 2 ^ (e - 1) in
    let q := if r <? half then q
             else if half <? r then q + 1
             else if Z.even q then q else q + 1 in
    Z.sgn z * (q * 2 ^ e).

(** The double that an integer rounds to. *)
Definition double (z : Z) : Number :=
  if Z.abs (nearest z) <=? maxValue then finite (nearest z)
  else infinity (z <? 0).

(** [a * b]. *)
Definition mul (a b : Number) : Number :=
  match a with
  | NaN => NaN
  | finite x =>
      match b with
      | NaN => NaN
      | finite y => double (x * y)
      | infinity n => if x =? 0 then NaN else infinity (xorb n (x <? 0))
      end
  | infinity n =>
      match b with
      | NaN => NaN
      | finite y => if y =? 0 then NaN else infinity (xorb n (y <? 0))
      | infinity n' => infinity (xorb n n')
      end
  end.

(** [a <= b]. *)
Definition leb (a b : Number) : bool :=
  match a with
  | NaN => false
  | finite x =>
      match b with
      | NaN => false
      | finite y => x <=? y
      | infinity n => negb n
      end
  | infinity n =>
      match b with
      | NaN => false
      | finite _ => n
      | infinity n' => n || negb n'
      end
  end.

(** [a === b]. *)
Definition eqb (a b : Number) : bool :=
  match a with
  | NaN => false
  | finite x => match b with finite y => x =? y | _ => false end
  | infinity n => match b with infinity n' => Bool.eqb n n' | _ => false end
  end.

(** [Math.min(a, b)]. *)
Definition min (a b : Number) : Number :=
  match a with
  | NaN => NaN
  | _ => match b with
         | NaN => NaN
         | _ => if leb a b then a else b
         end
  end.

(** [a + 1], the value of [attempt] after [attempt++]. *)
Definition succ (a : Number) : Number :=
  match a with
  | finite x => double (x + 1)
  | other => other
  end.

Record RetryOptions := {
  maxAttempts : option Number;
  delay : option Number;
  backoffMultiplier : option Number;
  maxDelay : option Number
}.

(** [options = {}]. *)
Definition noOptions : RetryOptions :=
  {| maxAttempts := None; delay := None; backoffMultiplier := None; maxDelay := None |}.

Record Outcome (A : Type) := {
  completed : Completion A;
  calls : nat;
  slept : list Number
}.

Arguments completed {A} _.

Arguments calls {A} _.

Arguments slept {A} _.

(** [error instanceof Error ? error : new Error(String(error))]; [shown] is
    [String(error)] of a thrown value that is no error object. *)
Definition asError (shown : string) (error : JsError) : JsError :=
  match error with
  | NonError => Error shown
  | e => e
  end.

(** [throw lastError!]; [lastError] is [undefined] until a call has failed. *)
Definition throwLast {A : Type} (lastError : option JsError) : Completion A :=
  match lastError with
  | Some e => Abrupt e
  | None => Abrupt NonError
  end.

(** The [for] loop from [attempt] on.  [fuel] bounds the iterations that are
    run: [None] says that the loop has not ended within them. *)
Fixpoint attempts {A : Type} (shown : string) (operation : nat -> Completion A)
    (maxAttempts backoffMultiplier maxDelay : Number)
    (fuel : nat) (attempt currentDelay : Number) (lastError : option JsError)
    (called : nat) : option (Outcome A) :=
  match fuel with
  | O => None
  | S fuel =>
      if leb attempt maxAttempts then
        match operation called with
        | Normal v => Some {| completed := Normal v; calls := S called; slept := [] |}
        | Abrupt error =>
            let lastError := asError shown error in
            if eqb attempt maxAttempts then
              Some {| completed := Abrupt lastError; calls := S called; slept := [] |}
            else
              match
                attempts shown operation maxAttempts backoffMultiplier maxDelay fuel
                  (succ attempt) (min (mul currentDelay backoffMultiplier) maxDelay)
                  (Some lastError) (S called)
              with
              | Some rest =>
                  Some {| completed := completed rest;
                          calls := calls rest;
                          slept := currentDelay :: slept rest |}
              | None => None
              end
        end
      else Some {| completed := throwLast lastError; calls := called; slept := [] |}
  end.

Definition maxAttemptsOf (o : RetryOptions) : Number :=
  default (finite 3) (maxAttempts o).

Definition delayOf (o : RetryOptions) : Number := default (finite 1000) (delay o).

Definition backoffMultiplierOf (o : RetryOptions) : Number :=
  default (finite 2) (backoffMultiplier o).

Definition maxDelayOf (o : RetryOptions) : Number :=
  default (finite 10000) (maxDelay o).

(** [withRetry(operation, options)], run for at most [fuel] iterations of
    its loop. *)
Definition withRetry {A : Type} (shown : string) (operation : nat -> Completion A)
    (options : RetryOptions) (fuel : nat) : option (Outcome A) :=
  attempts shown operation (maxAttemptsOf options) (backoffMultiplierOf options)
    (maxDelayOf options) fuel (finite 1) (delayOf options) None 0.

End Retry.

(** The delays of [n] retries that start from [d]: each is the one before
    times the multiplier, capped. *)
Fixpoint backoff (multiplier cap d : Z) (n : nat) : list Z :=
  match n with
  | O => []
  | S n => d :: backoff multiplier cap (Z.min (d * multiplier) cap) n
  end.

(** The options are integers: at most [maxAttempts] attempts, delays that
    start at [delay], grow by [multiplier] and are capped at [cap]. *)
Definition optionsAre (o : Retry.RetryOptions) (maxAttempts delay multiplier cap : Z)
  : Prop :=
  Retry.maxAttemptsOf o = Retry.finite maxAttempts /\
  Retry.delayOf o = Retry.finite delay /\
  Retry.backoffMultiplierOf o = Retry.finite multiplier /\
  Retry.maxDelayOf o = Retry.finite cap.

(** The numbers are not negative and the delays stay in the range in which
    the arithmetic of doubles is exact. *)
Definition exactDelays (maxAttempts delay multiplier cap : Z) : Prop :=
  maxAttempts <= Retry.safe /\
  0 <= delay <= Retry.safe /\ 0 <= multiplier <= Retry.safe /\
  0 <= cap <= Retry.safe /\
  delay * multiplier <= Retry.safe /\ cap * multiplier <= Retry.safe.

Definition fails {A : Type} (c : Completion A) : Prop :=
  match c with
  | Normal _ => False
  | Abrupt _ => True
  end.

(** * Where the requests of a call go *)

(** The paths a request names: the one of its URL and those of the files of
    a combined commit. *)
Definition pathsOf (rq : Request) : list string :=
  app (option_list (rq_path rq))
      (match rq_body rq with
       | BatchBody fs _ _ => map bf_path fs
       | _ => []
       end).

(** One of the requests the engine builds for [instance] and [params],
    over paths of [files]. *)
Definition builtFor (instance : GiteaInstance) (params : Params)
  (files : list FileOperation) (rq : Request) : Prop :=
  (exists f, f ∈ files /\ rq = probeRequest instance params f) \/
  (exists e, path e ∈ map path files /\ rq = individualRequest instance params e) \/
  (exists plan, Forall (fun e => path e ∈ map path files) plan /\
                rq = batchRequest instance params plan).

(** * The instance manager ([InstanceManager], [getGiteaClient],
      [listGiteaInstances])

    The manager is a singleton with a [Map] from instance ids to clients and
    a flag.  A client is modelled by the instance it was built from; the
    configuration that [loadConfig()] returns is an argument. *)
Module InstanceManager.

Record State := {
  clients : list (string * GiteaInstance);
  initialized : bool
}.

(** [new InstanceManager()]. *)
Definition new : State := {| clients := []; initialized := false |}.

(** [Map.prototype.set]: the value of a present key is replaced where it
    stands, a new key goes to the end. *)
Fixpoint mapSet (k : string) (v : GiteaInstance) (m : list (string * GiteaInstance))
  : list (string * GiteaInstance) :=
  match m with
  | [] => [(k, v)]
  | (k', v') :: m' =>
      if bool_decide (k' = k) then (k, v) :: m' else (k', v') :: mapSet k v m'
  end.

(** [Map.prototype.get]. *)
Definition mapGet (k : string) (m : list (string * GiteaInstance))
  : option GiteaInstance :=
  snd <$> List.find (fun kv => bool_decide (kv.1 = k)) m.

Definition initialize (config : list GiteaInstance) (s : State) : State :=
  if initialized s then s
  else
    {| clients := fold_left (fun m instance => mapSet (id instance) instance m)
                    config (clients s);
       initialized := true |}.

Definition getClient (instanceId : string) (s : State) : Completion GiteaInstance :=
  if negb (initialized s) then
    Abrupt (AppError INTERNAL_ERROR "Instance manager not initialized")
  else
    match mapGet instanceId (clients s) with
    | None =>
        Abrupt (AppError NOT_FOUND ("Gitea instance '" +:+ instanceId +:+ "' not found"))
    | Some client => Normal client
    end.

Definition listInstances (s : State) : list string := (clients s).*1.

Definition getGiteaClient (config : list GiteaInstance) (instanceId : string)
  (s : State) : Completion GiteaInstance * State :=
  let s := initialize config s in
  (getClient instanceId s, s).

Definition listGiteaInstances (config : list GiteaInstance) (s : State)
  : list string * State :=
  let s := initialize config s in
  (listInstances s, s).

End InstanceManager.

(** The instance the tool handlers select for an id: the first of the
    configuration that has it ([config.gitea.instances.find]). *)
Definition findInstance (config : list GiteaInstance) (k : string)
  : option GiteaInstance :=
  List.find (fun inst => bool_decide (id inst = k)) config.

(** The elements of a list, each kept where it occurs first. *)
Fixpoint firstOccurrences (l : list string) : list string :=
  match l with
  | [] => []
  | x :: l' => x :: filter (fun y => y <> x) (firstOccurrences l')
  end.

(** What a lookup answers when [found] is what the map holds. *)
Definition clientOr (k : string) (found : option GiteaInstance)
  : Completion GiteaInstance :=
  match found with
  | Some client => Normal client
  | None => Abrupt (AppError NOT_FOUND ("Gitea instance '" +:+ k +:+ "' not found"))
  end.

(** The state after a series of calls, each with the configuration that is
    current when it is made. *)
Definition afterCalls (calls : list (list GiteaInstance * string))
  (s : InstanceManager.State) : InstanceManager.State :=
  fold_left (fun s call => (InstanceManager.getGiteaClient call.1 call.2 s).2) calls s.

(** * Project sync ([handleSyncProject], [discoverProjectFiles],
      [isTextFile])

    The project directory is a tree of entries as [fs.readdir], [fs.stat]
    and [fs.readFile] show it: a call that rejects is an [Abrupt] field.
    [ignores] is [ig.ignores], the rule set that the [ignore] package builds
    from the [.gitignore] of the project and the built-in defaults. *)
Module Project.

(** An element of the array that [discoverProjectFiles] returns. *)
Record ProjectFile := {
  pf_path : string;
  pf_content : string;
  pf_size : Z;
  pf_isText : bool
}.

#[local] Unset Elimination Schemes.

Inductive Entry :=
| Directory (name : string) (listing : Completion (list Entry))
| File (name : string) (stat : Completion Z) (read : Completion string)
| Other (name : string).

#[local] Set Elimination Schemes.

Definition entryName (entry : Entry) : string :=
  match entry with
  | Directory name _ => name
  | File name _ _ => name
  | Other name => name
  end.

Record Options := {
  includeHidden : bool;
  maxFileSize : Z;
  textOnly : bool
}.

(** [!content.includes('\0')]. *)
Definition isTextFile (content : string) : bool :=
  negb (includes (String (ascii_of_nat 0) EmptyString) content).

(** [relativePath ? `${relativePath}/${entry.name}` : entry.name]. *)
Definition relativeFilePathOf (relativePath name : string) : string :=
  if decide (relativePath = "") then name else relativePath +:+ "/" +:+ name.

(** The body of the [for] loop of [walkDirectory] for one entry; a
    directory is walked with the loop over its own entries. *)
Fixpoint walkEntry (ignores : string -> bool) (options : Options)
    (relativePath : string) (files : list ProjectFile) (entry : Entry)
  : Completion (list ProjectFile) :=
  let relativeFilePath := relativeFilePathOf relativePath (entryName entry) in
  if negb (includeHidden options) && startsWith "." (entryName entry) then Normal files
  else if ignores relativeFilePath then Normal files
  else
    match entry with
    | Directory _ listing =>
        match listing with
        | Abrupt e => Abrupt e
        | Normal entries =>
            (fix walkEntries (entries : list Entry) (files : list ProjectFile)
               : Completion (list ProjectFile) :=
               match entries with
               | [] => Normal files
               | entry :: rest =>
                   match walkEntry ignores options relativeFilePath files entry with
                   | Normal files => walkEntries rest files
                   | Abrupt e => Abrupt e
                   end
               end) entries files
        end
    | File _ stat read =>
        match stat with
        | Abrupt _ => Normal files
        | Normal size =>
            if maxFileSize options <? size then Normal files
            else
              match read with
              | Abrupt _ => Normal files
              | Normal content =>
                  let isText := isTextFile content in
                  if textOnly options && negb isText then Normal files
                  else
                    Normal (push files
                              {| pf_path := replaceBackslashes relativeFilePath;
                                 pf_content := content;
                                 pf_size := size;
                                 pf_isText := isText |})
              end
        end
    | Other _ => Normal files
    end.

(** The [for] loop of [walkDirectory]. *)
Fixpoint walkEntries (ignores : string -> bool) (options : Options)
    (relativePath : string) (entries : list Entry) (files : list ProjectFile)
  : Completion (list ProjectFile) :=
  match entries with
  | [] => Normal files
  | entry :: rest =>
      match walkEntry ignores options relativePath files entry with
      | Normal files => walkEntries ignores options relativePath rest files
      | Abrupt e => Abrupt e
      end
  end.

(** [walkDirectory(dirPath, relativePath)]; [listing] is what
    [fs.readdir(dirPath)] gives. *)
Definition walkDirectory (ignores : string -> bool) (options : Options)
    (listing : Completion (list Entry)) (relativePath : string)
    (files : list ProjectFile) : Completion (list ProjectFile) :=
  match listing with
  | Abrupt e => Abrupt e
  | Normal entries => walkEntries ignores options relativePath entries files
  end.

(** [discoverProjectFiles(projectPath, options)]; [root] is the listing of
    the project directory. *)
Definition discoverProjectFiles (ignores : string -> bool)
    (root : Completion (list Entry)) (options : Options)
  : Completion (list ProjectFile) :=
  walkDirectory ignores options root "" [].

End Project.

(** ** What discovery finds *)

Section DiscoveryVocabulary.

Variable ignores : string -> bool.
Variable options : Project.Options.

(** An entry of this name in the directory [relativePath] is not skipped. *)
Definition admitted (relativePath name : string) : bool :=
  negb (negb (Project.includeHidden options) && startsWith "." name)
  && negb (ignores (Project.relativeFilePathOf relativePath name)).

(** The file at the relative path [p], of the given size and content, is
    [entry] itself or lies below it, and neither it nor a directory on the
    way is skipped. *)
Inductive foundIn : string -> Project.Entry -> string -> Z -> string -> Prop :=
| found_file relativePath name size content :
    admitted relativePath name = true ->
    foundIn relativePath (Project.File name (Normal size) (Normal content))
      (Project.relativeFilePathOf relativePath name) size content
| found_below relativePath name entries entry p size content :
    admitted relativePath name = true ->
    entry ∈ entries ->
    foundIn (Project.relativeFilePathOf relativePath name) entry p size content ->
    foundIn relativePath (Project.Directory name (Normal entries)) p size content.

(** The record that discovery makes of a file. *)
Definition projectFile (p : string) (size : Z) (content : string) : Project.ProjectFile :=
  {| Project.pf_path := replaceBackslashes p;
     Project.pf_content := content;
     Project.pf_size := size;
     Project.pf_isText := Project.isTextFile content |}.

(** A file passes the size and text filters. *)
Definition passes (size : Z) (content : string) : Prop :=
  size <= Project.maxFileSize options /\
  (Project.textOnly options = true -> Project.isTextFile content = true).

(** [f] is the record of a file found in [entry] that passes the filters. *)
Definition discoveredIn (relativePath : string) (entry : Project.Entry)
  (f : Project.ProjectFile) : Prop :=
  exists p size content,
    foundIn relativePath entry p size content /\ passes size content /\
    f = projectFile p size content.

(** What a walk adds to [files0], when it returns. *)
Definition adds_exactly (files0 files : list Project.ProjectFile)
  (spec : Project.ProjectFile -> Prop) : Prop :=
  exists added, files = app files0 added /\ forall f, f ∈ added <-> spec f.

Definition walk_discovers (entry : Project.Entry) : Prop :=
  forall relativePath files0 files,
    Project.walkEntry ignores options relativePath files0 entry = Normal files ->
    adds_exactly files0 files (discoveredIn relativePath entry).

(** The directory [entry], or one below it, cannot be listed, and neither it
    nor a directory on the way is skipped. *)
Inductive unreadableIn : string -> Project.Entry -> JsError -> Prop :=
| unreadable_here relativePath name e :
    admitted relativePath name = true ->
    unreadableIn relativePath (Project.Directory name (Abrupt e)) e
| unreadable_below relativePath name entries entry e :
    admitted relativePath name = true ->
    entry ∈ entries ->
    unreadableIn (Project.relativeFilePathOf relativePath name) entry e ->
    unreadableIn relativePath (Project.Directory name (Normal entries)) e.

Definition walk_fails_on (entry : Project.Entry) : Prop :=
  forall relativePath files0 e,
    Project.walkEntry ignores options relativePath files0 entry = Abrupt e ->
    unreadableIn relativePath entry e.

End DiscoveryVocabulary.

(** ** The handler ([handleSyncProject]) *)

Module SyncProject.

(** What the file system shows of a project directory: the rule set built
    from its [.gitignore] and the defaults, and its listing. *)
Record ProjectDir := {
  ignores : string -> bool;
  root : Completion (list Project.Entry)
}.

(** The arguments, as the input schema of the tool types them; owner,
    repository and message are strings. *)
Record SyncArgs := {
  sa_instanceId : option string;
  sa_owner : string;
  sa_repository : string;
  sa_message : string;
  sa_branch : option string;
  sa_projectPath : option string;
  sa_dryRun : option bool;
  sa_includeHidden : option bool;
  sa_maxFileSize : option Z;
  sa_textOnly : option bool
}.

Record Details := {
  details_uploaded : list string;
  details_failed : list (string * string);
  details_skipped : list (string * string)
}.

(** [result]. *)
Record Result := {
  discovered : nat;
  filtered : nat;
  uploaded : nat;
  failed : nat;
  skipped : nat;
  details : Details
}.

Inductive Reply :=
| DryRun (summary : Result) (files : list (string * Z * bool))
| Content (success : bool) (summary : Result)
          (repository branch commitMessage : string)
          (failures : option (list (string * string)))
| IsError (errorText : string).

(** [args.maxFileSize || 1048576]. *)
Definition maxFileSizeOf (args : SyncArgs) : Z :=
  match sa_maxFileSize args with
  | Some n => if decide (n = 0) then 1048576 else n
  | None => 1048576
  end.

Definition optionsOf (args : SyncArgs) : Project.Options :=
  {| Project.includeHidden := default false (sa_includeHidden args);
     Project.maxFileSize := maxFileSizeOf args;
     Project.textOnly := default true (sa_textOnly args) |}.

Definition uploadRequest (instance : GiteaInstance) (args : SyncArgs)
  (file : Project.ProjectFile) : Request :=
  Upload.uploadRequest instance (sa_owner args) (sa_repository args)
    (sa_message args) (orDefault (sa_branch args) "main")
    {| Upload.vf_path := Project.pf_path file;
       Upload.vf_content := Project.pf_content file |}.

Definition recordUploaded (file : Project.ProjectFile) (result : Result) : Result :=
  {| discovered := discovered result;
     filtered := filtered result;
     uploaded := S (uploaded result);
     failed := failed result;
     skipped := skipped result;
     details :=
       {| details_uploaded :=
            push (details_uploaded (details result)) (Project.pf_path file);
          details_failed := details_failed (details result);
          details_skipped := details_skipped (details result) |} |}.

Definition recordFailed (file : Project.ProjectFile) (error : string)
  (result : Result) : Result :=
  {| discovered := discovered result;
     filtered := filtered result;
     uploaded := uploaded result;
     failed := S (failed result);
     skipped := skipped result;
     details :=
       {| details_uploaded := details_uploaded (details result);
          details_failed :=
            push (details_failed (details result)) (Project.pf_path file, error);
          details_skipped := details_skipped (details result) |} |}.

(** One iteration of the upload loop. *)
Definition uploadOne (instance : GiteaInstance) (args : SyncArgs)
  (result : Result) (file : Project.ProjectFile) : Prog Result :=
  tryCatch
    (response ← fetch (uploadRequest instance args file);
     if ok response then Ret (recordUploaded file result)
     else
       errorText ← liftC (text response);
       Ret (recordFailed file (pretty (status response) +:+ ": " +:+ errorText) result))
    (fun error => Ret (recordFailed file (messageOf error) result)).

Definition initialResult (files : list Project.ProjectFile) (nFiltered : nat) : Result :=
  {| discovered := length files;
     filtered := nFiltered;
     uploaded := 0;
     failed := 0;
     skipped := 0;
     details := {| details_uploaded := []; details_failed := [];
                   details_skipped := [] |} |}.

Definition handleSyncProject (fs : string -> ProjectDir)
  (config : list GiteaInstance) (args : SyncArgs) : Prog Reply :=
  tryCatch
    (let projectPath := orDefault (sa_projectPath args) "." in
     match List.find (fun inst => bool_decide (Some (id inst) = sa_instanceId args))
                     config with
     | None =>
         Throw (McpError InvalidParams
                  ("Gitea instance '" +:+ default "undefined" (sa_instanceId args)
                   +:+ "' not found"))
     | Some instance =>
         files ← liftC (Project.discoverProjectFiles (ignores (fs projectPath))
                          (root (fs projectPath)) (optionsOf args));
         if default false (sa_dryRun args) then
           Ret (DryRun (initialResult files (length files))
                  (map (fun f => (Project.pf_path f, Project.pf_size f,
                                  Project.pf_isText f)) files))
         else
           result ← forOf (uploadOne instance args) files (initialResult files 0);
           Ret (Content (bool_decide (failed result = 0%nat)) result
                  (sa_owner args +:+ "/" +:+ sa_repository args)
                  (orDefault (sa_branch args) "main")
                  (sa_message args)
                  (unlessEmpty (details_failed (details result))))
     end)
    (fun error =>
       Ret (IsError ("Error syncing project: " +:+ messageOf error))).

End SyncProject.

(** The summary after the upload of [file] was answered by [reply]. *)
Definition recordUpload (result : SyncProject.Result)
  (answered : Project.ProjectFile * FetchResult) : SyncProject.Result :=
  if accepted answered.2 then SyncProject.recordUploaded answered.1 result
  else SyncProject.recordFailed answered.1 (failureText answered.2) result.

(** The files discovered for a call. *)
Definition discoveredFor (fs : string -> SyncProject.ProjectDir)
  (args : SyncProject.SyncArgs) : Completion (list Project.ProjectFile) :=
  let dir := fs (orDefault (SyncProject.sa_projectPath args) ".") in
  Project.discoverProjectFiles (SyncProject.ignores dir) (SyncProject.root dir)
    (SyncProject.optionsOf args).

(** The counters and lists of a summary agree with the replies to the
    uploads of [files]. *)
Definition tallies (files : list Project.ProjectFile) (replies : list FetchResult)
  (result : SyncProject.Result) : Prop :=
  let answered := zip files replies in
  let good := filter (fun a => accepted a.2 = true) answered in
  let bad := filter (fun a => accepted a.2 = false) answered in
  SyncProject.discovered result = length files /\
  SyncProject.filtered result = 0%nat /\
  SyncProject.skipped result = 0%nat /\
  SyncProject.details_skipped (SyncProject.details result) = [] /\
  SyncProject.details_uploaded (SyncProject.details result)
  = map (fun a => Project.pf_path a.1) good /\
  SyncProject.details_failed (SyncProject.details result)
  = map (fun a => (Project.pf_path a.1, failureText a.2)) bad /\
  SyncProject.uploaded result = length good /\
  SyncProject.failed result = length bad /\
  (SyncProject.uploaded result + SyncProject.failed result = length files)%nat.

(** A project directory with one source file, a file that is too large and
    a hidden file. *)
Definition sampleProject (projectPath : string) : SyncProject.ProjectDir :=
  {| SyncProject.ignores := fun p => bool_decide (p = "node_modules");
     SyncProject.root :=
       Normal [Project.Directory "src"
                 (Normal [Project.File "a.ts" (Normal 3) (Normal "abc");
                          Project.File "big.bin" (Normal 2000000) (Normal "x")]);
               Project.File ".env" (Normal 1) (Normal "z")] |}.

Definition sampleSyncArgs : SyncProject.SyncArgs :=
  {| SyncProject.sa_instanceId := Some "main";
     SyncProject.sa_owner := "alice";
     SyncProject.sa_repository := "project";
     SyncProject.sa_message := "initial commit";
     SyncProject.sa_branch := None;
     SyncProject.sa_projectPath := None;
     SyncProject.sa_dryRun := None;
     SyncProject.sa_includeHidden := None;
     SyncProject.sa_maxFileSize := None;
     SyncProject.sa_textOnly := None |}.

(** * Uploading in batches ([GiteaClient.batchUploadFiles])

    The uploads of one batch run concurrently, each with its own retries;
    [uploadAll batch w] stands for
    [Promise.allSettled(batch.map(file => this.uploadFile(...)))] started in
    the state [w]: the settled results, in the order of the batch, and the
    state afterwards.  [batchSize] is an integer.  The loop has no bound of
    its own: [fuel] bounds its rounds, and [None] says it has not returned
    within them. *)
Module GiteaClient.

Inductive Event :=
| Uploaded (batch : list Upload.ValidatedFile)
| Slept (ms : Z).

(** [xs.slice(start, end)]. *)
Definition slice {A : Type} (xs : list A) (start finish : Z) : list A :=
  let len := Z.of_nat (length xs) in
  let k := if start <? 0 then Z.max (len + start) 0 else Z.min start len in
  let final := if finish <? 0 then Z.max (len + finish) 0 else Z.min finish len in
  take (Z.to_nat (final - k)) (drop (Z.to_nat k) xs).

(** The [for] loop, from [i] on. *)
Fixpoint batchLoop {W R : Type}
    (uploadAll : list Upload.ValidatedFile -> W -> list R * W)
    (files : list Upload.ValidatedFile) (batchSize : Z)
    (fuel : nat) (i : Z) (results : list R) (w : W) (trace : list Event)
  : option (list R * W * list Event) :=
  match fuel with
  | O => None
  | S fuel =>
      if i <? Z.of_nat (length files) then
        let batch := slice files i (i + batchSize) in
        let settled := uploadAll batch w in
        let results := app results settled.1 in
        let trace := push trace (Uploaded batch) in
        let trace :=
          if i + batchSize <? Z.of_nat (length files)
          then push trace (Slept 1000) else trace in
        batchLoop uploadAll files batchSize fuel (i + batchSize) results settled.2 trace
      else Some (results, w, trace)
  end.

Definition batchUploadFiles {W R : Type}
    (uploadAll : list Upload.ValidatedFile -> W -> list R * W)
    (files : list Upload.ValidatedFile) (batchSize : option Z)
    (fuel : nat) (w : W) : option (list R * W * list Event) :=
  batchLoop uploadAll files (default 10 batchSize) fuel 0 [] w [].

End GiteaClient.

(** The list cut into pieces of [b] elements, the last one maybe shorter. *)
Fixpoint chunksOf {A : Type} (fuel b : nat) (xs : list A) : list (list A) :=
  match fuel with
  | O => []
  | S fuel =>
      match xs with
      | [] => []
      | _ => take b xs :: chunksOf fuel b (drop b xs)
      end
  end.

Definition chunks {A : Type} (b : nat) (xs : list A) : list (list A) :=
  chunksOf (length xs) b xs.

(** The batches uploaded one after the other, with a second of sleep
    between two of them. *)
Fixpoint runBatches {W R : Type}
    (uploadAll : list Upload.ValidatedFile -> W -> list R * W)
    (batches : list (list Upload.ValidatedFile))
    (results : list R) (w : W) (trace : list GiteaClient.Event)
  : list R * W * list GiteaClient.Event :=
  match batches with
  | [] => (results, w, trace)
  | batch :: rest =>
      let settled := uploadAll batch w in
      runBatches uploadAll rest (app results settled.1) settled.2
        (app trace (GiteaClient.Uploaded batch
                    :: match rest with [] => [] | _ => [GiteaClient.Slept 1000] end))
  end.

(** Three files and an [uploadAll] that settles every upload with the path
    of its file and counts the uploads. *)
Definition sampleUploads : list Upload.ValidatedFile :=
  [{| Upload.vf_path := "a"; Upload.vf_content := "1" |};
   {| Upload.vf_path := "b"; Upload.vf_content := "2" |};
   {| Upload.vf_path := "c"; Upload.vf_content := "3" |}].

Definition countingUploadAll (batch : list Upload.ValidatedFile) (w : nat)
  : list string * nat :=
  (map Upload.vf_path batch, (w + length batch)%nat).

(** * Creating a repository ([src/tools/create-repository.ts],
      [handleCreateRepository])

    The call issues one [fetch], a POST to [baseUrl/api/v1/user/repos], so
    the network is a function from the state and the request to the reply
    and the next state.  Strings are UTF-8. *)
Module CreateRepository.

Record CreateArgs := {
  ca_instanceId : option string;
  ca_name : option string;
  ca_description : option string;
  ca_private : option bool;
  ca_autoInit : option bool;
  ca_defaultBranch : option string
}.

(** [requestBody]; a key whose value is [undefined] is absent. *)
Record RequestBody := {
  rb_name : option string;
  rb_description : string;
  rb_private : bool;
  rb_auto_init : bool;
  rb_default_branch : string
}.

Record CreateRequest := {
  cr_baseUrl : string;
  cr_token : string;
  cr_body : RequestBody
}.

(** The fields the handlers read from the JSON of the reply. *)
Record RepositoryJson := {
  repo_id : Z;
  repo_name : string;
  full_name : string;
  html_url : string;
  clone_url : string;
  ssh_url : string;
  repo_private : bool;
  created_at : string
}.

Record RepoResponse := {
  rr_status : Z;
  rr_statusText : string;
  rr_json : Completion RepositoryJson;
  rr_text : Completion string
}.

Definition rr_ok (r : RepoResponse) : bool :=
  (200 <=? rr_status r) && (rr_status r <=? 299).

Inductive RepoFetchResult :=
| RepoResolved (response : RepoResponse)
| RepoRejected (error : JsError).

(** The [repository] object of the report. *)
Record Created := {
  id_ : Z;
  name_ : string;
  fullName : string;
  url : string;
  cloneUrl : string;
  sshUrl : option string;
  private_ : bool;
  createdAt : string
}.

Definition byte (n : nat) (c : ascii) : bool := bool_decide (c = ascii_of_nat n).

(** A white space or line terminator of one byte. *)
Definition space1 (c : ascii) : bool :=
  byte 9 c || byte 10 c || byte 11 c || byte 12 c || byte 13 c || byte 32 c.

(** U+00A0. *)
Definition space2 (c1 c2 : ascii) : bool := byte 194 c1 && byte 160 c2.

(** U+1680, U+2000 to U+200A, U+2028, U+2029, U+202F, U+205F, U+3000,
    U+FEFF. *)
Definition space3 (c1 c2 c3 : ascii) : bool :=
  (byte 225 c1 && byte 154 c2 && byte 128 c3)
  || (byte 226 c1 && byte 128 c2
      && ((128 <=? nat_of_ascii c3)%nat && (nat_of_ascii c3 <=? 138)%nat
          || byte 168 c3 || byte 169 c3 || byte 175 c3))
  || (byte 226 c1 && byte 129 c2 && byte 159 c3)
  || (byte 227 c1 && byte 128 c2 && byte 128 c3)
  || (byte 239 c1 && byte 187 c2 && byte 191 c3).

(** [s.trim().length === 0]. *)
Fixpoint blank (s : string) : bool :=
  match s with
  | EmptyString => true
  | String c1 rest1 =>
      if space1 c1 then blank rest1
      else
        match rest1 with
        | String c2 rest2 =>
            if space2 c1 c2 then blank rest2
            else
              match rest2 with
              | String c3 rest3 => if space3 c1 c2 c3 then blank rest3 else false
              | EmptyString => false
              end
        | EmptyString => false
        end
  end.

Definition created (withSsh : bool) (repository : RepositoryJson) : Created :=
  {| id_ := repo_id repository;
     name_ := repo_name repository;
     fullName := full_name repository;
     url := html_url repository;
     cloneUrl := clone_url repository;
     sshUrl := if withSsh then Some (ssh_url repository) else None;
     private_ := repo_private repository;
     createdAt := created_at repository |}.

Definition requestOf (instance : GiteaInstance) (body : RequestBody) : CreateRequest :=
  {| cr_baseUrl := baseUrl instance; cr_token := token instance; cr_body := body |}.

Section Handlers.

Context {W : Type} (net : W -> CreateRequest -> RepoFetchResult * W).

(** The [try] block of the tool module. *)
Definition createRepository (config : list GiteaInstance) (args : CreateArgs) (w : W)
  : Completion Created * W * list CreateRequest :=
  if falsy (ca_instanceId args) then
    (Abrupt (McpError InvalidParams "instanceId is required"), w, [])
  else if falsy (ca_name args) || blank (orDefault (ca_name args) "") then
    (Abrupt (McpError InvalidParams "name is required and cannot be empty"), w, [])
  else
    let instanceId := orDefault (ca_instanceId args) "" in
    match List.find (fun inst => bool_decide (id inst = instanceId)) config with
    | None =>
        (Abrupt (McpError InvalidParams
                   ("Gitea instance '" +:+ instanceId +:+ "' not found")), w, [])
    | Some instance =>
        let rq :=
          requestOf instance
            {| rb_name := ca_name args;
               rb_description := orDefault (ca_description args) "";
               rb_private := default true (ca_private args);
               rb_auto_init := default true (ca_autoInit args);
               rb_default_branch := orDefault (ca_defaultBranch args) "main" |} in
        let answered := net w rq in
        match answered.1 with
        | RepoRejected e => (Abrupt e, answered.2, [rq])
        | RepoResolved response =>
            if negb (rr_ok response) then
              match rr_text response with
              | Abrupt e => (Abrupt e, answered.2, [rq])
              | Normal errorText =>
                  (Abrupt (McpError InternalError
                             ("API request failed: " +:+ pretty (rr_status response)
                              +:+ " " +:+ rr_statusText response
                              +:+ " - " +:+ errorText)),
                   answered.2, [rq])
              end
            else
              match rr_json response with
              | Abrupt e => (Abrupt e, answered.2, [rq])
              | Normal repository => (Normal (created true repository), answered.2, [rq])
              end
        end
    end.

(** The handler of the tool module: the [try] block and its [catch]. *)
Definition handler (config : list GiteaInstance) (args : CreateArgs) (w : W)
  : Completion Created * W * list CreateRequest :=
  match createRepository config args w with
  | (Abrupt (McpError c m), w', log) => (Abrupt (McpError c m), w', log)
  | (Abrupt e, w', log) =>
      (Abrupt (McpError InternalError
                 ("Failed to create repository: " +:+ messageOf e)), w', log)
  | (Normal out, w', log) => (Normal out, w', log)
  end.

Inductive Reply :=
| Content (repository : Created)
| IsError (errorText : string).

(** The handler of the server class; it never throws. *)
Definition handleCreateRepository (config : list GiteaInstance) (args : CreateArgs)
  (w : W) : Reply * W * list CreateRequest :=
  match List.find (fun inst => bool_decide (Some (id inst) = ca_instanceId args))
                  config with
  | None =>
      (IsError ("Error creating repository: "
                +:+ messageOf (McpError InvalidParams
                                 ("Gitea instance '"
                                  +:+ default "undefined" (ca_instanceId args)
                                  +:+ "' not found"))), w, [])
  | Some instance =>
      let rq :=
        requestOf instance
          {| rb_name := ca_name args;
             rb_description := orDefault (ca_description args) "";
             rb_private := default false (ca_private args);
             rb_auto_init := default true (ca_autoInit args);
             rb_default_branch := orDefault (ca_defaultBranch args) "main" |} in
      let answered := net w rq in
      match answered.1 with
      | RepoRejected e =>
          (IsError ("Error creating repository: " +:+ messageOf e), answered.2, [rq])
      | RepoResolved response =>
          if negb (rr_ok response) then
            match rr_text response with
            | Abrupt e =>
                (IsError ("Error creating repository: " +:+ messageOf e),
                 answered.2, [rq])
            | Normal errorText =>
                (IsError ("Failed to create repository: "
                          +:+ pretty (rr_status response)
                          +:+ " " +:+ rr_statusText response
                          +:+ " - " +:+ errorText),
                 answered.2, [rq])
            end
          else
            match rr_json response with
            | Abrupt e =>
                (IsError ("Error creating repository: " +:+ messageOf e),
                 answered.2, [rq])
            | Normal repository => (Content (created false repository), answered.2, [rq])
            end
      end
  end.

End Handlers.

End CreateRepository.

(** The arguments pass the checks of the tool module. *)
Definition validCreateArgs (config : list GiteaInstance)
  (args : CreateRepository.CreateArgs) : bool :=
  negb (falsy (CreateRepository.ca_instanceId args))
  && negb (falsy (CreateRepository.ca_name args)
           || CreateRepository.blank (orDefault (CreateRepository.ca_name args) ""))
  && bool_decide (findInstance config
                    (orDefault (CreateRepository.ca_instanceId args) "") <> None).

(** The request of a call, with the given default for [private]. *)
Definition createRequest (defaultPrivate : bool) (instance : GiteaInstance)
  (args : CreateRepository.CreateArgs) : CreateRepository.CreateRequest :=
  CreateRepository.requestOf instance
    {| CreateRepository.rb_name := CreateRepository.ca_name args;
       CreateRepository.rb_description :=
         orDefault (CreateRepository.ca_description args) "";
       CreateRepository.rb_private :=
         default defaultPrivate (CreateRepository.ca_private args);
       CreateRepository.rb_auto_init :=
         default true (CreateRepository.ca_autoInit args);
       CreateRepository.rb_default_branch :=
         orDefault (CreateRepository.ca_defaultBranch args) "main" |}.

(** * Properties *)

(** ** Running programs *)

Section Running.

Context {W : Type} (net : W -> Request -> FetchResult * W).

Lemma run_bind {A B} (p : Prog A) (f : A -> Prog B) (w : W) :
  run net (p ≫= f) w =
  match run net p w with
  | (Normal a, w1, l1) =>
      let '(c, w2, l2) := run net (f a) w1 in (c, w2, app l1 l2)
  | (Abrupt e, w1, l1) => (Abrupt e, w1, l1)
  end.
Proof.
  change (p ≫= f) with (bind p f).
  revert w; induction p as [a|e|rq k IH]; intros w; simpl.
  - destruct (run net (f a) w) as [[c w2] l2]; reflexivity.
  - reflexivity.
  - destruct (net w rq) as [reply w1].
    rewrite IH.
    destruct (run net (k reply) w1) as [[[a|e] w2] l1]; [|reflexivity].
    destruct (run net (f a) w2) as [[c w3] l2]; reflexivity.
Qed.

Lemma run_tryCatch {A} (p : Prog A) (h : JsError -> Prog A) (w : W) :
  run net (tryCatch p h) w =
  match run net p w with
  | (Normal a, w1, l1) => (Normal a, w1, l1)
  | (Abrupt e, w1, l1) =>
      let '(c, w2, l2) := run net (h e) w1 in (c, w2, app l1 l2)
  end.
Proof.
  revert w; induction p as [a|e|rq k IH]; intros w; simpl.
  - reflexivity.
  - destruct (run net (h e) w) as [[c w2] l2]; reflexivity.
  - destruct (net w rq) as [reply w1].
    rewrite IH.
    destruct (run net (k reply) w1) as [[[a|e] w2] l1]; [reflexivity|].
    destruct (run net (h e) w2) as [[c w3] l2]; reflexivity.
Qed.

Lemma run_fetch (rq : Request) (w : W) :
  run net (fetch rq) w =
  (match (net w rq).1 with
   | Resolved r => Normal r
   | Rejected e => Abrupt e
   end, (net w rq).2, [(rq, (net w rq).1)]).
Proof.
  unfold fetch; simpl. destruct (net w rq) as [[r|e] w1]; reflexivity.
Qed.

Lemma run_liftC {A} (c : Completion A) (w : W) :
  run net (liftC c) w = (c, w, []).
Proof. destruct c; reflexivity. Qed.

Lemma run_forOf_cons {S A} (body : S -> A -> Prog S) x xs st (w : W) :
  run net (forOf body (x :: xs) st) w =
  match run net (body st x) w with
  | (Normal st1, w1, l1) =>
      let '(c, w2, l2) := run net (forOf body xs st1) w1 in (c, w2, app l1 l2)
  | (Abrupt e, w1, l1) => (Abrupt e, w1, l1)
  end.
Proof. simpl forOf. apply run_bind. Qed.

End Running.

(** ** The summary under the executors' writes *)

Lemma pushOperations_operations mk files r :
  operations (details (pushOperations mk files r))
  = app (operations (details r)) (map mk files).
Proof.
  unfold pushOperations. revert r.
  induction files as [|f files IH]; intros r; simpl.
  - symmetry; apply app_nil_r.
  - rewrite IH. simpl. unfold push. rewrite <- app_assoc. reflexivity.
Qed.

Lemma sameHeader_refl r : sameHeader r r.
Proof. repeat split. Qed.

Lemma sameHeader_trans r1 r2 r3 :
  sameHeader r1 r2 -> sameHeader r2 r3 -> sameHeader r1 r3.
Proof. unfold sameHeader; intuition congruence. Qed.

Lemma sameHeader_pushOperation d r : sameHeader r (pushOperation d r).
Proof. repeat split. Qed.

Lemma sameHeader_pushOperations mk files r : sameHeader r (pushOperations mk files r).
Proof.
  unfold pushOperations. revert r.
  induction files as [|f files IH]; intros r; simpl.
  - apply sameHeader_refl.
  - eapply sameHeader_trans; [|apply IH]. apply sameHeader_pushOperation.
Qed.

Lemma pushOperations_counters mk files r :
  processed (pushOperations mk files r) = processed r /\
  succeeded (pushOperations mk files r) = succeeded r /\
  failed (pushOperations mk files r) = failed r.
Proof.
  unfold pushOperations. revert r.
  induction files as [|f files IH]; intros r; simpl; [repeat split|].
  destruct (IH (pushOperation (mk f) r)) as (-> & -> & ->). repeat split.
Qed.

(** Reads the fields of a summary that [pushOperations] built. *)
Ltac batch_summary :=
  split; [eapply sameHeader_trans; [|apply sameHeader_pushOperations]; repeat split|];
  match goal with |- context [pushOperations ?mk ?fs ?r] =>
    destruct (pushOperations_counters mk fs r) as (-> & -> & ->)
  end;
  rewrite pushOperations_operations; repeat split.

Section Executors.

Context {W : Type} (net : W -> Request -> FetchResult * W).
Context (instance : GiteaInstance) (params : Params).

(** *** The batch executor *)

Lemma executeBatchUpdate_run files result w :
  let rq := batchRequest instance params files in
  let reply := (net w rq).1 in
  exists result',
    run net (executeBatchUpdate instance params files result) w
    = (Normal result', (net w rq).2, [(rq, reply)]) /\
    sameHeader result result' /\
    processed result' = length files /\
    if accepted reply
    then succeeded result' = length files /\
         failed result' = failed result /\
         operations (details result')
         = app (operations (details result)) (map successDetail files)
    else failed result' = length files /\
         succeeded result' = succeeded result /\
         exists error,
           operations (details result')
           = app (operations (details result)) (map (failedDetail error) files).
Proof.
  intros rq reply. subst reply. unfold executeBatchUpdate.
  rewrite run_tryCatch, run_bind, run_fetch. fold rq.
  destruct ((net w rq).1) as [response|e]; simpl accepted.
  - destruct (ok response) eqn:Hok.
    + eexists; split; [reflexivity|]. batch_summary.
    + rewrite run_bind, run_liftC.
      destruct (text response) as [errorText|e]; simpl;
        (eexists; split; [reflexivity|]; batch_summary; eexists; reflexivity).
  - simpl. eexists; split; [reflexivity|].
    batch_summary; eexists; reflexivity.
Qed.

Lemma Forall2_map_r {A B} (P : A -> B -> Prop) (g : A -> B) (l : list A) :
  (forall x, P x (g x)) -> Forall2 P l (map g l).
Proof. intros H. induction l; constructor; auto. Qed.

(** The outcomes of the batch executor, field by field. *)
Lemma executeBatchUpdate_outcomes files result w :
  let rq := batchRequest instance params files in
  let reply := (net w rq).1 in
  exists result' outcomes,
    run net (executeBatchUpdate instance params files result) w
    = (Normal result', (net w rq).2, [(rq, reply)]) /\
    operations (details result') = app (operations (details result)) outcomes /\
    Forall2 (fun file d =>
               op_file d = path file /\ op_operation d = operation file /\
               op_status d = (if accepted reply then "success" else "failed") /\
               op_error d = (if accepted reply then None
                             else Some (batchFailureText reply)))
            files outcomes.
Proof.
  intros rq reply. subst reply. unfold executeBatchUpdate.
  rewrite run_tryCatch, run_bind, run_fetch. fold rq.
  destruct ((net w rq).1) as [response|e]; simpl accepted; cbn [batchFailureText].
  - destruct (ok response) eqn:Hok.
    + eexists _, _. split; [reflexivity|].
      split; [rewrite pushOperations_operations; reflexivity|].
      apply Forall2_map_r. intros f. repeat split.
    + rewrite run_bind, run_liftC.
      destruct (text response) as [errorText|e]; simpl;
        (eexists _, _; split; [reflexivity|];
         split; [rewrite pushOperations_operations; reflexivity|];
         apply Forall2_map_r; intros f; repeat split).
  - simpl. eexists _, _. split; [reflexivity|].
    split; [rewrite pushOperations_operations; reflexivity|].
    apply Forall2_map_r. intros f. repeat split.
Qed.

(** *** The individual executor *)

Lemma executeOne_run result file w :
  let rq := individualRequest instance params file in
  run net (executeOne instance params result file) w
  = (Normal (recordOutcome file (net w rq).1 result), (net w rq).2, [(rq, (net w rq).1)]).
Proof.
  intros rq. subst rq. unfold executeOne, individualRequest, recordOutcome.
  rewrite run_tryCatch.
  destruct (bool_decide (operation file = delete));
    [unfold executeDeleteOperation | unfold executeCreateOrUpdateOperation];
    rewrite run_bind, run_fetch;
    (destruct (net w _).1 as [response|e]; simpl accepted; simpl failureText;
     [destruct (ok response); [reflexivity|];
      rewrite run_bind, run_liftC; destruct (text response); reflexivity
     |reflexivity]).
Qed.

Lemma recordOutcome_fields file reply result :
  sameHeader result (recordOutcome file reply result) /\
  processed (recordOutcome file reply result) = S (processed result) /\
  operations (details (recordOutcome file reply result))
  = push (operations (details result)) (outcomeDetail file reply) /\
  failed (recordOutcome file reply result)
  = (failed result + if accepted reply then 0 else 1)%nat /\
  succeeded (recordOutcome file reply result)
  = (succeeded result + if accepted reply then 1 else 0)%nat.
Proof.
  unfold recordOutcome, outcomeDetail.
  destruct (accepted reply); simpl; repeat split; lia.
Qed.

Lemma executeIndividualUpdates_run files : forall result w,
  exists result' w' log,
    run net (executeIndividualUpdates instance params files result) w
    = (Normal result', w', log) /\
    log.*1 = map (individualRequest instance params) files /\
    sameHeader result result' /\
    operations (details result')
    = app (operations (details result)) (zip_with outcomeDetail files log.*2) /\
    processed result' = (processed result + length files)%nat /\
    failed result' = (failed result + rejections log.*2)%nat /\
    succeeded result' = (succeeded result + (length files - rejections log.*2))%nat /\
    (rejections log.*2 <= length files)%nat.
Proof.
  unfold executeIndividualUpdates.
  induction files as [|file files IH]; intros result w.
  - exists result, w, []. simpl. rewrite app_nil_r.
    repeat split; unfold rejections; simpl; lia.
  - rewrite run_forOf_cons, executeOne_run.
    set (rq := individualRequest instance params file).
    destruct (IH (recordOutcome file (net w rq).1 result) (net w rq).2)
      as (result' & w' & log & -> & Hrq & Hhead & Hops & Hproc & Hfail & Hsucc & Hle).
    destruct (recordOutcome_fields file (net w rq).1 result)
      as (Hhead1 & Hproc1 & Hops1 & Hfail1 & Hsucc1).
    exists result', w', ((rq, (net w rq).1) :: log).
    rewrite !fmap_cons. cbn [fst snd].
    split; [reflexivity|].
    split; [rewrite Hrq; reflexivity|].
    split; [eapply sameHeader_trans; eassumption|].
    split; [rewrite Hops, Hops1; unfold push; simpl; rewrite <- app_assoc; reflexivity|].
    rewrite Hproc, Hfail, Hsucc, Hproc1, Hfail1, Hsucc1.
    unfold rejections in *. rewrite filter_cons. cbn [length].
    destruct (accepted (net w rq).1) eqn:Hacc.
    + rewrite decide_False by congruence. repeat split; lia.
    + rewrite decide_True by reflexivity. cbn [length]. repeat split; lia.
Qed.

End Executors.

(** ** The dispatch on the strategy *)

Lemma outcomeDetail_key file reply : detailKey (outcomeDetail file reply) = fileKey file.
Proof. unfold outcomeDetail. destruct (accepted reply); reflexivity. Qed.

Lemma zip_with_outcomeDetail_keys files : forall replies,
  length replies = length files ->
  map detailKey (zip_with outcomeDetail files replies) = map fileKey files.
Proof.
  induction files as [|f files IH]; intros [|r replies] Hlen; simpl in *;
    try discriminate; [reflexivity|].
  rewrite outcomeDetail_key, IH by lia. reflexivity.
Qed.

Lemma individualRequest_isWrite instance params file :
  isWrite (individualRequest instance params file) = true.
Proof.
  unfold individualRequest, createOrUpdateRequest, deleteRequest.
  destruct (bool_decide (operation file = delete)); [reflexivity|].
  destruct (bool_decide (operation file = add)); reflexivity.
Qed.

Section Dispatch.

Context {W : Type} (net : W -> Request -> FetchResult * W).
Context (instance : GiteaInstance) (params : Params).

Lemma executeUpdates_run chosen plan result w :
  exists result' w' log,
    run net (executeUpdates instance params chosen plan result) w
    = (Normal result', w', log) /\
    sameHeader result result' /\
    map detailKey (operations (details result'))
    = app (map detailKey (operations (details result))) (map fileKey plan) /\
    (log.*1 = [batchRequest instance params plan] \/
     log.*1 = map (individualRequest instance params) plan) /\
    Forall (fun rq => isWrite rq = true) log.*1.
Proof.
  unfold executeUpdates.
  destruct (bool_decide (chosen = "batch") && bool_decide (1 < length plan)%nat).
  - destruct (executeBatchUpdate_run net instance params plan result w)
      as (result' & Hrun & Hhead & _ & Hcase).
    eexists _, _, _. split; [exact Hrun|].
    split; [exact Hhead|].
    split.
    + destruct (accepted _).
      * destruct Hcase as (_ & _ & ->).
        rewrite map_app, map_map. reflexivity.
      * destruct Hcase as (_ & _ & error & ->).
        rewrite map_app, map_map. reflexivity.
    + split; [left; reflexivity|].
      repeat constructor.
  - destruct (executeIndividualUpdates_run net instance params plan result w)
      as (result' & w' & log & Hrun & Hrq & Hhead & Hops & _).
    exists result', w', log. split; [exact Hrun|].
    split; [exact Hhead|].
    split.
    + rewrite Hops, map_app, zip_with_outcomeDetail_keys; [reflexivity|].
      rewrite length_fmap, <- (length_fmap fst log), Hrq, length_map. reflexivity.
    + split; [right; exact Hrq|].
      rewrite Hrq. clear.
      induction plan as [|file plan IH]; simpl; constructor;
        [apply individualRequest_isWrite|exact IH].
Qed.

Lemma executeUpdates_nil chosen result w :
  run net (executeUpdates instance params chosen [] result) w = (Normal result, w, []).
Proof.
  unfold executeUpdates. simpl length.
  rewrite (bool_decide_eq_false_2 (1 < 0)%nat) by lia.
  rewrite andb_false_r. reflexivity.
Qed.

(** What the dispatch issues and records, by the executor it selects. *)
Lemma executeUpdates_shape chosen plan result w :
  exists result' w' writes,
    run net (executeUpdates instance params chosen plan result) w
    = (Normal result', w', writes) /\
    sameHeader result result' /\
    Forall (fun rq => isWrite rq = true) writes.*1 /\
    if bool_decide (chosen = "batch") && bool_decide (1 < length plan)%nat
    then exists reply outcomes,
           writes = [(batchRequest instance params plan, reply)] /\
           operations (details result')
           = app (operations (details result)) outcomes /\
           Forall2 (fun file d =>
                      op_file d = path file /\ op_operation d = operation file /\
                      op_status d = (if accepted reply then "success" else "failed") /\
                      op_error d = (if accepted reply then None
                                    else Some (batchFailureText reply)))
                   plan outcomes
    else writes.*1 = map (individualRequest instance params) plan /\
         operations (details result')
         = app (operations (details result)) (zip_with outcomeDetail plan writes.*2).
Proof.
  unfold executeUpdates.
  destruct (bool_decide (chosen = "batch") && bool_decide (1 < length plan)%nat).
  - destruct (executeBatchUpdate_run net instance params plan result w)
      as (result' & Hrun & Hhead & _).
    destruct (executeBatchUpdate_outcomes net instance params plan result w)
      as (result2 & outcomes & Hrun2 & Hops & Hall).
    rewrite Hrun in Hrun2. injection Hrun2 as <-.
    eexists _, _, _. split; [exact Hrun|]. split; [exact Hhead|].
    split; [repeat constructor|].
    eexists _, outcomes. split; [reflexivity|]. split; [exact Hops|exact Hall].
  - destruct (executeIndividualUpdates_run net instance params plan result w)
      as (result' & w' & log & Hrun & Hrq & Hhead & Hops & _).
    exists result', w', log. split; [exact Hrun|]. split; [exact Hhead|].
    split; [|split; [exact Hrq|exact Hops]].
    rewrite Hrq. clear.
    induction plan as [|file plan IH]; simpl; constructor;
      [apply individualRequest_isWrite|exact IH].
Qed.

End Dispatch.

(** ** The detection loop *)

Section Detection.

Context {W : Type} (net : W -> Request -> FetchResult * W).
Context (instance : GiteaInstance) (params : Params).

Lemma detectFile_run plan remote file w :
  let rq := probeRequest instance params file in
  run net (detectFile instance params (plan, remote) file) w
  = (Normal (app plan (option_list (classify file (net w rq).1)),
             remember file (net w rq).1 remote),
     (net w rq).2, [(rq, (net w rq).1)]).
Proof.
  intros rq. subst rq. unfold detectFile, classify, remember.
  rewrite run_tryCatch, run_bind, run_fetch.
  destruct (net w _).1 as [response|e]; [|simpl; reflexivity].
  destruct (ok response).
  - rewrite run_bind, run_liftC.
    destruct (json response) as [remoteFile|e]; [|simpl; reflexivity].
    destruct file as [p c [] s]; simpl.
    + reflexivity.
    + destruct (bool_decide (c = Some (json_content remoteFile)));
        simpl; rewrite ?app_nil_r; reflexivity.
    + reflexivity.
  - destruct (bool_decide (status response = 404)); [|simpl; reflexivity].
    destruct file as [p c [] s]; simpl; rewrite ?app_nil_r; reflexivity.
Qed.

Lemma forOf_detectFile_run files : forall plan remote w,
  exists remote' w' log,
    run net (forOf (detectFile instance params) files (plan, remote)) w
    = (Normal (app plan (planFrom files log.*2), remote'), w', log) /\
    log.*1 = map (probeRequest instance params) files.
Proof.
  induction files as [|file files IH]; intros plan remote w.
  - exists remote, w, []. simpl. unfold planFrom. simpl. rewrite app_nil_r. auto.
  - rewrite run_forOf_cons, detectFile_run.
    set (rq := probeRequest instance params file).
    destruct (IH (app plan (option_list (classify file (net w rq).1)))
                 (remember file (net w rq).1 remote) (net w rq).2)
      as (remote' & w' & log & -> & Hrq).
    exists remote', w', ((rq, (net w rq).1) :: log).
    rewrite !fmap_cons. cbn [fst snd].
    split; [|rewrite Hrq; reflexivity].
    unfold planFrom. simpl. rewrite <- app_assoc. reflexivity.
Qed.

Lemma detectChangesNeeded_run files w :
  exists remote' w' log,
    run net (detectChangesNeeded instance params files) w
    = (Normal (planFrom files log.*2, remote'), w', log) /\
    log.*1 = map (probeRequest instance params) files.
Proof.
  unfold detectChangesNeeded.
  destruct (forOf_detectFile_run files [] ∅ w) as (remote' & w' & log & H & Hrq).
  exists remote', w', log. split; [exact H|exact Hrq].
Qed.

End Detection.

(** ** The handler, phase by phase *)

Section Handler.

Context {W : Type} (net : W -> Request -> FetchResult * W).

Lemma run_required {A} (x : option string) (msg : string) (f : string -> Prog A) w :
  run net (required x msg ≫= f) w =
  if falsy x then (Abrupt (Error msg), w, []) else run net (f (orDefault x "")) w.
Proof.
  rewrite run_bind. unfold required.
  destruct (falsy x); simpl; [reflexivity|].
  destruct (run net (f (orDefault x "")) w) as [[c w2] l2]; reflexivity.
Qed.

Lemma syncUpdate_run inf ip config args w :
  run net (syncUpdate inf ip config args) w =
  match preflight inf ip config args with
  | Abrupt e => (Abrupt e, w, [])
  | Normal (instance, params, normalizedFiles) =>
      match run net (planning instance params normalizedFiles) w with
      | (Normal detection, w1, log1) =>
          let plan := detection.1 in
          if dryRun params
          then (Normal (dryRunReport params normalizedFiles plan), w1, log1)
          else
            let chosen := determineStrategy (strategy params) plan in
            match run net (executeUpdates instance params chosen plan
                             (initialResult params normalizedFiles plan)) w1 with
            | (Normal result, w2, log2) =>
                (Normal (executionReport params chosen result), w2, app log1 log2)
            | (Abrupt e, w2, log2) => (Abrupt e, w2, app log1 log2)
            end
      | (Abrupt e, w1, log1) => (Abrupt e, w1, log1)
      end
  end.
Proof.
  unfold syncUpdate, preflight.
  rewrite run_required. destruct (falsy (arg_instanceId args)); [reflexivity|].
  rewrite run_required. destruct (falsy (arg_owner args)); [reflexivity|].
  rewrite run_required. destruct (falsy (arg_repository args)); [reflexivity|].
  rewrite run_required. destruct (falsy (arg_message args)); [reflexivity|].
  destruct (bool_decide (length (arg_files args) = 0%nat)); [reflexivity|].
  fold (paramsOf args). cbv zeta.
  destruct (List.find _ config) as [instance|]; [|reflexivity].
  rewrite run_bind, run_liftC.
  destruct (validateAndNormalizeFiles ip (files (paramsOf args)))
    as [normalizedFiles|e]; [|reflexivity].
  rewrite run_bind. fold (planning instance (paramsOf args) normalizedFiles).
  destruct (run net (planning instance (paramsOf args) normalizedFiles) w)
    as [[[detection|e] w1] log1]; [|reflexivity].
  cbv zeta.
  destruct (dryRun (paramsOf args)) eqn:Hdry.
  - simpl. rewrite app_nil_r. reflexivity.
  - rewrite run_bind.
    fold (initialResult (paramsOf args) normalizedFiles detection.1).
    destruct (run net (executeUpdates instance (paramsOf args) _ detection.1 _) w1)
      as [[[result|e] w2] log2]; simpl; rewrite ?app_nil_r; reflexivity.
Qed.

Lemma planning_run instance params normalizedFiles w :
  exists plan remote w1 log1,
    run net (planning instance params normalizedFiles) w
    = (Normal (plan, remote), w1, log1) /\
    Forall (fun rq => isWrite rq = false) log1.*1 /\
    if detectChanges params
    then log1.*1 = map (probeRequest instance params) normalizedFiles /\
         plan = planFrom normalizedFiles log1.*2
    else plan = normalizedFiles /\ log1 = [] /\ w1 = w.
Proof.
  unfold planning. destruct (detectChanges params).
  - destruct (detectChangesNeeded_run net instance params normalizedFiles w)
      as (remote & w1 & log1 & Hrun & Hrq).
    eexists _, _, _, _. split; [exact Hrun|].
    split; [|split; [exact Hrq|reflexivity]].
    rewrite Hrq. clear.
    induction normalizedFiles as [|f fs IH]; simpl; constructor;
      [reflexivity|exact IH].
  - eexists _, _, _, _. split; [reflexivity|]. simpl.
    split; [constructor|repeat split].
Qed.

Lemma syncUpdate_cases inf ip config args w :
  match preflight inf ip config args with
  | Abrupt e => run net (syncUpdate inf ip config args) w = (Abrupt e, w, [])
  | Normal (instance, params, normalizedFiles) =>
      exists plan remote w1 log1,
        run net (planning instance params normalizedFiles) w
        = (Normal (plan, remote), w1, log1) /\
        Forall (fun rq => isWrite rq = false) log1.*1 /\
        if dryRun params
        then run net (syncUpdate inf ip config args) w
             = (Normal (dryRunReport params normalizedFiles plan), w1, log1)
        else
          let chosen := determineStrategy (strategy params) plan in
          exists result w2 log2,
            run net (executeUpdates instance params chosen plan
                       (initialResult params normalizedFiles plan)) w1
            = (Normal result, w2, log2) /\
            run net (syncUpdate inf ip config args) w
            = (Normal (executionReport params chosen result), w2, app log1 log2) /\
            sameHeader (initialResult params normalizedFiles plan) result /\
            map detailKey (operations (details result)) = map fileKey plan /\
            (log2.*1 = [batchRequest instance params plan] \/
             log2.*1 = map (individualRequest instance params) plan) /\
            Forall (fun rq => isWrite rq = true) log2.*1
  end.
Proof.
  rewrite syncUpdate_run.
  destruct (preflight inf ip config args) as [[[instance params] normalizedFiles]|e];
    [|reflexivity].
  destruct (planning_run instance params normalizedFiles w)
    as (plan & remote & w1 & log1 & Hplan & Hreads & _).
  exists plan, remote, w1, log1. rewrite Hplan.
  split; [reflexivity|]. split; [exact Hreads|].
  cbn [fst]. destruct (dryRun params); [reflexivity|].
  cbv zeta.
  destruct (executeUpdates_run net instance params
              (determineStrategy (strategy params) plan) plan
              (initialResult params normalizedFiles plan) w1)
    as (result & w2 & log2 & Hrun & Hhead & Hkeys & Hshape & Hwrites).
  exists result, w2, log2. rewrite Hrun.
  split; [reflexivity|]. split; [reflexivity|].
  split; [exact Hhead|]. split; [exact Hkeys|].
  split; assumption.
Qed.

(** The phases of a call that passes the checks: the probes and the plan
    they determine, then the report of the dry run or the writes. *)
Lemma syncUpdate_phases inf ip config args instance params nf w :
  preflight inf ip config args = Normal (instance, params, nf) ->
  exists remote w1 probes,
    let plan := if detectChanges params then planFrom nf probes.*2 else nf in
    run net (planning instance params nf) w = (Normal (plan, remote), w1, probes) /\
    probes.*1 = (if detectChanges params
                 then map (probeRequest instance params) nf else []) /\
    Forall (fun rq => isWrite rq = false) probes.*1 /\
    if dryRun params
    then run net (syncUpdate inf ip config args) w
         = (Normal (dryRunReport params nf plan), w1, probes)
    else exists result w2 writes,
           run net (executeUpdates instance params
                      (determineStrategy (strategy params) plan) plan
                      (initialResult params nf plan)) w1
           = (Normal result, w2, writes) /\
           run net (syncUpdate inf ip config args) w
           = (Normal (executionReport params
                        (determineStrategy (strategy params) plan) result),
              w2, app probes writes).
Proof.
  intros Hpre. rewrite syncUpdate_run, Hpre.
  destruct (planning_run instance params nf w)
    as (plan & remote & w1 & probes & Hplan & Hreads & Hcase).
  exists remote, w1, probes. cbv zeta.
  assert (plan = (if detectChanges params then planFrom nf probes.*2 else nf)
          /\ probes.*1 = (if detectChanges params
                          then map (probeRequest instance params) nf else []))
    as [Hp Hrq].
  { destruct (detectChanges params).
    - destruct Hcase as [Hrq ->]. split; [reflexivity|exact Hrq].
    - destruct Hcase as (-> & -> & _). split; reflexivity. }
  rewrite <- Hp. rewrite Hplan. split; [reflexivity|]. split; [exact Hrq|].
  split; [exact Hreads|]. cbn [fst].
  destruct (dryRun params); [reflexivity|]. cbv zeta.
  destruct (executeUpdates_run net instance params
              (determineStrategy (strategy params) plan) plan
              (initialResult params nf plan) w1)
    as (result & w2 & writes & Hrun & _).
  exists result, w2, writes. rewrite Hrun. split; reflexivity.
Qed.

Lemma Tool_handler_run config args w :
  run net (Tool.handler config args) w =
  match run net (syncUpdate Error (AppError VALIDATION_ERROR) config args) w with
  | (Normal output, w1, log) => (Normal output, w1, log)
  | (Abrupt e, w1, log) => (Abrupt (surfaced e), w1, log)
  end.
Proof.
  unfold Tool.handler. rewrite run_tryCatch.
  destruct (run net (syncUpdate _ _ config args) w) as [[[output|e] w1] log];
    [reflexivity|].
  destruct e; simpl; rewrite app_nil_r; reflexivity.
Qed.

Lemma Server_handleSyncUpdate_run config args w :
  run net (Server.handleSyncUpdate config args) w =
  match run net (syncUpdate (McpError InvalidParams) Error config args) w with
  | (Normal output, w1, log) => (Normal (Server.Content output), w1, log)
  | (Abrupt e, w1, log) =>
      (Normal (Server.IsError ("Error sync updating files: " +:+ messageOf e)), w1, log)
  end.
Proof.
  unfold Server.handleSyncUpdate. rewrite run_tryCatch, run_bind.
  destruct (run net (syncUpdate _ _ config args) w) as [[[output|e] w1] log];
    simpl; rewrite app_nil_r; reflexivity.
Qed.

(** Every summary the engine returns keeps the header it was initialised
    with: the executors assign counters and push outcomes, nothing else. *)
Lemma syncUpdate_summary_header inf ip config args w :
  match completion (run net (syncUpdate inf ip config args) w) with
  | Normal output =>
      skipped (summaryOf output) = 0%nat /\
      conflicts (details (summaryOf output)) = [] /\
      unchanged (details (summaryOf output)) = []
  | Abrupt _ => True
  end.
Proof.
  pose proof (syncUpdate_cases inf ip config args w) as H.
  destruct (preflight inf ip config args) as [[[instance params] normalizedFiles]|e];
    [|rewrite H; exact I].
  destruct H as (plan & remote & w1 & log1 & _ & _ & H).
  destruct (dryRun params).
  - rewrite H. repeat split.
  - destruct H as (result & w2 & log2 & _ & -> & Hhead & _).
    destruct Hhead as (_ & _ & _ & Hs & Hc & Hu).
    unfold completion; simpl. rewrite Hs, Hc, Hu. repeat split.
Qed.

End Handler.

(** ** The claims of the specification *)

(** *** Strategy selection *)

(** C5: with the strategy [auto], a plan of exactly one operation selects
    [individual], a plan that holds a delete selects [individual], and every
    other plan selects [batch]; a requested [batch] or [individual] is returned
    as the chosen strategy.  A call that is executed reports the strategy so
    chosen for its plan, the plan being what the probes determine (the
    normalised files, when detection is off).  When the chosen strategy is
    [batch] and the plan has more than one operation, it issues, after the
    probes, one combined commit of the plan; otherwise, and so for [batch]
    with a plan of zero or one operation, it issues one single-file request
    per planned operation and no combined commit, and records the outcome of
    each from the reply to its own request. *)
Theorem C5_strategy_selection :
  (forall f, determineStrategy "auto" [f] = "individual") /\
  (forall plan f, f ∈ plan -> operation f = delete ->
     determineStrategy "auto" plan = "individual") /\
  (forall plan, length plan <> 1%nat ->
     Forall (fun f => operation f <> delete) plan ->
     determineStrategy "auto" plan = "batch") /\
  (forall plan, determineStrategy "batch" plan = "batch" /\
                determineStrategy "individual" plan = "individual") /\
  (forall (W : Type) (net : W -> Request -> FetchResult * W)
          config args instance params nf w,
     preflight Error (AppError VALIDATION_ERROR) config args
     = Normal (instance, params, nf) ->
     dryRun params = false ->
     let r := run net (Tool.handler config args) w in
     exists success summary report probes writes,
       requestLog r = app probes writes /\
       probes.*1 = (if detectChanges params
                    then map (probeRequest instance params) nf else []) /\
       let plan := if detectChanges params then planFrom nf probes.*2 else nf in
       let chosen := determineStrategy (strategy params) plan in
       completion r = Normal (ExecutionReport success chosen summary report) /\
       needsUpdate summary = length plan /\
       if bool_decide (chosen = "batch") && bool_decide (1 < length plan)%nat
       then writes.*1 = [batchRequest instance params plan]
       else writes.*1 = map (individualRequest instance params) plan /\
            Forall (fun rq => rq_path rq <> None /\
                              forall ops m b, rq_body rq <> BatchBody ops m b)
                   writes.*1 /\
            operations (details summary) = zip_with outcomeDetail plan writes.*2).
Proof.
  split; [reflexivity|].
  split.
  { intros plan f Hin Hdel. unfold determineStrategy. simpl negb.
    destruct (bool_decide (length plan = 1%nat)); [reflexivity|].
    cbv zeta.
    replace (existsb (fun f => bool_decide (operation f = delete)) plan) with true;
      [reflexivity|].
    symmetry. apply existsb_exists. exists f.
    split; [apply list_elem_of_In; exact Hin|apply bool_decide_eq_true_2; exact Hdel]. }
  split.
  { intros plan Hlen Hnone. unfold determineStrategy. simpl negb.
    rewrite bool_decide_eq_false_2 by exact Hlen. cbv zeta.
    replace (existsb (fun f => bool_decide (operation f = delete)) plan) with false;
      [reflexivity|].
    symmetry. clear Hlen. induction Hnone as [|f plan Hf _ IH]; [reflexivity|].
    simpl. rewrite IH, bool_decide_eq_false_2 by exact Hf. reflexivity. }
  split; [intros plan; split; reflexivity|].
  intros W net config args instance params nf w Hpre Hwet r. subst r.
  rewrite Tool_handler_run.
  destruct (syncUpdate_phases net _ _ _ _ _ _ _ w Hpre)
    as (remote & w1 & probes & _ & Hrq & _ & Hrun).
  cbv zeta in Hrun. rewrite Hwet in Hrun.
  destruct Hrun as (result & w2 & writes & Hexec & ->).
  set (plan := if detectChanges params then planFrom nf probes.*2 else nf) in *.
  set (chosen := determineStrategy (strategy params) plan) in *.
  destruct (executeUpdates_shape net instance params chosen plan
              (initialResult params nf plan) w1)
    as (result' & w2' & writes' & Hexec' & Hhead & _ & Hshape).
  rewrite Hexec in Hexec'. injection Hexec' as <- <- <-.
  unfold completion, requestLog. cbn [fst snd]. unfold executionReport.
  eexists _, result, _, probes, writes.
  split; [reflexivity|]. split; [exact Hrq|].
  cbv zeta. fold plan. fold chosen.
  split; [reflexivity|].
  split; [destruct Hhead as (_ & _ & -> & _); reflexivity|].
  destruct (bool_decide (chosen = "batch") && bool_decide (1 < length plan)%nat).
  - destruct Hshape as (reply & outcomes & -> & _). reflexivity.
  - destruct Hshape as [Hwrites Hops]. split; [exact Hwrites|].
    split; [|exact Hops].
    rewrite Hwrites. apply Forall_forall. intros rq Hin.
    apply list_elem_of_fmap in Hin. destruct Hin as (file & -> & _).
    unfold individualRequest, createOrUpdateRequest, deleteRequest.
    destruct (bool_decide (operation file = delete));
      [|destruct (bool_decide (operation file = add))];
      (split; [discriminate|intros ops m b; discriminate]).
Qed.

Lemma C5_strategy_selection_witness :
  determineStrategy "auto"
    [fileOp "a.txt" (Some "X") add; fileOp "b.txt" None delete] = "individual" /\
  determineStrategy "auto"
    [fileOp "a.txt" (Some "X") add; fileOp "b.txt" (Some "Y") modify] = "batch" /\
  determineStrategy "auto" [] = "batch" /\
  let args := sampleArgs [rawFile "a.txt" (Some "X") "add"] (Some "batch") None in
  let r := run Gitea.serve (Tool.handler sampleConfig args) ∅ in
  exists success summary report,
    completion r = Normal (ExecutionReport success "batch" summary report) /\
    (requestLog r).*1
    = [probeRequest sampleInstance (paramsOf args) (fileOp "a.txt" (Some "X") add);
       individualRequest sampleInstance (paramsOf args)
         (fileOp "a.txt" (Some "X") add)].
Proof.
  destruct C5_strategy_selection as (_ & Hdel & Hbatch & _ & Hdown).
  split.
  { apply (Hdel _ (fileOp "b.txt" None delete)); [|reflexivity].
    apply list_elem_of_In. simpl. auto. }
  split.
  { apply Hbatch; [simpl; lia|]. repeat constructor; discriminate. }
  split.
  { apply Hbatch; [simpl; lia|]. constructor. }
  intros args r.
  destruct (Hdown Gitea.Store Gitea.serve sampleConfig args sampleInstance
              (paramsOf args) [fileOp "a.txt" (Some "X") add] ∅
              eq_refl eq_refl)
    as (success & summary & report & probes & writes & _ & _ & Hc & _).
  exists success, summary, report. split; [exact Hc|]. vm_compute. reflexivity.
Defined.

(** *** The executors *)

Section ExecutorClaims.

Context {W : Type} (net : W -> Request -> FetchResult * W).
Context (instance : GiteaInstance) (params : Params).


(** C8: the individual executor returns for every plan and every network
    (no error leaves it); it issues one request per operation, in plan order,
    whatever the earlier replies were; the outcome recorded for an operation
    depends on the reply to its own request only: failed, with the error text
    of that reply, when the reply is a response that is not ok or a rejected
    fetch, and success otherwise. *)
Theorem C8_individual_failures_are_isolated files result w :
  let r := run net (executeIndividualUpdates instance params files result) w in
  (requestLog r).*1 = map (individualRequest instance params) files /\
  (forall file reply,
     op_file (outcomeDetail file reply) = path file /\
     op_status (outcomeDetail file reply)
     = (if accepted reply then "success" else "failed") /\
     op_error (outcomeDetail file reply)
     = (if accepted reply then None else Some (failureText reply))) /\
  exists result',
    completion r = Normal result' /\
    operations (details result')
    = app (operations (details result))
          (zip_with outcomeDetail files (requestLog r).*2) /\
    processed result' = (processed result + length files)%nat /\
    failed result' = (failed result + rejections (requestLog r).*2)%nat.
Proof.
  intros r. subst r.
  destruct (executeIndividualUpdates_run net instance params files result w)
    as (result' & w' & log & -> & Hrq & _ & Hops & Hproc & Hfail & _).
  split; [exact Hrq|].
  split.
  { intros file reply. unfold outcomeDetail.
    destruct (accepted reply); repeat split. }
  exists result'. repeat split; assumption.
Qed.

(** *** The summary *)

(** C10: every summary returned by [sync_update], by the tool module or by
    the server class, for a dry run or an execution, has [skipped] equal to
    0 and an empty [conflicts] list. *)
Theorem C10_skipped_and_conflicts_are_never_populated config args w :
  match completion (run net (Tool.handler config args) w) with
  | Normal output =>
      skipped (summaryOf output) = 0%nat /\
      conflicts (details (summaryOf output)) = []
  | Abrupt _ => True
  end /\
  match completion (run net (Server.handleSyncUpdate config args) w) with
  | Normal (Server.Content output) =>
      skipped (summaryOf output) = 0%nat /\
      conflicts (details (summaryOf output)) = []
  | _ => True
  end.
Proof.
  split.
  - rewrite Tool_handler_run.
    pose proof (syncUpdate_summary_header net Error (AppError VALIDATION_ERROR)
                  config args w) as H.
    destruct (run net (syncUpdate _ _ config args) w) as [[[output|e] w1] log];
      [|exact I].
    destruct H as (Hs & Hc & _). split; assumption.
  - rewrite Server_handleSyncUpdate_run.
    pose proof (syncUpdate_summary_header net (McpError InvalidParams) Error
                  config args w) as H.
    destruct (run net (syncUpdate _ _ config args) w) as [[[output|e] w1] log];
      [|exact I].
    destruct H as (Hs & Hc & _). split; assumption.
Qed.

End ExecutorClaims.

(** *** Change detection *)

Lemma notFound_not_ok response : status response = 404 -> ok response = false.
Proof. intros H. unfold ok. rewrite H. reflexivity. Qed.

Lemma classify_delete_notFound file reply :
  operation file = delete -> isNotFound reply = true -> classify file reply = None.
Proof.
  intros Hop Hnf. destruct reply as [response|e]; [|discriminate].
  apply bool_decide_eq_true_1 in Hnf. unfold classify.
  rewrite (notFound_not_ok _ Hnf), (bool_decide_eq_true_2 _ Hnf), Hop. reflexivity.
Qed.

Lemma planFrom_deletes_notFound files : forall replies,
  Forall (fun f => operation f = delete) files ->
  Forall (fun reply => isNotFound reply = true) replies ->
  planFrom files replies = [].
Proof.
  unfold planFrom.
  induction files as [|f files IH]; intros [|reply replies] Hdel Hnf;
    try reflexivity.
  inversion Hdel; inversion Hnf; subst. simpl.
  rewrite classify_delete_notFound by assumption. simpl. apply IH; assumption.
Qed.

Lemma classify_modify_notFound file response :
  operation file = modify -> status response = 404 ->
  classify file (Resolved response)
  = Some {| path := path file; content := content file;
            operation := add; sha := None |}.
Proof.
  intros Hop Hstatus. unfold classify.
  rewrite (notFound_not_ok _ Hstatus), (bool_decide_eq_true_2 _ Hstatus), Hop.
  reflexivity.
Qed.

(** The plan around one file: what the files before it contribute, what
    it contributes, what the files after it contribute. *)
Lemma planFrom_split before file after : forall replies reply,
  replies !! length before = Some reply ->
  planFrom (app before (file :: after)) replies
  = app (planFrom before (take (length before) replies))
        (app (option_list (classify file reply))
             (planFrom after (drop (S (length before)) replies))).
Proof.
  unfold planFrom.
  induction before as [|f before IH]; intros [|r replies] reply Hat;
    try discriminate.
  - injection Hat as ->. reflexivity.
  - simpl. rewrite (IH replies reply Hat), <- app_assoc. reflexivity.
Qed.

Section DetectionClaims.

Context {W : Type} (net : W -> Request -> FetchResult * W).

(** C6: in a call with change detection, a modify operation whose probe is
    answered 404 is in the plan, at its place, as an [add] of the same
    path and content with no version token.  A dry run reports it so; an
    execution with individual commits issues for it, at its place among
    the writes, a POST whose body carries no [sha], and records its outcome
    as an [add]; an execution with a combined commit lists it in the
    payload as [create] with no [sha]. *)
Theorem C6_modify_of_absent_path_becomes_add
  config args instance params before file after w :
  preflight Error (AppError VALIDATION_ERROR) config args
  = Normal (instance, params, app before (file :: after)) ->
  detectChanges params = true ->
  operation file = modify ->
  let r := run net (Tool.handler config args) w in
  let planned := {| path := path file; content := content file;
                    operation := add; sha := None |} in
  exists output probes writes,
    completion r = Normal output /\
    requestLog r = app probes writes /\
    probes.*1 = map (probeRequest instance params) (app before (file :: after)) /\
    forall response,
      probes.*2 !! length before = Some (Resolved response) ->
      status response = 404 ->
      let planB := planFrom before (take (length before) probes.*2) in
      let planA := planFrom after (drop (S (length before)) probes.*2) in
      let plan := app planB (planned :: planA) in
      needsUpdate (summaryOf output) = length plan /\
      chosenStrategy output = determineStrategy (strategy params) plan /\
      match output with
      | DryRunReport _ _ reported =>
          dryRun params = true /\ writes = [] /\
          reported !! length planB
          = Some {| pf_path := path file; pf_operation := add;
                    hasRemoteSha := false |}
      | ExecutionReport _ chosen summary _ =>
          dryRun params = false /\
          if bool_decide (chosen = "batch") && bool_decide (1 < length plan)%nat
          then writes.*1
               = [{| rq_method := POST;
                     rq_baseUrl := baseUrl instance;
                     rq_owner := owner params;
                     rq_repository := repository params;
                     rq_path := None;
                     rq_ref := None;
                     rq_token := token instance;
                     rq_body :=
                       BatchBody
                         (app (map batchFileOp planB)
                              ({| bf_path := path file;
                                  bf_operation := "create";
                                  bf_content :=
                                    Some (base64 (utf8 (orDefault (content file) "")));
                                  bf_sha := None |}
                               :: map batchFileOp planA))
                         (message params) (branch params) |}]
          else length writes = length plan /\
               exists reply d,
                 writes !! length planB
                 = Some (fileRequest instance params POST file
                           (FileBody
                              (Some (base64 (utf8 (orDefault (content file) ""))))
                              (message params) (branch params) None),
                         reply) /\
                 operations (details summary) !! length planB = Some d /\
                 op_file d = path file /\ op_operation d = add /\
                 op_status d = (if accepted reply then "success" else "failed")
      end.
Proof.
  intros Hpre Hdet Hop r planned. subst r.
  rewrite Tool_handler_run.
  destruct (syncUpdate_phases net _ _ _ _ _ _ _ w Hpre)
    as (remote & w1 & probes & _ & Hrq & _ & Hrun).
  cbv zeta in Hrun. rewrite Hdet in Hrq, Hrun.
  set (nf := app before (file :: after)) in *.
  assert (forall response,
            probes.*2 !! length before = Some (Resolved response) ->
            status response = 404 ->
            planFrom nf probes.*2
            = app (planFrom before (take (length before) probes.*2))
                  (planned :: planFrom after (drop (S (length before)) probes.*2)))
    as Hsplit.
  { intros response Hat Hstatus. unfold nf.
    rewrite (planFrom_split before file after _ _ Hat),
      (classify_modify_notFound _ _ Hop Hstatus).
    reflexivity. }
  destruct (dryRun params) eqn:Hdry.
  - rewrite Hrun. unfold completion, requestLog; cbn [fst snd].
    exists (dryRunReport params nf (planFrom nf probes.*2)), probes, [].
    split; [reflexivity|]. split; [rewrite app_nil_r; reflexivity|].
    split; [exact Hrq|].
    intros response Hat Hstatus. cbv zeta.
    rewrite (Hsplit response Hat Hstatus).
    set (planB := planFrom before (take (length before) probes.*2)).
    set (planA := planFrom after (drop (S (length before)) probes.*2)).
    set (plan := app planB (planned :: planA)).
    unfold dryRunReport. cbn [summaryOf chosenStrategy].
    split; [reflexivity|]. split; [reflexivity|].
    split; [reflexivity|]. split; [reflexivity|].
    unfold plan. rewrite map_app, lookup_app_r by (rewrite length_map; lia).
    rewrite length_map, Nat.sub_diag. reflexivity.
  - destruct Hrun as (result & w2 & writes & Hexec & ->).
    unfold completion, requestLog; cbn [fst snd].
    eexists _, probes, writes.
    split; [reflexivity|]. split; [reflexivity|]. split; [exact Hrq|].
    intros response Hat Hstatus. cbv zeta.
    rewrite (Hsplit response Hat Hstatus) in Hexec |- *.
    set (planB := planFrom before (take (length before) probes.*2)) in *.
    set (planA := planFrom after (drop (S (length before)) probes.*2)) in *.
    set (plan := app planB (planned :: planA)) in *.
    destruct (executeUpdates_shape net instance params
                (determineStrategy (strategy params) plan) plan
                (initialResult params nf plan) w1)
      as (result' & w2' & writes' & Hexec' & Hhead & _ & Hshape).
    rewrite Hexec in Hexec'. injection Hexec' as <- <- <-.
    unfold executionReport. cbn [summaryOf chosenStrategy].
    split; [destruct Hhead as (_ & _ & -> & _); reflexivity|].
    split; [reflexivity|]. split; [reflexivity|].
    destruct (bool_decide (determineStrategy (strategy params) plan = "batch")
              && bool_decide (1 < length plan)%nat).
    + destruct Hshape as (reply & outcomes & -> & _).
      unfold batchRequest, plan. rewrite map_app. reflexivity.
    + destruct Hshape as [Hwrites Hops].
      assert (length writes = length plan) as Hlen.
      { rewrite <- (length_fmap fst writes), Hwrites, length_map. reflexivity. }
      split; [exact Hlen|].
      assert (length planB < length writes)%nat as Hlt.
      { rewrite Hlen. unfold plan. rewrite length_app. simpl. lia. }
      destruct (lookup_lt_is_Some_2 writes (length planB) Hlt) as [[rq reply] Hw].
      assert (rq = individualRequest instance params planned) as ->.
      { assert (writes.*1 !! length planB = Some rq) as H1
          by (rewrite list_lookup_fmap, Hw; reflexivity).
        rewrite Hwrites in H1. unfold plan in H1.
        rewrite map_app, lookup_app_r in H1 by (rewrite length_map; lia).
        rewrite length_map, Nat.sub_diag in H1. injection H1 as <-. reflexivity. }
      exists reply, (outcomeDetail planned reply).
      split; [exact Hw|].
      split.
      { rewrite Hops. cbn [initialResult details operations app].
        rewrite lookup_zip_with.
        assert (plan !! length planB = Some planned) as ->.
        { unfold plan. rewrite lookup_app_r by lia.
          rewrite Nat.sub_diag. reflexivity. }
        rewrite list_lookup_fmap, Hw. reflexivity. }
      unfold outcomeDetail. destruct (accepted reply); repeat split; reflexivity.
Qed.

(** C7: when the probe of a delete operation is answered 404, the detection
    loop leaves the plan as it is; and a call whose operations are all
    deletes, every probe of which is answered 404, returns a summary with
    [needsUpdate], [succeeded] and [failed] equal to 0 and no outcome,
    issues no write, and, unless it is a dry run, reports success. *)
Theorem C7_delete_of_absent_path_is_dropped :
  (forall instance params plan remote file w,
     operation file = delete ->
     isNotFound (net w (probeRequest instance params file)).1 = true ->
     completion (run net (detectFile instance params (plan, remote) file) w)
     = Normal (plan, remote)) /\
  (forall config args instance params normalizedFiles w,
     preflight Error (AppError VALIDATION_ERROR) config args
     = Normal (instance, params, normalizedFiles) ->
     detectChanges params = true ->
     Forall (fun f => operation f = delete) normalizedFiles ->
     Forall (fun reply => isNotFound reply = true)
       (requestLog (run net (detectChangesNeeded instance params normalizedFiles) w)).*2 ->
     let r := run net (Tool.handler config args) w in
     exists output,
       completion r = Normal output /\
       needsUpdate (summaryOf output) = 0%nat /\
       succeeded (summaryOf output) = 0%nat /\
       failed (summaryOf output) = 0%nat /\
       operations (details (summaryOf output)) = [] /\
       Forall (fun rq => isWrite rq = false) (requestLog r).*1 /\
       (dryRun params = false ->
        exists chosen report,
          output = ExecutionReport true chosen (summaryOf output) report)).
Proof.
  split.
  - intros instance params plan remote file w Hop Hnf.
    rewrite detectFile_run. unfold completion; cbn [fst].
    rewrite classify_delete_notFound by assumption.
    destruct (net w (probeRequest instance params file)).1 as [response|e];
      [|discriminate].
    apply bool_decide_eq_true_1 in Hnf. unfold remember.
    rewrite (notFound_not_ok _ Hnf). simpl. rewrite app_nil_r. reflexivity.
  - intros config args instance params normalizedFiles w Hpre Hdet Hdel Hnf r.
    subst r. rewrite Tool_handler_run, syncUpdate_run, Hpre.
    unfold planning. rewrite Hdet.
    destruct (detectChangesNeeded_run net instance params normalizedFiles w)
      as (remote & w1 & log1 & Hrun & Hrq).
    rewrite Hrun in Hnf |- *. unfold requestLog in Hnf; cbn [snd] in Hnf.
    rewrite (planFrom_deletes_notFound _ _ Hdel Hnf). cbn [fst].
    assert (Forall (fun rq => isWrite rq = false) log1.*1) as Hreads.
    { rewrite Hrq. clear. induction normalizedFiles; simpl; constructor; auto. }
    destruct (dryRun params) eqn:Hdry.
    + eexists. split; [reflexivity|]. repeat split; try exact Hreads.
      discriminate.
    + rewrite executeUpdates_nil.
      eexists. split; [reflexivity|]. unfold requestLog; cbn [snd].
      rewrite app_nil_r. repeat split; try exact Hreads.
      intros _. eexists _, _. reflexivity.
Qed.

End DetectionClaims.

Lemma C6_modify_of_absent_path_becomes_add_witness :
  let args := sampleArgs [rawFile "a.txt" (Some "X") "modify"] None None in
  let r := run Gitea.serve (Tool.handler sampleConfig args) ∅ in
  exists success chosen summary report,
    completion r = Normal (ExecutionReport success chosen summary report) /\
    needsUpdate summary = 1%nat /\
    (requestLog r).*1
    = [probeRequest sampleInstance (paramsOf args)
         (fileOp "a.txt" (Some "X") modify);
       fileRequest sampleInstance (paramsOf args) POST
         (fileOp "a.txt" (Some "X") modify)
         (FileBody (Some (base64 "X")) "sync" "main" None)] /\
    map (fun d => (op_file d, op_operation d, op_status d))
        (operations (details summary))
    = [("a.txt", add, "success")].
Proof.
  intros args r.
  destruct (C6_modify_of_absent_path_becomes_add Gitea.serve sampleConfig args
              sampleInstance (paramsOf args) []
              (fileOp "a.txt" (Some "X") modify) [] ∅
              eq_refl eq_refl eq_refl)
    as (output & probes & writes & Hc & Hlog & Hrq & Hat).
  fold r in Hc, Hlog.
  assert (probes = [(probeRequest sampleInstance (paramsOf args)
                       (fileOp "a.txt" (Some "X") modify), Gitea.notFound)])
    as ->.
  { destruct probes as [|[rq1 reply1] [|? ?]]; try discriminate Hrq.
    revert Hlog. vm_compute. intros [= <- <- <-]. reflexivity. }
  destruct (Hat _ eq_refl eq_refl) as (Hn & _ & Hout).
  destruct output as [? ? ?|success chosen summary report];
    [destruct Hout as [Hdry _]; discriminate Hdry|].
  exists success, chosen, summary, report.
  split; [exact Hc|]. split; [exact Hn|].
  revert Hc. vm_compute. intros [= <- <- <- <-]. split; reflexivity.
Defined.

Lemma C7_delete_of_absent_path_is_dropped_witness :
  exists output,
    completion (run Gitea.serve
                  (Tool.handler sampleConfig
                     (sampleArgs [rawFile "b.txt" None "delete"] None None)) ∅)
    = Normal output /\
    needsUpdate (summaryOf output) = 0%nat /\
    succeeded (summaryOf output) = 0%nat /\
    failed (summaryOf output) = 0%nat.
Proof.
  destruct (proj2 (C7_delete_of_absent_path_is_dropped Gitea.serve)
              sampleConfig (sampleArgs [rawFile "b.txt" None "delete"] None None)
              sampleInstance
              (paramsOf (sampleArgs [rawFile "b.txt" None "delete"] None None))
              [fileOp "b.txt" None delete] ∅)
    as (output & Hrun & Hn & Hs & Hf & _).
  - reflexivity.
  - reflexivity.
  - repeat constructor.
  - vm_compute. repeat constructor.
  - exists output. repeat split; assumption.
Defined.

(** *** Dry runs *)

Lemma preflight_params inf ip config args instance params normalizedFiles :
  preflight inf ip config args = Normal (instance, params, normalizedFiles) ->
  params = paramsOf args.
Proof.
  unfold preflight.
  repeat match goal with |- context [if ?c then _ else _] => destruct c end;
    try discriminate.
  cbv zeta. destruct (List.find _ config); [|discriminate].
  destruct (validateAndNormalizeFiles ip _); [|discriminate].
  intros [= _ <- _]. reflexivity.
Qed.

Lemma preflight_withDryRun inf ip config args b :
  preflight inf ip config (withDryRun b args) =
  match preflight inf ip config args with
  | Normal (instance, _, normalizedFiles) =>
      Normal (instance, paramsOf (withDryRun b args), normalizedFiles)
  | Abrupt e => Abrupt e
  end.
Proof.
  unfold preflight. cbn [withDryRun arg_instanceId arg_owner arg_repository
                          arg_message arg_files].
  repeat match goal with |- context [if ?c then _ else _] => destruct c end;
    try reflexivity.
  cbv zeta.
  change (instanceId (paramsOf (withDryRun b args))) with (instanceId (paramsOf args)).
  change (files (paramsOf (withDryRun b args))) with (files (paramsOf args)).
  destruct (List.find _ config); [|reflexivity].
  destruct (validateAndNormalizeFiles ip _); reflexivity.
Qed.

Section DryRunClaims.

Context {W : Type} (net : W -> Request -> FetchResult * W).

(** C9: a dry run issues no write request.  A call that fails the checks
    fails in the same way with and without [dryRun], with no request.
    Otherwise the dry run issues the probes and reports the plan they
    determine (the normalised files, when detection is off): one planned
    entry per operation of the plan, in order, with its path, its operation
    and whether it carries a version token, and one outcome per operation
    with the status [would-execute]; and the same call without [dryRun],
    against the same network in the same state, chooses the same strategy,
    issues the same probes followed by the write requests of exactly that
    plan (one combined commit of the plan, or one request per planned
    operation in order), and records one outcome per planned operation, in
    order. *)
Theorem C9_dry_run_reports_the_plan_and_writes_nothing config args w :
  let dry := run net (Tool.handler config (withDryRun true args)) w in
  let wet := run net (Tool.handler config (withDryRun false args)) w in
  Forall (fun rq => isWrite rq = false) (requestLog dry).*1 /\
  match preflight Error (AppError VALIDATION_ERROR) config args with
  | Normal (instance, _, normalizedFiles) =>
      let params := paramsOf (withDryRun false args) in
      let plan := if detectChanges params
                  then planFrom normalizedFiles (requestLog dry).*2
                  else normalizedFiles in
      let chosen := determineStrategy (strategy params) plan in
      (requestLog dry).*1
      = (if detectChanges params
         then map (probeRequest instance params) normalizedFiles else []) /\
      exists summary planned success summary' report writes,
        completion dry = Normal (DryRunReport chosen summary planned) /\
        Forall2 (fun e f => pf_path e = path f /\ pf_operation e = operation f /\
                            hasRemoteSha e = negb (falsy (sha f)))
                planned plan /\
        Forall2 (fun d f => op_file d = path f /\ op_operation d = operation f /\
                            op_status d = "would-execute" /\ op_error d = None)
                (operations (details summary)) plan /\
        needsUpdate summary = length plan /\
        completion wet = Normal (ExecutionReport success chosen summary' report) /\
        needsUpdate summary' = length plan /\
        map detailKey (rd_operations report) = map fileKey plan /\
        requestLog wet = app (requestLog dry) writes /\
        Forall (fun rq => isWrite rq = true) writes.*1 /\
        writes.*1
        = (if bool_decide (chosen = "batch") && bool_decide (1 < length plan)%nat
           then [batchRequest instance params plan]
           else map (individualRequest instance params) plan)
  | Abrupt _ =>
      wet = dry /\ requestLog dry = [] /\ exists e, completion dry = Abrupt e
  end.
Proof.
  intros dry wet. subst dry wet.
  rewrite !Tool_handler_run.
  pose proof (syncUpdate_cases net Error (AppError VALIDATION_ERROR) config
                (withDryRun true args) w) as Hfail.
  pose proof (syncUpdate_cases net Error (AppError VALIDATION_ERROR) config
                (withDryRun false args) w) as Hfail'.
  pose proof (fun instance params nf =>
                syncUpdate_phases net Error (AppError VALIDATION_ERROR) config
                  (withDryRun true args) instance params nf w) as Hdry.
  pose proof (fun instance params nf =>
                syncUpdate_phases net Error (AppError VALIDATION_ERROR) config
                  (withDryRun false args) instance params nf w) as Hwet.
  rewrite preflight_withDryRun in Hfail, Hfail', Hdry, Hwet.
  destruct (preflight Error (AppError VALIDATION_ERROR) config args)
    as [[[instance params0] normalizedFiles]|e].
  - clear Hfail Hfail'.
    destruct (Hdry _ _ _ eq_refl) as (remote & w1 & probes & Hplan & Hrq & Hreads & Hd).
    destruct (Hwet _ _ _ eq_refl) as (remote' & w1' & probes' & Hplan' & _ & _ & Hw).
    clear Hdry Hwet. cbv zeta in Hplan, Hplan', Hd, Hw.
    set (params := paramsOf (withDryRun false args)) in *.
    change (paramsOf (withDryRun true args)) with
      {| instanceId := instanceId params; owner := owner params;
         repository := repository params; files := files params;
         message := message params; branch := branch params;
         strategy := strategy params;
         conflictResolution := conflictResolution params;
         detectChanges := detectChanges params; dryRun := true |}
      in Hplan, Hrq, Hd.
    cbn [detectChanges dryRun strategy] in Hplan, Hrq, Hd.
    change (planning instance _ normalizedFiles)
      with (planning instance params normalizedFiles) in Hplan.
    rewrite Hplan in Hplan'.
    assert (w1' = w1 /\ probes' = probes) as [-> ->]
      by (injection Hplan' as _ _ <- <-; split; reflexivity).
    clear Hplan'.
    change (dryRun params) with false in Hw. cbv iota in Hw.
    destruct Hw as (result & w2 & writes & Hexec & Hw).
    rewrite Hd, Hw. unfold completion, requestLog; cbn [fst snd].
    split; [exact Hreads|]. cbv zeta.
    set (plan := if detectChanges params
                 then planFrom normalizedFiles probes.*2 else normalizedFiles) in *.
    split; [exact Hrq|].
    destruct (executeUpdates_shape net instance params
                (determineStrategy (strategy params) plan) plan
                (initialResult params normalizedFiles plan) w1)
      as (result' & w2' & writes' & Hexec' & Hhead & Hwrites & Hshape).
    rewrite Hexec in Hexec'. injection Hexec' as <- <- <-.
    destruct (executeUpdates_run net instance params
                (determineStrategy (strategy params) plan) plan
                (initialResult params normalizedFiles plan) w1)
      as (result' & w2' & writes' & Hexec' & _ & Hkeys & _).
    rewrite Hexec in Hexec'. injection Hexec' as <- <- <-.
    unfold dryRunReport, executionReport.
    eexists _, _, _, result, _, writes.
    split; [reflexivity|].
    split.
    { clear. induction plan as [|f plan IH]; simpl; constructor;
        [repeat split|exact IH]. }
    split.
    { cbn [setOperations details operations]. clear.
      induction plan as [|f plan IH]; simpl; constructor;
        [repeat split|exact IH]. }
    split; [reflexivity|].
    split; [reflexivity|].
    split; [destruct Hhead as (_ & _ & -> & _); reflexivity|].
    split; [exact Hkeys|].
    split; [reflexivity|].
    split; [exact Hwrites|].
    destruct (bool_decide (determineStrategy (strategy params) plan = "batch")
              && bool_decide (1 < length plan)%nat).
    + destruct Hshape as (reply & outcomes & -> & _). reflexivity.
    + destruct Hshape as [-> _]. reflexivity.
  - rewrite Hfail, Hfail'. unfold completion, requestLog; cbn [fst snd].
    split; [constructor|]. split; [reflexivity|]. split; [reflexivity|].
    eexists. reflexivity.
Qed.

End DryRunClaims.

(** *** What the code does where the specification says otherwise *)

(** No summary ever lists a path under [unchanged]: the list is created
    empty and no code path writes to it. *)
Lemma unchanged_is_never_populated {W} (net : W -> Request -> FetchResult * W)
  config args w :
  match completion (run net (Tool.handler config args) w) with
  | Normal output => unchanged (details (summaryOf output)) = []
  | Abrupt _ => True
  end.
Proof.
  rewrite Tool_handler_run.
  pose proof (syncUpdate_summary_header net Error (AppError VALIDATION_ERROR)
                config args w) as H.
  destruct (run net (syncUpdate _ _ config args) w) as [[[output|e] w1] log];
    [|exact I].
  destruct H as (_ & _ & Hu). exact Hu.
Qed.

(** A modify whose content equals the stored content leaves the plan as it
    is (the snapshot is remembered, the operation is not pushed). *)
Lemma identical_modify_is_not_planned {W} (net : W -> Request -> FetchResult * W)
  instance params plan remote file w response remoteFile :
  operation file = modify ->
  (net w (probeRequest instance params file)).1 = Resolved response ->
  ok response = true -> json response = Normal remoteFile ->
  content file = Some (json_content remoteFile) ->
  exists remote',
    completion (run net (detectFile instance params (plan, remote) file) w)
    = Normal (plan, remote').
Proof.
  intros Hop Hreply Hok Hjson Hsame.
  rewrite detectFile_run, Hreply. unfold completion; cbn [fst]. unfold classify.
  rewrite Hok, Hjson, Hop, (bool_decide_eq_true_2 _ Hsame). simpl.
  rewrite app_nil_r. eexists; reflexivity.
Qed.

(** C2, at the input [modify a.txt] with content [X] against a store where
    [a.txt] holds [X]: the operation is left out of the plan, as the claim
    says, but the path is not listed under [unchanged], which stays empty. *)
Theorem C2_identical_modify_is_dropped_and_not_reported :
  let r := run Gitea.serve
             (Tool.handler sampleConfig
                (sampleArgs [rawFile "a.txt" (Some "X") "modify"] None None))
             {[ ("main", "a.txt") := "X" ]} in
  exists success chosen summary report,
    completion r = Normal (ExecutionReport success chosen summary report) /\
    needsUpdate summary = 0%nat /\
    operations (details summary) = [] /\
    unchanged (details summary) = [] /\
    rd_unchanged report = None /\
    ~ "a.txt" ∈ unchanged (details summary).
Proof.
  vm_compute. eexists _, _, _, _. split; [reflexivity|].
  repeat split. apply not_elem_of_nil.
Qed.

(** The errors of [validateAndNormalizeFiles] are plain errors or
    [AppError]s, never a [ZodError]. *)
Lemma validation_error_is_not_zod invalidPath files e :
  (forall m, match invalidPath m with ZodError _ _ => False | _ => True end) ->
  validateAndNormalizeFiles invalidPath files = Abrupt e ->
  match e with ZodError _ _ => False | _ => True end.
Proof.
  intros Hip. unfold validateAndNormalizeFiles. revert e.
  induction files as [|file fs IH]; intros e Hval; [discriminate|].
  simpl in Hval.
  destruct (normalizeFile invalidPath file) as [f|e1] eqn:Hn.
  - simpl in Hval.
    destruct (mapM (normalizeFile invalidPath) fs) eqn:Hrest;
      simpl in Hval; [discriminate|].
    injection Hval as <-. apply IH. reflexivity.
  - simpl in Hval. injection Hval as <-.
    unfold normalizeFile in Hn.
    repeat match type of Hn with
           | context [match ?c with _ => _ end] => destruct c
           end;
      try discriminate; injection Hn as <-; try exact I; apply Hip.
Qed.

(** A call whose files fail validation issues no request, and the error the
    tool handler throws carries the category [EXTERNAL_API_ERROR]. *)
Lemma validation_failure_surface {W} (net : W -> Request -> FetchResult * W)
  config args instance w e :
  falsy (arg_instanceId args) = false -> falsy (arg_owner args) = false ->
  falsy (arg_repository args) = false -> falsy (arg_message args) = false ->
  List.find (fun inst => bool_decide (id inst = instanceId (paramsOf args))) config
  = Some instance ->
  arg_files args <> [] ->
  Tool.validateAndNormalizeFiles (arg_files args) = Abrupt e ->
  run net (Tool.handler config args) w
  = (Abrupt (AppError EXTERNAL_API_ERROR
               ("Failed to sync update files: " +:+ messageOf e)), w, []).
Proof.
  intros Hi Ho Hr Hm Hfind Hne Hval.
  rewrite Tool_handler_run, syncUpdate_run. unfold preflight.
  rewrite Hi, Ho, Hr, Hm.
  rewrite bool_decide_eq_false_2
    by (destruct (arg_files args); [congruence|discriminate]).
  cbv zeta. rewrite Hfind.
  unfold Tool.validateAndNormalizeFiles in Hval.
  change (files (paramsOf args)) with (arg_files args). rewrite Hval.
  apply validation_error_is_not_zod in Hval; [|intros m; exact I].
  destruct e; try reflexivity. destruct Hval.
Qed.

(** Nothing the handler does before its first request throws a [ZodError]. *)
Lemma preflight_error_is_not_zod config args e :
  preflight Error (AppError VALIDATION_ERROR) config args = Abrupt e ->
  match e with ZodError _ _ => False | _ => True end.
Proof.
  unfold preflight.
  repeat match goal with |- context [if ?c then _ else _] => destruct c end;
    try (intros [= <-]; exact I).
  cbv zeta. destruct (List.find _ config); [|intros [= <-]; exact I].
  destruct (validateAndNormalizeFiles _ _) as [fs|e1] eqn:Hval; [discriminate|].
  intros [= <-].
  apply validation_error_is_not_zod in Hval; [exact Hval|intros m; exact I].
Qed.

(** C3, at three calls that fail validation (a parent-traversal path, a
    modify without content, an unknown operation): each call fails without
    issuing a request, as the claim says, but the error it throws carries the
    category [EXTERNAL_API_ERROR], not [VALIDATION_ERROR]; the [AppError]
    that [validateAndNormalizeFiles] throws for the path is caught and
    rethrown by the handler like any other error. *)
Theorem C3_validation_failure_surfaces_as_external_api_error :
  let call := fun file =>
    run Gitea.serve (Tool.handler sampleConfig (sampleArgs [file] None None)) ∅ in
  Tool.validateAndNormalizeFiles [rawFile "../secrets.txt" (Some "X") "add"]
  = Abrupt (AppError VALIDATION_ERROR "Invalid file path: ../secrets.txt") /\
  call (rawFile "../secrets.txt" (Some "X") "add")
  = (Abrupt (AppError EXTERNAL_API_ERROR
               "Failed to sync update files: Invalid file path: ../secrets.txt"),
     ∅, []) /\
  call (rawFile "a.txt" None "modify")
  = (Abrupt (AppError EXTERNAL_API_ERROR
               "Failed to sync update files: Content is required for modify operation on file: a.txt"),
     ∅, []) /\
  call (rawFile "a.txt" (Some "X") "rename")
  = (Abrupt (AppError EXTERNAL_API_ERROR
               "Failed to sync update files: Invalid operation: rename. Must be add, modify, or delete"),
     ∅, []) /\
  forall file e, completion (call file) = Abrupt e ->
                 categoryOf e <> Some VALIDATION_ERROR.
Proof.
  intros call. subst call. cbv beta.
  split; [reflexivity|].
  split; [vm_compute; reflexivity|].
  split; [vm_compute; reflexivity|].
  split; [vm_compute; reflexivity|].
  intros file e. rewrite Tool_handler_run.
  pose proof (syncUpdate_cases Gitea.serve Error (AppError VALIDATION_ERROR)
                sampleConfig (sampleArgs [file] None None) ∅) as H.
  destruct (preflight Error (AppError VALIDATION_ERROR) sampleConfig
              (sampleArgs [file] None None))
    as [[[instance params] normalizedFiles]|e0] eqn:Hpre.
  - destruct H as (plan & remote & w1 & log1 & _ & _ & H).
    apply preflight_params in Hpre. subst params. cbn in H.
    destruct H as (result & w2 & log2 & _ & -> & _). discriminate.
  - rewrite H. unfold completion; cbn [fst]. intros [= <-].
    apply preflight_error_is_not_zod in Hpre.
    destruct e0; try discriminate. destruct Hpre.
Qed.

(** ** The in-memory store answers as a content store *)

Lemma Gitea_serve_read (s : Gitea.Store) rq p br :
  rq_method rq = GET -> rq_path rq = Some p -> rq_ref rq = Some br ->
  (forall b q, Gitea.files (Gitea.serve s rq).2 b q = Gitea.files s b q) /\
  match Gitea.files s br p with
  | Some (sh, c) =>
      exists r, (Gitea.serve s rq).1 = Resolved r /\ ok r = true /\
                json r = Normal {| json_sha := sh; json_content := c |}
  | None => exists r, (Gitea.serve s rq).1 = Resolved r /\ status r = 404
  end.
Proof.
  intros Hm Hp Hr. unfold Gitea.serve, Gitea.files. rewrite Hm, Hp, Hr.
  destruct (s !! (br, p)) as [c|]; simpl.
  - split; [reflexivity|]. eexists; repeat split.
  - split; [reflexivity|]. eexists; repeat split.
Qed.

Lemma Gitea_answer_accepted (s : Gitea.Store) st s' r :
  (Gitea.answer (Gitea.success st) s s').1 = Resolved r -> ok r = true ->
  exists s1, s' = Some s1 /\ (Gitea.answer (Gitea.success st) s s').2 = s1.
Proof.
  destruct s' as [s1|]; simpl.
  - intros _ _. exists s1. auto.
  - intros [= <-]. discriminate.
Qed.

Lemma Gitea_serve_write (s : Gitea.Store) rq p c msg br given r :
  rq_method rq = POST \/ rq_method rq = PUT ->
  rq_path rq = Some p -> rq_body rq = FileBody (Some c) msg br given ->
  (Gitea.serve s rq).1 = Resolved r -> ok r = true ->
  (exists s', Gitea.files (Gitea.serve s rq).2 br p = Some (s', bytesOf c)) /\
  (forall b q, (b, q) <> (br, p) ->
     Gitea.files (Gitea.serve s rq).2 b q = Gitea.files s b q).
Proof.
  intros Hm Hp Hb. unfold Gitea.serve. rewrite Hp, Hb.
  destruct Hm as [-> | ->]; intros Hreply Hok;
    destruct (Gitea_answer_accepted _ _ _ _ Hreply Hok) as (s1 & Hs1 & ->);
    [unfold Gitea.applyCreate in Hs1 | unfold Gitea.applyUpdate in Hs1];
    destruct (s !! (br, p)); try discriminate;
    try (destruct (bool_decide _); [|discriminate]);
    injection Hs1 as <-; unfold Gitea.files;
    (split; [rewrite lookup_insert_eq; eexists; reflexivity|];
     intros b q Hne; rewrite lookup_insert_ne by congruence; reflexivity).
Qed.

Lemma Gitea_serve_delete (s : Gitea.Store) rq p c msg br given r :
  rq_method rq = DELETE ->
  rq_path rq = Some p -> rq_body rq = FileBody c msg br given ->
  (Gitea.serve s rq).1 = Resolved r -> ok r = true ->
  Gitea.files (Gitea.serve s rq).2 br p = None /\
  (forall b q, (b, q) <> (br, p) ->
     Gitea.files (Gitea.serve s rq).2 b q = Gitea.files s b q).
Proof.
  intros Hm Hp Hb. unfold Gitea.serve. rewrite Hm, Hp, Hb.
  intros Hreply Hok.
  destruct (Gitea_answer_accepted _ _ _ _ Hreply Hok) as (s1 & Hs1 & ->).
  unfold Gitea.applyDelete in Hs1.
  destruct (s !! (br, p)); try discriminate.
  destruct (bool_decide _); [|discriminate].
  injection Hs1 as <-. unfold Gitea.files.
  split; [rewrite lookup_delete_eq; reflexivity|].
  intros b q Hne. rewrite lookup_delete_ne by congruence. reflexivity.
Qed.

Lemma Gitea_applyBatchOp_spec (br : string) (op : BatchFileOp) (s s1 : Gitea.Store) :
  Gitea.applyBatchOp br op s = Some s1 ->
  (bf_operation op = "delete" -> s1 !! (br, bf_path op) = None) /\
  (bf_operation op <> "delete" ->
   s1 !! (br, bf_path op) = Some (default "" (bytesOf <$> bf_content op))) /\
  (forall k, k <> (br, bf_path op) -> s1 !! k = s !! k).
Proof.
  unfold Gitea.applyBatchOp, Gitea.applyCreate, Gitea.applyUpdate, Gitea.applyDelete.
  repeat case_bool_decide; try discriminate;
    destruct (s !! (br, bf_path op)); try discriminate;
    repeat case_bool_decide; try discriminate;
    intros [= <-];
    (split; [intros Hd; try congruence; apply lookup_delete_eq|];
     split; [intros Hd; try congruence; apply lookup_insert_eq|];
     intros k Hk;
     first [rewrite lookup_insert_ne by congruence
           |rewrite lookup_delete_ne by congruence]; reflexivity).
Qed.

Lemma Gitea_applyBatch_spec (br : string) (ops : list BatchFileOp) :
  forall (s s' : Gitea.Store),
  Gitea.applyBatch br ops s = Some s' ->
  NoDup (bf_path <$> ops) ->
  (forall op, op ∈ ops ->
     (bf_operation op = "delete" -> s' !! (br, bf_path op) = None) /\
     (bf_operation op <> "delete" ->
      s' !! (br, bf_path op) = Some (default "" (bytesOf <$> bf_content op)))) /\
  (forall b q, (b <> br \/ q ∉ bf_path <$> ops) -> s' !! (b, q) = s !! (b, q)).
Proof.
  induction ops as [|op ops IH]; intros s s' Hrun Hnd.
  - injection Hrun as <-. split; [intros op Hin; inversion Hin|reflexivity].
  - simpl in Hrun.
    destruct (Gitea.applyBatchOp br op s) as [s1|] eqn:Hop; [|discriminate].
    rewrite fmap_cons in Hnd. apply NoDup_cons in Hnd as [Hfresh Hnd].
    destruct (IH _ _ Hrun Hnd) as [Hall Hframe].
    destruct (Gitea_applyBatchOp_spec _ _ _ _ Hop) as (Hdel & Hput & Hother).
    split.
    + intros op' Hin. apply elem_of_cons in Hin as [->|Hin]; [|apply Hall, Hin].
      rewrite Hframe by (right; exact Hfresh). split; assumption.
    + intros b q Hbq. rewrite fmap_cons in Hbq.
      rewrite Hframe, Hother; [reflexivity| |].
      * intros [= -> ->]. destruct Hbq as [Hb|Hq]; [congruence|].
        apply Hq. left.
      * destruct Hbq as [Hb|Hq]; [left; exact Hb|].
        right. intros Hin. apply Hq. right. exact Hin.
Qed.

Lemma Gitea_serve_batch (s : Gitea.Store) rq (ops : list BatchFileOp) msg br r :
  rq_method rq = POST ->
  rq_path rq = None -> rq_body rq = BatchBody ops msg br ->
  NoDup (bf_path <$> ops) ->
  (Gitea.serve s rq).1 = Resolved r -> ok r = true ->
  (forall op, op ∈ ops ->
     (bf_operation op = "delete" ->
      Gitea.files (Gitea.serve s rq).2 br (bf_path op) = None) /\
     (bf_operation op <> "delete" ->
      exists s', Gitea.files (Gitea.serve s rq).2 br (bf_path op)
                 = Some (s', default "" (bytesOf <$> bf_content op)))) /\
  (forall b q, (b <> br \/ q ∉ bf_path <$> ops) ->
     Gitea.files (Gitea.serve s rq).2 b q = Gitea.files s b q).
Proof.
  intros Hm Hp Hb Hnd. unfold Gitea.serve. rewrite Hm, Hp, Hb.
  intros Hreply Hok.
  destruct (Gitea_answer_accepted _ _ _ _ Hreply Hok) as (s1 & Hs1 & ->).
  destruct (Gitea_applyBatch_spec _ _ _ _ Hs1 Hnd) as [Hall Hframe].
  unfold Gitea.files. split.
  - intros op Hin. destruct (Hall op Hin) as [Hdel Hput]. split.
    + intros Hd. rewrite (Hdel Hd). reflexivity.
    + intros Hd. rewrite (Hput Hd). eexists; reflexivity.
  - intros b q Hbq. rewrite (Hframe b q Hbq). reflexivity.
Qed.

(** The in-memory store as a [ContentStore]. *)
#[global, refine] Instance Gitea_store : ContentStore Gitea.Store :=
  {| net := Gitea.serve; stored := Gitea.files |}.
Proof.
  - intros s rq p br _. apply Gitea_serve_read.
  - intros s rq p t msg br given r _ Hm Hp Hb.
    apply (Gitea_serve_write s rq p (base64 (utf8 t)) msg br given r Hm Hp Hb).
  - intros s rq p c msg br given r _. apply Gitea_serve_delete.
  - intros s rq ops msg br r _ Hm Hp Hb Hnd Hreply Hok.
    destruct (Gitea_serve_batch s rq ops msg br r Hm Hp Hb Hnd Hreply Hok)
      as [Hall Hframe].
    split; [|exact Hframe].
    intros op Hin. destruct (Hall op Hin) as [Hdel Hput].
    split; [exact Hdel|].
    intros Hd t Ht. destruct (Hput Hd) as [s' Hs']. exists s'.
    rewrite Hs', Ht. reflexivity.
Defined.

(** ** Two runs against a content store *)

Lemma planOf_ext view1 view2 files :
  (forall q, view1 q = view2 q) -> planOf view1 files = planOf view2 files.
Proof.
  intros Hext. unfold planOf. f_equal.
  apply map_ext. intros f. rewrite Hext. reflexivity.
Qed.

Lemma planEntry_path file v e : planEntry file v = Some e -> path e = path file.
Proof.
  unfold planEntry. destruct v as [[s c]|].
  - repeat match goal with |- context [if ?b then _ else _] => destruct b end;
      try discriminate; intros [= <-]; reflexivity.
  - destruct (operation file); try discriminate; intros [= <-]; reflexivity.
Qed.

Lemma planEntry_add file v : operation file = add -> planEntry file v = Some file.
Proof.
  intros Hop. unfold planEntry. rewrite Hop. destruct v as [[s c]|]; reflexivity.
Qed.

(** An entry of the plan comes from a file with the same path. *)
Lemma elem_of_planOf view files e :
  e ∈ planOf view files ->
  exists f, f ∈ files /\ planEntry f (view (path f)) = Some e.
Proof.
  unfold planOf. induction files as [|f files IH]; simpl.
  - intros Hin. inversion Hin.
  - intros Hin. apply elem_of_app in Hin as [Hin|Hin].
    + destruct (planEntry f (view (path f))) as [e'|] eqn:He; simpl in Hin.
      * apply list_elem_of_singleton in Hin as ->. exists f. split; [left|exact He].
      * inversion Hin.
    + destruct (IH Hin) as (f' & Hf' & He). exists f'. split; [right; exact Hf'|exact He].
Qed.

Lemma planOf_elem view files f e :
  f ∈ files -> planEntry f (view (path f)) = Some e -> e ∈ planOf view files.
Proof.
  unfold planOf. induction files as [|f' files IH]; intros Hin He.
  - inversion Hin.
  - simpl. apply elem_of_app. apply elem_of_cons in Hin as [<-|Hin].
    + left. rewrite He. left.
    + right. apply IH; assumption.
Qed.

Lemma planOf_paths_sublist view files :
  sublist (map path (planOf view files)) (map path files).
Proof.
  unfold planOf. induction files as [|f files IH]; simpl; [constructor|].
  rewrite map_app.
  destruct (planEntry f (view (path f))) as [e|] eqn:He; simpl.
  - rewrite (planEntry_path _ _ _ He). apply sublist_skip. exact IH.
  - apply sublist_cons. exact IH.
Qed.

Lemma same_key_same_element {A B} (g : A -> B) (l : list A) x y :
  NoDup (map g l) -> x ∈ l -> y ∈ l -> g x = g y -> x = y.
Proof.
  induction l as [|a l IH]; intros Hnd Hx Hy Hg; [inversion Hx|].
  simpl in Hnd. apply NoDup_cons in Hnd as [Hfresh Hnd].
  apply elem_of_cons in Hx as [->|Hx]; apply elem_of_cons in Hy as [->|Hy].
  - reflexivity.
  - exfalso. apply Hfresh. rewrite Hg. apply (list_elem_of_fmap_2 g). exact Hy.
  - exfalso. apply Hfresh. rewrite <- Hg. apply (list_elem_of_fmap_2 g). exact Hx.
  - apply IH; assumption.
Qed.

(** Over distinct paths, a file that the loop drops leaves its path out of
    the plan. *)
Lemma dropped_path_not_planned view files f :
  NoDup (map path files) -> f ∈ files ->
  planEntry f (view (path f)) = None ->
  path f ∉ map path (planOf view files).
Proof.
  intros Hnd Hin Hnone Hpath.
  apply (list_elem_of_fmap_1 path) in Hpath as (e & Hpe & He).
  apply elem_of_planOf in He as (f' & Hf' & He).
  apply planEntry_path in He as Hpe'.
  assert (f = f') as <- by (apply (same_key_same_element path files); congruence).
  congruence.
Qed.

Lemma batchFileOp_path plan : bf_path <$> map batchFileOp plan = map path plan.
Proof.
  induction plan as [|f plan IH]; [reflexivity|].
  change (bf_path <$> map batchFileOp (f :: plan))
    with (bf_path (batchFileOp f) :: (bf_path <$> map batchFileOp plan)).
  rewrite IH. simpl. f_equal.
  unfold batchFileOp. destruct (bool_decide (operation f = delete)); reflexivity.
Qed.

(** Over plain paths, the plan addresses plain paths. *)
Lemma planOf_plain view files :
  Forall (fun f => plainPath (path f) = true) files ->
  Forall (fun f => plainPath (path f) = true) (planOf view files).
Proof.
  intros Hplain. apply Forall_forall. intros e He.
  apply elem_of_planOf in He as (f & Hf & He).
  rewrite (planEntry_path _ _ _ He).
  rewrite Forall_forall in Hplain. apply Hplain, Hf.
Qed.

Section TwoRuns.

Context `{ContentStore W}.
Context (instance : GiteaInstance) (params : Params).
Hypothesis plain_owner : plainSegment (owner params) = true.
Hypothesis plain_repository : plainSegment (repository params) = true.
Hypothesis plain_branch : plainPath (branch params) = true.

Lemma probeRequest_plain file :
  plainPath (path file) = true ->
  plainRequest (probeRequest instance params file) = true.
Proof.
  intros Hpath. unfold plainRequest, probeRequest. cbn.
  rewrite plain_owner, plain_repository, plain_branch, Hpath. reflexivity.
Qed.

Lemma individualRequest_plain file :
  plainPath (path file) = true ->
  plainRequest (individualRequest instance params file) = true.
Proof.
  intros Hpath.
  unfold individualRequest, createOrUpdateRequest, deleteRequest.
  destruct (bool_decide (operation file = delete));
    [|destruct (bool_decide (operation file = add))];
    unfold plainRequest; cbn;
    rewrite plain_owner, plain_repository, Hpath; reflexivity.
Qed.

Lemma batchRequest_plain plan :
  Forall (fun f => plainPath (path f) = true) plan ->
  plainRequest (batchRequest instance params plan) = true.
Proof.
  intros Hplain. unfold plainRequest, batchRequest. cbn.
  rewrite plain_owner, plain_repository. cbn.
  induction Hplain as [|f plan Hf _ IH]; [reflexivity|].
  cbn. rewrite IH, andb_true_r.
  unfold batchFileOp. destruct (bool_decide (operation f = delete)); exact Hf.
Qed.

(** Against a content store, the decision of the loop for a file is the one
    [planEntry] gives for what the path holds, and the probe changes
    nothing. *)
Lemma probe_classify file (w : W) :
  plainPath (path file) = true ->
  let rq := probeRequest instance params file in
  classify file (net w rq).1
  = planEntry file (stored w (branch params) (path file)) /\
  (forall b q, stored (net w rq).2 b q = stored w b q).
Proof.
  intros Hpath rq.
  destruct (net_read w rq (path file) (branch params)) as [Hsame Hreply];
    try reflexivity.
  { apply probeRequest_plain, Hpath. }
  split; [|exact Hsame].
  unfold planEntry, classify.
  destruct (stored w (branch params) (path file)) as [[s c]|].
  - destruct Hreply as (r & -> & -> & ->). reflexivity.
  - destruct Hreply as (r & -> & Hst).
    rewrite (notFound_not_ok _ Hst), (bool_decide_eq_true_2 _ Hst). reflexivity.
Qed.

Lemma lawful_forOf_detectFile files :
  Forall (fun f => plainPath (path f) = true) files ->
  forall plan remote (w : W),
  exists remote' w' log,
    run net (forOf (detectFile instance params) files (plan, remote)) w
    = (Normal (app plan (planOf (stored w (branch params)) files), remote'), w', log) /\
    (forall b q, stored w' b q = stored w b q).
Proof.
  induction 1 as [|file files Hfile _ IH]; intros plan remote w.
  - exists remote, w, []. simpl. unfold planOf. simpl. rewrite app_nil_r. auto.
  - rewrite run_forOf_cons, detectFile_run.
    destruct (probe_classify file w Hfile) as [-> Hsame].
    set (rq := probeRequest instance params file) in *.
    destruct (IH (app plan (option_list
                              (planEntry file (stored w (branch params) (path file)))))
                 (remember file (net w rq).1 remote) (net w rq).2)
      as (remote' & w' & log & -> & Hsame').
    eexists _, _, _. split.
    + rewrite (planOf_ext (stored (net w rq).2 (branch params))
                 (stored w (branch params))) by (intros q; apply Hsame).
      unfold planOf at 2. simpl. fold (planOf (stored w (branch params)) files).
      rewrite <- app_assoc. reflexivity.
    + intros b q. rewrite Hsame', Hsame. reflexivity.
Qed.

Lemma lawful_detectChangesNeeded files (w : W) :
  Forall (fun f => plainPath (path f) = true) files ->
  exists remote' w' log,
    run net (detectChangesNeeded instance params files) w
    = (Normal (planOf (stored w (branch params)) files, remote'), w', log) /\
    (forall b q, stored w' b q = stored w b q).
Proof.
  intros Hplain. unfold detectChangesNeeded.
  apply (lawful_forOf_detectFile files Hplain [] ∅ w).
Qed.

(** An accepted request of the individual executor settles its file and
    touches no other path. *)
Lemma accepted_individual_settles file (w : W) :
  plainPath (path file) = true ->
  let rq := individualRequest instance params file in
  accepted (net w rq).1 = true ->
  settledAfter file (stored (net w rq).2 (branch params) (path file)) /\
  (forall b q, (b, q) <> (branch params, path file) ->
     stored (net w rq).2 b q = stored w b q).
Proof.
  intros Hpath rq Hacc. subst rq.
  pose proof (individualRequest_plain file Hpath) as Hplain.
  destruct (net w (individualRequest instance params file)).1 as [r|e] eqn:Hreply;
    [|discriminate].
  simpl in Hacc. revert Hreply Hplain.
  unfold individualRequest, settledAfter, createOrUpdateRequest, deleteRequest.
  destruct (operation file); simpl; intros Hreply Hplain.
  - eapply net_write; [exact Hplain|left; reflexivity|reflexivity|reflexivity
                      |exact Hreply|exact Hacc].
  - eapply net_write; [exact Hplain|right; reflexivity|reflexivity|reflexivity
                      |exact Hreply|exact Hacc].
  - eapply net_delete; [exact Hplain|reflexivity|reflexivity|reflexivity
                       |exact Hreply|exact Hacc].
Qed.

Lemma lawful_individual plan : forall result (w : W) result' w' log,
  run net (executeIndividualUpdates instance params plan result) w
  = (Normal result', w', log) ->
  failed result' = failed result ->
  NoDup (map path plan) ->
  Forall (fun f => plainPath (path f) = true) plan ->
  (forall f, f ∈ plan -> settledAfter f (stored w' (branch params) (path f))) /\
  (forall b q, (b <> branch params \/ q ∉ map path plan) ->
     stored w' b q = stored w b q).
Proof.
  unfold executeIndividualUpdates.
  induction plan as [|file plan IH];
    intros result w result' w' log Hrun Hfail Hnd Hplain.
  - injection Hrun as <- <- <-.
    split; [intros f Hin; inversion Hin|reflexivity].
  - rewrite run_forOf_cons, executeOne_run in Hrun.
    set (rq := individualRequest instance params file) in *.
    destruct (executeIndividualUpdates_run net instance params plan
                (recordOutcome file (net w rq).1 result) (net w rq).2)
      as (result1 & w1 & log1 & Hrest & _ & _ & _ & _ & Hfail1 & _).
    unfold executeIndividualUpdates in Hrest. rewrite Hrest in Hrun.
    injection Hrun as <- <- <-.
    destruct (recordOutcome_fields file (net w rq).1 result)
      as (_ & _ & _ & Hfail0 & _).
    destruct (accepted (net w rq).1) eqn:Hacc; [|lia].
    simpl in Hnd. apply NoDup_cons in Hnd as [Hfresh Hnd].
    apply Forall_cons in Hplain as [Hfile Hplain].
    destruct (IH _ _ _ _ _ Hrest ltac:(lia) Hnd Hplain) as [Hall Hframe].
    destruct (accepted_individual_settles file w Hfile Hacc) as [Hsettled Hother].
    fold rq in Hsettled, Hother.
    split.
    + intros f Hin. apply elem_of_cons in Hin as [->|Hin]; [|apply Hall, Hin].
      rewrite Hframe by (right; exact Hfresh). exact Hsettled.
    + intros b q Hbq. rewrite Hframe, Hother; [reflexivity| |].
      * intros [= -> ->]. destruct Hbq as [Hb|Hq]; [congruence|].
        apply Hq. left.
      * destruct Hbq as [Hb|Hq]; [left; exact Hb|].
        right. intros Hin. apply Hq. right. exact Hin.
Qed.

Lemma lawful_batch plan result (w : W) result' w' log :
  run net (executeBatchUpdate instance params plan result) w
  = (Normal result', w', log) ->
  failed result' = 0%nat -> plan <> [] ->
  NoDup (map path plan) ->
  Forall (fun f => plainPath (path f) = true) plan ->
  (forall f, f ∈ plan -> settledAfter f (stored w' (branch params) (path f))) /\
  (forall b q, (b <> branch params \/ q ∉ map path plan) ->
     stored w' b q = stored w b q).
Proof.
  intros Hrun Hfail Hne Hnd Hplain.
  destruct (executeBatchUpdate_run net instance params plan result w)
    as (result1 & Hrun1 & _ & _ & Hcase).
  rewrite Hrun1 in Hrun. injection Hrun as <- <- <-.
  pose proof (batchRequest_plain plan Hplain) as Hrq.
  set (rq := batchRequest instance params plan) in *.
  destruct (net w rq).1 as [r|e] eqn:Hreply; simpl in Hcase.
  2: { destruct Hcase as (Hf & _). destruct plan; [congruence|simpl in Hf; lia]. }
  destruct (ok r) eqn:Hok.
  2: { destruct Hcase as (Hf & _). destruct plan; [congruence|simpl in Hf; lia]. }
  destruct (net_batch w rq (map batchFileOp plan) (message params) (branch params) r)
    as [Hall Hframe]; try reflexivity; try assumption.
  { rewrite batchFileOp_path. exact Hnd. }
  rewrite batchFileOp_path in Hframe.
  split; [|exact Hframe].
  intros f Hin.
  destruct (Hall (batchFileOp f)) as [Hdel Hput].
  { apply list_elem_of_In, in_map, list_elem_of_In, Hin. }
  revert Hdel Hput. unfold settledAfter, batchFileOp.
  destruct (operation f); simpl; intros Hdel Hput.
  - apply Hput; [discriminate|reflexivity].
  - apply Hput; [discriminate|reflexivity].
  - apply Hdel. reflexivity.
Qed.

Lemma lawful_executeUpdates chosen plan result (w : W) result' w' log :
  run net (executeUpdates instance params chosen plan result) w
  = (Normal result', w', log) ->
  failed result = 0%nat -> failed result' = 0%nat ->
  NoDup (map path plan) ->
  Forall (fun f => plainPath (path f) = true) plan ->
  (forall f, f ∈ plan -> settledAfter f (stored w' (branch params) (path f))) /\
  (forall b q, (b <> branch params \/ q ∉ map path plan) ->
     stored w' b q = stored w b q).
Proof.
  unfold executeUpdates. intros Hrun Hf0 Hf1 Hnd Hplain.
  destruct (bool_decide (chosen = "batch")); simpl in Hrun.
  - case_bool_decide as Hlen.
    + eapply lawful_batch; eauto. intros ->. simpl in Hlen. lia.
    + eapply lawful_individual; eauto. congruence.
  - eapply lawful_individual; eauto. congruence.
Qed.

End TwoRuns.

(** *** What validation guarantees *)

Lemma normalizeFile_content invalidPath raw f :
  normalizeFile invalidPath raw = Normal f ->
  operation f <> delete ->
  exists c, content f = Some c /\ orDefault (content f) "" = c.
Proof.
  unfold normalizeFile.
  destruct (raw_path raw) as [p|]; [|discriminate].
  destruct (decide (p = "")); [discriminate|].
  repeat match goal with
         | |- context [if decide ?P then _ else _] => destruct (decide P)
         end; try discriminate;
    cbn [bool_decide decide_rel orb andb];
    (destruct (raw_content raw) as [c|] eqn:Hc; simpl;
     [destruct (decide (c = "")); simpl|]);
    try discriminate;
    destruct (includes ".." _ || startsWith "/" _); try discriminate;
    intros [= <-]; simpl; intros Hop; try congruence;
    exists c; rewrite decide_False by assumption; auto.
Qed.

Lemma validated_contents invalidPath raws : forall files,
  validateAndNormalizeFiles invalidPath raws = Normal files ->
  Forall (fun f => operation f <> delete ->
                   exists c, content f = Some c /\ orDefault (content f) "" = c)
         files.
Proof.
  unfold validateAndNormalizeFiles.
  induction raws as [|raw raws IH]; intros files Hval.
  - injection Hval as <-. constructor.
  - simpl in Hval.
    destruct (normalizeFile invalidPath raw) as [f|e] eqn:Hf; [|discriminate].
    simpl in Hval.
    destruct (mapM (normalizeFile invalidPath) raws) as [fs|e] eqn:Hfs;
      [|discriminate].
    injection Hval as <-. constructor.
    + apply (normalizeFile_content _ _ _ Hf).
    + apply IH. reflexivity.
Qed.

Lemma preflight_files inf ip config args instance params normalizedFiles :
  preflight inf ip config args = Normal (instance, params, normalizedFiles) ->
  validateAndNormalizeFiles ip (arg_files args) = Normal normalizedFiles.
Proof.
  unfold preflight.
  repeat match goal with |- context [if ?c then _ else _] => destruct c end;
    try discriminate.
  cbv zeta. destruct (List.find _ config); [|discriminate].
  change (files (paramsOf args)) with (arg_files args).
  destruct (validateAndNormalizeFiles ip _); [|discriminate].
  intros [= _ _ <-]. reflexivity.
Qed.

(** *** The second plan *)

(** Once every planned operation is settled and no other path has changed,
    planning again keeps the add operations and nothing else. *)
Lemma settled_file_replans view1 view2 files f :
  NoDup (map path files) ->
  Forall (fun f => operation f <> delete ->
                   exists c, content f = Some c /\ orDefault (content f) "" = c)
         files ->
  Forall (fun f => operation f = modify ->
                   wellFormed (orDefault (content f) "") = true) files ->
  (forall e, e ∈ planOf view1 files -> settledAfter e (view2 (path e))) ->
  (forall q, q ∉ map path (planOf view1 files) -> view2 q = view1 q) ->
  f ∈ files ->
  planEntry f (view2 (path f))
  = if bool_decide (operation f = add) then Some f else None.
Proof.
  intros Hnd Hcontent Hwell Hsettled Hframe Hin.
  destruct (bool_decide (operation f = add)) eqn:Hadd.
  { apply bool_decide_eq_true_1 in Hadd. apply planEntry_add, Hadd. }
  apply bool_decide_eq_false_1 in Hadd.
  destruct (planEntry f (view1 (path f))) as [e|] eqn:He.
  - pose proof (planEntry_path _ _ _ He) as Hpath.
    pose proof (Hsettled e (planOf_elem _ _ _ _ Hin He)) as Hs.
    rewrite Hpath in Hs. revert He Hs.
    unfold planEntry at 1, settledAfter.
    destruct (operation f) eqn:Hop; [congruence| |].
    + (* modify *)
      rewrite Forall_forall in Hcontent, Hwell.
      destruct (Hcontent f Hin ltac:(congruence)) as (c & Hc & Hdef).
      pose proof (Hwell f Hin Hop) as Hutf.
      apply bool_decide_eq_true_1 in Hutf. rewrite Hdef in Hutf.
      assert (forall e, content e = content f -> operation e <> delete ->
                        (match operation e with
                         | delete => view2 (path f) = None
                         | _ => exists s, view2 (path f)
                                          = Some (s, utf8 (orDefault (content e) ""))
                         end) ->
                        planEntry f (view2 (path f)) = None) as Hgo.
      { intros e' Hce Hoe Hs.
        assert (exists s, view2 (path f) = Some (s, c)) as (s & ->).
        { rewrite Hce, Hdef, Hutf in Hs.
          destruct (operation e'); [exact Hs|exact Hs|congruence]. }
        unfold planEntry. rewrite Hop, Hc.
        rewrite !bool_decide_eq_true_2 by reflexivity. reflexivity. }
      destruct (view1 (path f)) as [[s1 c1]|]; simpl.
      * destruct (bool_decide (content f = Some c1)); simpl; [discriminate|].
        intros [= <-] Hs.
        apply (Hgo (withSha f (Some s1)) eq_refl); [simpl; congruence|exact Hs].
      * intros [= <-] Hs.
        apply (Hgo (withSha (withOperation f add) None) eq_refl);
          [simpl; congruence|exact Hs].
    + (* delete *)
      destruct (view1 (path f)) as [[s1 c1]|]; simpl; [|discriminate].
      intros [= <-]. simpl. rewrite Hop. intros ->.
      unfold planEntry. rewrite Hop. reflexivity.
  - rewrite Hframe; [exact He|].
    apply dropped_path_not_planned; assumption.
Qed.

Lemma replanned_is_adds view1 view2 files :
  NoDup (map path files) ->
  Forall (fun f => operation f <> delete ->
                   exists c, content f = Some c /\ orDefault (content f) "" = c)
         files ->
  Forall (fun f => operation f = modify ->
                   wellFormed (orDefault (content f) "") = true) files ->
  (forall e, e ∈ planOf view1 files -> settledAfter e (view2 (path e))) ->
  (forall q, q ∉ map path (planOf view1 files) -> view2 q = view1 q) ->
  planOf view2 files = adds files.
Proof.
  intros Hnd Hcontent Hwell Hsettled Hframe.
  assert (forall l, (forall f, f ∈ l -> f ∈ files) -> planOf view2 l = adds l) as Hgo.
  { induction l as [|f l IH]; intros Hsub; [reflexivity|].
    unfold planOf, adds. simpl. fold (planOf view2 l).
    rewrite (settled_file_replans view1 view2 files f Hnd Hcontent Hwell
               Hsettled Hframe)
      by (apply Hsub; left).
    rewrite IH by (intros f' Hf'; apply Hsub; right; exact Hf').
    rewrite filter_cons. unfold adds.
    destruct (decide (operation f = add)) as [Hadd|Hadd].
    - rewrite (bool_decide_eq_true_2 _ Hadd). reflexivity.
    - rewrite (bool_decide_eq_false_2 _ Hadd). reflexivity. }
  apply Hgo. auto.
Qed.

Section Idempotence.

Context `{ContentStore W}.


End Idempotence.


(** An add operation is pushed to the plan whatever the probe answers. *)
Lemma add_is_always_planned file reply :
  operation file = add -> classify file reply = Some file.
Proof.
  intros Hop. unfold classify. rewrite Hop.
  destruct reply as [r|e]; [|reflexivity].
  destruct (ok r); [destruct (json r); reflexivity|].
  destruct (bool_decide (status r = 404)); reflexivity.
Qed.


(** ** The examples of the specification *)

(** A modify of a path that does not exist: the plan is the add of that
    path, the strategy is [individual], and the summary counts one operation
    needed and succeeded, none failed. *)
Example modify_of_absent_path_runs_as_add :
  completion
    (run Gitea.serve
       (Tool.handler sampleConfig
          (sampleArgs [rawFile "a.txt" (Some "X") "modify"] None None)) ∅)
  = Normal
      (executionReport
         (paramsOf (sampleArgs [rawFile "a.txt" (Some "X") "modify"] None None))
         "individual"
         {| discovered := 1; analyzed := 1; needsUpdate := 1;
            processed := 1; succeeded := 1; failed := 0; skipped := 0;
            details := {| operations := [successDetail (fileOp "a.txt" (Some "X") add)];
                          conflicts := []; unchanged := [] |} |}).
Proof. vm_compute. reflexivity. Qed.

(** Three add or modify operations under [auto] select [batch]; when the
    store refuses the combined commit (here [b.txt] exists already), the
    three outcomes are failed with the same error text. *)
Example refused_batch_fails_every_operation :
  let args := sampleArgs [rawFile "a.txt" (Some "X") "modify";
                          rawFile "b.txt" (Some "Y") "add";
                          rawFile "c.txt" (Some "Z") "add"] None None in
  let error := "Batch operation failed: 422 refused" in
  completion
    (run Gitea.serve (Tool.handler sampleConfig args)
       {[ ("main", "a.txt") := "old"; ("main", "b.txt") := "B" ]})
  = Normal
      (executionReport (paramsOf args) "batch"
         {| discovered := 3; analyzed := 3; needsUpdate := 3;
            processed := 3; succeeded := 0; failed := 3; skipped := 0;
            details :=
              {| operations :=
                   [failedDetail error
                      {| path := "a.txt"; content := Some "X"; operation := modify;
                         sha := Some (Gitea.blobSha "old") |};
                    failedDetail error (fileOp "b.txt" (Some "Y") add);
                    failedDetail error (fileOp "c.txt" (Some "Z") add)];
                 conflicts := []; unchanged := [] |} |}).
Proof. vm_compute. reflexivity. Qed.

(** A dry run of the same call reports the three operations and leaves the
    store as it is. *)
Example dry_run_reports_the_plan :
  let args := sampleArgs [rawFile "a.txt" (Some "X") "modify";
                          rawFile "b.txt" None "delete";
                          rawFile "c.txt" (Some "Z") "add"] None (Some true) in
  let store : Gitea.Store := {[ ("main", "a.txt") := "old"; ("main", "b.txt") := "B" ]} in
  exists summary,
    run Gitea.serve (Tool.handler sampleConfig args) store
    = (Normal
         (DryRunReport "individual" summary
            [{| pf_path := "a.txt"; pf_operation := modify; hasRemoteSha := true |};
             {| pf_path := "b.txt"; pf_operation := delete; hasRemoteSha := true |};
             {| pf_path := "c.txt"; pf_operation := add; hasRemoteSha := false |}]),
       store,
       map (fun p => (probeRequest sampleInstance (paramsOf args) (fileOp p None add),
                      (Gitea.serve store
                         (probeRequest sampleInstance (paramsOf args)
                            (fileOp p None add))).1))
           ["a.txt"; "b.txt"; "c.txt"]).
Proof. eexists. vm_compute. reflexivity. Qed.

(** Two operations on one path: the first run creates [a.txt] (the delete
    of the absent path is dropped) and succeeds; the second run drops the
    modify and plans the delete, although the input has no add. *)
Example same_path_twice_is_planned_again :
  let args := sampleArgs [rawFile "a.txt" (Some "X") "modify";
                          rawFile "a.txt" None "delete"] None None in
  let first := run Gitea.serve (Tool.handler sampleConfig args) ∅ in
  let second := run Gitea.serve (Tool.handler sampleConfig args) (finalState first) in
  executedWithoutFailure (completion first) = true /\
  exists output,
    completion second = Normal output /\
    needsUpdate (summaryOf output) = 1%nat.
Proof.
  vm_compute. split; [reflexivity|]. eexists. split; reflexivity.
Qed.

(** A text with a lone surrogate (here U+D800): the first run writes its
    UTF-8 encoding, in which U+FFFD stands for the surrogate, and succeeds;
    the second run reads that back, finds it different from the text of the
    call and plans the modify again. *)
Example lone_surrogate_is_planned_again :
  let text := String (ascii_of_nat 237) (String (ascii_of_nat 160)
                (String (ascii_of_nat 128) EmptyString)) in
  let args := sampleArgs [rawFile "a.txt" (Some text) "modify"] None None in
  let first := run Gitea.serve (Tool.handler sampleConfig args) ∅ in
  let second := run Gitea.serve (Tool.handler sampleConfig args) (finalState first) in
  wellFormed text = false /\
  executedWithoutFailure (completion first) = true /\
  exists output,
    completion second = Normal output /\
    needsUpdate (summaryOf output) = 1%nat.
Proof.
  vm_compute. split; [reflexivity|]. split; [reflexivity|].
  eexists. split; reflexivity.
Qed.

(** * Further properties of the engine *)

(** ** Normalisation ([validateAndNormalizeFiles]) *)

Lemma replaceBackslashes_chars s : backslash ∉ chars (replaceBackslashes s).
Proof.
  induction s as [|c s IH]; simpl; [apply not_elem_of_nil|].
  apply not_elem_of_cons. split; [|exact IH].
  destruct (decide (c = backslash)); [discriminate|congruence].
Qed.

Lemma replaceBackslashes_empty s : replaceBackslashes s = "" -> s = "".
Proof. destruct s; [reflexivity|discriminate]. Qed.

Lemma normalizeFile_spec invalidPath raw f :
  normalizeFile invalidPath raw = Normal f ->
  normalizedFrom raw f /\ safePath (path f).
Proof.
  unfold normalizeFile, normalizedFrom, safePath.
  destruct (raw_path raw) as [p|]; [|discriminate].
  destruct (decide (p = "")) as [|Hp]; [discriminate|].
  set (op := orDefault (raw_operation raw) "add").
  assert (forall k, op = kindName k ->
    (if (bool_decide (k = add) || bool_decide (k = modify)) && falsy (raw_content raw)
     then Abrupt (Error ("Content is required for " +:+ op +:+
                         " operation on file: " +:+ p))
     else if includes ".." (replaceBackslashes p)
             || startsWith "/" (replaceBackslashes p)
          then Abrupt (invalidPath ("Invalid file path: " +:+ p))
          else Normal {| path := replaceBackslashes p; content := raw_content raw;
                         operation := k; sha := raw_sha raw |}) = Normal f ->
    (exists p0, Some p = Some p0 /\ p0 <> "" /\ path f = replaceBackslashes p0 /\
       content f = raw_content raw /\ sha f = raw_sha raw /\
       op = kindName (operation f) /\
       (operation f <> delete -> falsy (raw_content raw) = false)) /\
    path f <> "" /\ (backslash ∉ chars (path f)) /\
    includes ".." (path f) = false /\ startsWith "/" (path f) = false) as Hgo.
  { intros k Hk.
    destruct ((bool_decide (k = add) || bool_decide (k = modify))
              && falsy (raw_content raw)) eqn:Hc; [discriminate|].
    destruct (includes ".." (replaceBackslashes p)) eqn:Hi; [discriminate|].
    destruct (startsWith "/" (replaceBackslashes p)) eqn:Hs; [discriminate|].
    intros [= <-]. simpl. split.
    - exists p. repeat split; try assumption.
      intros Hk'. destruct k; try congruence; simpl in Hc; exact Hc.
    - repeat split; try assumption.
      + intros He. apply Hp, replaceBackslashes_empty, He.
      + apply replaceBackslashes_chars. }
  destruct (decide (op = "add")) as [Ha|]; [apply (Hgo add Ha)|].
  destruct (decide (op = "modify")) as [Hm|]; [apply (Hgo modify Hm)|].
  destruct (decide (op = "delete")) as [Hd|]; [apply (Hgo delete Hd)|].
  discriminate.
Qed.

Lemma validate_cons invalidPath raw raws :
  validateAndNormalizeFiles invalidPath (raw :: raws) =
  match normalizeFile invalidPath raw with
  | Normal f =>
      match validateAndNormalizeFiles invalidPath raws with
      | Normal fs => Normal (f :: fs)
      | Abrupt e => Abrupt e
      end
  | Abrupt e => Abrupt e
  end.
Proof.
  unfold validateAndNormalizeFiles. simpl.
  destruct (normalizeFile invalidPath raw); [|reflexivity]. simpl.
  destruct (mapM (normalizeFile invalidPath) raws); reflexivity.
Qed.

(** X1: when normalisation succeeds it returns one file per input record,
    in input order, each with the record's path with every backslash turned
    into a slash, and the record's content, version token and operation
    (add when unspecified); every returned path is non-empty, free of
    backslashes, holds no [..] and does not start with a slash; every add or
    modify carries non-empty content. *)
Theorem validated_files_are_safe invalidPath raws files :
  validateAndNormalizeFiles invalidPath raws = Normal files ->
  Forall2 normalizedFrom raws files /\
  length files = length raws /\
  Forall (fun f => safePath (path f)) files.
Proof.
  revert files. induction raws as [|raw raws IH]; intros files.
  - intros [= <-]. repeat constructor.
  - rewrite validate_cons.
    destruct (normalizeFile invalidPath raw) as [f|e] eqn:Hf; [|discriminate].
    destruct (validateAndNormalizeFiles invalidPath raws) as [fs|e];
      [|discriminate].
    intros [= <-]. destruct (IH fs eq_refl) as (Hall & Hlen & Hsafe).
    destruct (normalizeFile_spec _ _ _ Hf) as [Hfrom Hpath].
    split; [constructor; assumption|].
    split; [simpl; congruence|constructor; assumption].
Qed.

Lemma validated_files_are_safe_witness :
  Forall (fun f => safePath (path f))
    [{| path := "src/lib/a.txt"; content := Some "X"; operation := add;
        sha := None |}].
Proof.
  apply (validated_files_are_safe Error
           [{| raw_path := Some (String "s" (String "r" (String "c"
                 (String backslash "lib/a.txt"))));
               raw_content := Some "X"; raw_operation := None;
               raw_sha := None |}]).
  vm_compute. reflexivity.
Defined.

(** X2: normalisation reports the first invalid record in input order:
    when every record before [raw] is valid and [raw] is not, the error is
    the one [raw] raises, whatever follows. *)
Theorem first_invalid_file_decides_the_error invalidPath good raw rest fs e :
  validateAndNormalizeFiles invalidPath good = Normal fs ->
  normalizeFile invalidPath raw = Abrupt e ->
  validateAndNormalizeFiles invalidPath (app good (raw :: rest)) = Abrupt e.
Proof.
  revert fs. induction good as [|g good IH]; intros fs Hgood Hraw.
  - cbn [app]. rewrite validate_cons, Hraw. reflexivity.
  - cbn [app]. rewrite validate_cons in Hgood |- *.
    destruct (normalizeFile invalidPath g) as [f|e1]; [|discriminate].
    destruct (validateAndNormalizeFiles invalidPath good) as [fs1|e1] eqn:Hg;
      [|discriminate].
    rewrite (IH fs1 eq_refl Hraw). reflexivity.
Qed.

Lemma first_invalid_file_decides_the_error_witness :
  validateAndNormalizeFiles (AppError VALIDATION_ERROR)
    [rawFile "a.txt" (Some "X") "add"; rawFile "/etc/passwd" (Some "Y") "add";
     rawFile "b.txt" None "modify"]
  = Abrupt (AppError VALIDATION_ERROR "Invalid file path: /etc/passwd").
Proof.
  apply (first_invalid_file_decides_the_error (AppError VALIDATION_ERROR)
           [rawFile "a.txt" (Some "X") "add"]
           (rawFile "/etc/passwd" (Some "Y") "add")
           [rawFile "b.txt" None "modify"]
           [fileOp "a.txt" (Some "X") add]);
    vm_compute; reflexivity.
Defined.

(** ** Calls that fail *)

Lemma validate_fails_if_any invalidPath raws raw e :
  raw ∈ raws -> normalizeFile invalidPath raw = Abrupt e ->
  exists e', validateAndNormalizeFiles invalidPath raws = Abrupt e'.
Proof.
  induction raws as [|r raws IH]; intros Hin Hraw; [inversion Hin|].
  rewrite validate_cons.
  apply elem_of_cons in Hin as [<-|Hin].
  - rewrite Hraw. eexists; reflexivity.
  - destruct (normalizeFile invalidPath r); [|eexists; reflexivity].
    destruct (IH Hin Hraw) as (e' & ->). eexists; reflexivity.
Qed.

Lemma preflight_fails_if_any inf ip config args raw e :
  raw ∈ arg_files args -> normalizeFile ip raw = Abrupt e ->
  exists e', preflight inf ip config args = Abrupt e'.
Proof.
  intros Hin Hraw. unfold preflight.
  repeat match goal with |- context [if ?c then _ else _] => destruct c end;
    try (eexists; reflexivity).
  cbv zeta. destruct (List.find _ config); [|eexists; reflexivity].
  change (files (paramsOf args)) with (arg_files args).
  destruct (validate_fails_if_any ip _ _ _ Hin Hraw) as (e' & ->).
  eexists; reflexivity.
Qed.

(** Whether a record fails normalisation does not depend on the class of
    the error raised for a dangerous path. *)
Lemma normalizeFile_fails_for_both ip1 ip2 raw e :
  normalizeFile ip1 raw = Abrupt e -> exists e', normalizeFile ip2 raw = Abrupt e'.
Proof.
  unfold normalizeFile.
  repeat match goal with
         | |- context [match ?c with _ => _ end] => destruct c
         end; try discriminate; intros _; eexists; reflexivity.
Qed.

Section FailingCalls.

Context {W : Type} (net : W -> Request -> FetchResult * W).

Lemma failed_preflight_sends_nothing config args w e0 :
  preflight Error (AppError VALIDATION_ERROR) config args = Abrupt e0 ->
  run net (Tool.handler config args) w = (Abrupt (surfaced e0), w, []).
Proof.
  intros Hpre. rewrite Tool_handler_run, syncUpdate_run, Hpre. reflexivity.
Qed.

(** X3: a call one of whose records fails normalisation, wherever the
    record stands in [files], issues no request and leaves the store as it
    is: the tool handler throws, the server handler returns an error reply.
    Nothing is written for the valid records either. *)
Theorem invalid_file_blocks_every_write config args w raw e :
  raw ∈ arg_files args ->
  normalizeFile (AppError VALIDATION_ERROR) raw = Abrupt e ->
  (exists e', run net (Tool.handler config args) w = (Abrupt e', w, [])) /\
  (exists t, run net (Server.handleSyncUpdate config args) w
             = (Normal (Server.IsError t), w, [])).
Proof.
  intros Hin Hraw. split.
  - destruct (preflight_fails_if_any Error _ config args raw e Hin Hraw) as (e' & Hpre).
    rewrite (failed_preflight_sends_nothing _ _ _ _ Hpre). eexists; reflexivity.
  - destruct (normalizeFile_fails_for_both _ Error _ _ Hraw) as (e1 & Hraw1).
    destruct (preflight_fails_if_any (McpError InvalidParams) _ config args raw e1
                Hin Hraw1) as (e' & Hpre).
    rewrite Server_handleSyncUpdate_run, syncUpdate_run, Hpre.
    eexists; reflexivity.
Qed.

(** X4: the normaliser tests the content with [!file.content], so an add
    or a modify (or a record with no operation, which defaults to add) whose
    content is missing or is the empty string is invalid: a call that holds
    such a record throws without issuing a request, so the tool cannot
    create or leave an empty file. *)
Theorem empty_content_cannot_be_written config args w raw :
  raw ∈ arg_files args ->
  orDefault (raw_operation raw) "add" = "add" \/
  orDefault (raw_operation raw) "add" = "modify" ->
  falsy (raw_content raw) = true ->
  (exists e, normalizeFile (AppError VALIDATION_ERROR) raw = Abrupt e) /\
  (forall p, raw_path raw = Some p -> p <> "" ->
     normalizeFile (AppError VALIDATION_ERROR) raw
     = Abrupt (Error ("Content is required for "
                      +:+ orDefault (raw_operation raw) "add"
                      +:+ " operation on file: " +:+ p))) /\
  exists e', run net (Tool.handler config args) w = (Abrupt e', w, []).
Proof.
  intros Hin Hop Hempty.
  assert (forall p, raw_path raw = Some p -> p <> "" ->
            normalizeFile (AppError VALIDATION_ERROR) raw
            = Abrupt (Error ("Content is required for "
                             +:+ orDefault (raw_operation raw) "add"
                             +:+ " operation on file: " +:+ p))) as Hmsg.
  { intros p Hp Hne. unfold normalizeFile. rewrite Hp, Hempty.
    rewrite decide_False by exact Hne.
    destruct Hop as [-> | ->]; reflexivity. }
  assert (exists e, normalizeFile (AppError VALIDATION_ERROR) raw = Abrupt e)
    as (e & He).
  { destruct (raw_path raw) as [p|] eqn:Hp.
    - destruct (decide (p = "")) as [->|Hne].
      + unfold normalizeFile. rewrite Hp. eexists; reflexivity.
      + eexists. apply (Hmsg p eq_refl Hne).
    - unfold normalizeFile. rewrite Hp. eexists; reflexivity. }
  split; [eexists; exact He|]. split; [exact Hmsg|].
  destruct (preflight_fails_if_any Error _ config args raw e Hin He) as (e' & Hpre).
  rewrite (failed_preflight_sends_nothing _ _ _ _ Hpre). eexists; reflexivity.
Qed.

(** X5: the tool handler throws only before its first request.  When it
    throws, nothing has been sent and the store is as it was, and the error
    is an [AppError] of category [EXTERNAL_API_ERROR]: no step of the handler
    raises a [ZodError], so the [VALIDATION_ERROR] branch of its [catch] is
    never taken.  Once a request has been issued the call returns a report. *)
Theorem handler_throws_only_before_the_first_request config args w e :
  completion (run net (Tool.handler config args) w) = Abrupt e ->
  run net (Tool.handler config args) w = (Abrupt e, w, []) /\
  exists m, e = AppError EXTERNAL_API_ERROR ("Failed to sync update files: " +:+ m).
Proof.
  rewrite Tool_handler_run.
  pose proof (syncUpdate_cases net Error (AppError VALIDATION_ERROR) config args w) as H.
  destruct (preflight Error (AppError VALIDATION_ERROR) config args)
    as [[[instance params] normalizedFiles]|e0] eqn:Hpre.
  - destruct H as (plan & remote & w1 & log1 & _ & _ & H).
    destruct (dryRun params).
    + rewrite H. discriminate.
    + destruct H as (result & w2 & log2 & _ & -> & _). discriminate.
  - rewrite H. unfold completion; cbn [fst]. intros [= <-].
    split; [reflexivity|].
    apply preflight_error_is_not_zod in Hpre.
    destruct e0; try (eexists; reflexivity). destruct Hpre.
Qed.

End FailingCalls.

Lemma invalid_file_blocks_every_write_witness :
  exists e',
    run Gitea.serve
      (Tool.handler sampleConfig
         (sampleArgs [rawFile "a.txt" (Some "X") "add";
                      rawFile "docs/../b.txt" (Some "Y") "add"] None None)) ∅
    = (Abrupt e', ∅, []).
Proof.
  apply (invalid_file_blocks_every_write Gitea.serve sampleConfig
           (sampleArgs [rawFile "a.txt" (Some "X") "add";
                        rawFile "docs/../b.txt" (Some "Y") "add"] None None) ∅
           (rawFile "docs/../b.txt" (Some "Y") "add")
           (AppError VALIDATION_ERROR "Invalid file path: docs/../b.txt")).
  - apply list_elem_of_In. simpl. auto.
  - vm_compute. reflexivity.
Defined.

Lemma empty_content_cannot_be_written_witness :
  exists e',
    run Gitea.serve
      (Tool.handler sampleConfig
         (sampleArgs [rawFile "empty.txt" (Some "") "add"] None None)) ∅
    = (Abrupt e', ∅, []).
Proof.
  apply (empty_content_cannot_be_written Gitea.serve sampleConfig
           (sampleArgs [rawFile "empty.txt" (Some "") "add"] None None) ∅
           (rawFile "empty.txt" (Some "") "add")).
  - apply list_elem_of_In. simpl. auto.
  - left. reflexivity.
  - reflexivity.
Defined.

Lemma handler_throws_only_before_the_first_request_witness :
  run Gitea.serve (Tool.handler sampleConfig (sampleArgs [] None None)) ∅
  = (Abrupt (AppError EXTERNAL_API_ERROR
               "Failed to sync update files: files array is required and must not be empty"),
     ∅, []).
Proof.
  apply (handler_throws_only_before_the_first_request Gitea.serve sampleConfig
           (sampleArgs [] None None) ∅).
  vm_compute. reflexivity.
Defined.

(** ** Detection *)

Lemma classify_plannedFrom file reply e :
  classify file reply = Some e -> plannedFrom file e.
Proof.
  unfold classify, plannedFrom.
  repeat match goal with
         | |- context [match ?c with _ => _ end] => destruct c eqn:?
         end; try discriminate; intros [= <-]; simpl; auto.
Qed.

Lemma planFrom_cons file files reply replies :
  planFrom (file :: files) (reply :: replies)
  = app (option_list (classify file reply)) (planFrom files replies).
Proof. reflexivity. Qed.

Lemma planFrom_shape files : forall replies,
  sublist (map path (planFrom files replies)) (map path files) /\
  Forall (fun e => exists f, f ∈ files /\ plannedFrom f e) (planFrom files replies).
Proof.
  induction files as [|f files IH]; intros replies.
  - split; constructor.
  - destruct replies as [|reply replies]; [split; [apply sublist_nil_l|constructor]|].
    rewrite planFrom_cons. destruct (IH replies) as [Hsub Hall].
    assert (Forall (fun e => exists f0, f0 ∈ f :: files /\ plannedFrom f0 e)
              (planFrom files replies)) as Hall'.
    { eapply Forall_impl; [exact Hall|].
      intros e (f0 & Hin & Hp). exists f0. split; [right; exact Hin|exact Hp]. }
    destruct (classify f reply) as [e|] eqn:He; simpl.
    + pose proof (classify_plannedFrom _ _ _ He) as Hp.
      split.
      * destruct Hp as (-> & _). apply sublist_skip. exact Hsub.
      * constructor; [exists f; split; [left|exact Hp]|exact Hall'].
    + split; [apply sublist_cons; exact Hsub|exact Hall'].
Qed.

Lemma classify_probeFailed file reply :
  probeFailed reply = true -> classify file reply = Some file.
Proof.
  unfold probeFailed, classify. destruct reply as [r|e]; [|reflexivity].
  destruct (ok r).
  - destruct (json r); [discriminate|reflexivity].
  - intros Hst. apply negb_true_iff in Hst. rewrite Hst. reflexivity.
Qed.

Lemma classify_found file response remoteFile :
  ok response = true -> json response = Normal remoteFile ->
  content file <> Some (json_content remoteFile) \/ operation file <> modify ->
  classify file (Resolved response)
  = Some {| path := path file; content := content file;
            operation := operation file;
            sha := match operation file with
                   | add => sha file
                   | _ => Some (json_sha remoteFile)
                   end |}.
Proof.
  intros Hok Hjson Hdiff. unfold classify. rewrite Hok, Hjson.
  destruct file as [p c k s]. cbn [path content operation sha] in *.
  destruct k; cbn.
  - reflexivity.
  - destruct Hdiff as [Hd|Hd]; [|congruence].
    rewrite (bool_decide_eq_false_2 _ Hd). reflexivity.
  - reflexivity.
Qed.

Section DetectionProperties.

Context {W : Type} (net : W -> Request -> FetchResult * W).

Context (instance : GiteaInstance) (params : Params).

(** Every snapshot the loop adds comes from a probe of that path that was
    answered ok with a readable body. *)
Lemma forOf_detectFile_remote files : forall plan remote w plan' remote' w' log,
  run net (forOf (detectFile instance params) files (plan, remote)) w
  = (Normal (plan', remote'), w', log) ->
  forall p,
    remote' !! p = remote !! p \/
    exists i f response remoteFile,
      files !! i = Some f /\ path f = p /\
      log.*2 !! i = Some (Resolved response) /\
      ok response = true /\ json response = Normal remoteFile.
Proof.
  induction files as [|file files IH];
    intros plan remote w plan' remote' w' log Hrun p.
  - injection Hrun as _ <- _ _. left. reflexivity.
  - rewrite run_forOf_cons, detectFile_run in Hrun.
    set (rq := probeRequest instance params file) in *.
    destruct (forOf_detectFile_run net instance params files
                (app plan (option_list (classify file (net w rq).1)))
                (remember file (net w rq).1 remote) (net w rq).2)
      as (remote1 & w1 & log1 & Hrest & _).
    rewrite Hrest in Hrun. injection Hrun as _ <- _ <-.
    destruct (IH _ _ _ _ _ _ _ Hrest p) as [Hsame|(i & f & response & remoteFile & H)].
    + rewrite Hsame. unfold remember.
      destruct (net w rq).1 as [response|e] eqn:Hreply; [|left; reflexivity].
      destruct (ok response) eqn:Hok; [|left; reflexivity].
      destruct (json response) as [remoteFile|e] eqn:Hjson; [|left; reflexivity].
      destruct (decide (path file = p)) as [Hp|Hp].
      * right. exists 0%nat, file, response, remoteFile. repeat split; assumption.
      * left. apply lookup_insert_ne. exact Hp.
    + right. exists (S i), f, response, remoteFile. exact H.
Qed.

(** X6: detection fails open.  The loop probes every file; when the probe
    of a file is rejected, answers with a status that is neither ok nor 404,
    or answers ok with a body that cannot be read, the plan holds the
    operation at its place exactly as it was normalised (no version token is
    adopted), between what the files before it and the files after it
    contribute, and no snapshot is stored for its path unless another file
    names the same path. *)
Theorem probe_failure_keeps_the_operation before file after w :
  exists plan remote w' log,
    run net (detectChangesNeeded instance params (app before (file :: after))) w
    = (Normal (plan, remote), w', log) /\
    log.*1 = map (probeRequest instance params) (app before (file :: after)) /\
    forall reply,
      log.*2 !! length before = Some reply -> probeFailed reply = true ->
      plan = app (planFrom before (take (length before) log.*2))
                 (file :: planFrom after (drop (S (length before)) log.*2)) /\
      (path file ∉ map path (app before after) -> remote !! path file = None).
Proof.
  destruct (detectChangesNeeded_run net instance params
              (app before (file :: after)) w)
    as (remote & w' & log & Hrun & Hrq).
  eexists _, remote, w', log. split; [exact Hrun|]. split; [exact Hrq|].
  intros reply Hat Hfail. split.
  - rewrite (planFrom_split before file after _ _ Hat),
      (classify_probeFailed _ _ Hfail).
    reflexivity.
  - intros Hfresh.
    destruct (forOf_detectFile_remote _ _ _ _ _ _ _ _ Hrun (path file))
      as [Hsame|(i & f & response & remoteFile & Hi & Hp & Hlog & Hok & Hjson)];
      [rewrite Hsame; apply lookup_empty|].
    exfalso.
    destruct (decide (i = length before)) as [->|Hne].
    + rewrite Hat in Hlog. injection Hlog as ->.
      simpl in Hfail. rewrite Hok, Hjson in Hfail. discriminate.
    + apply Hfresh. rewrite <- Hp. apply (list_elem_of_fmap_2 path).
      apply list_elem_of_lookup. 
      destruct (Nat.lt_ge_cases i (length before)) as [Hlt|Hge].
      * exists i. rewrite lookup_app_l in Hi |- * by exact Hlt. exact Hi.
      * exists (i - 1)%nat.
        rewrite lookup_app_r in Hi by exact Hge.
        rewrite lookup_app_r by lia.
        destruct (i - length before)%nat as [|k] eqn:Hk; [lia|].
        simpl in Hi. replace (i - 1 - length before)%nat with k by lia.
        exact Hi.
Qed.

(** X7: version tokens are resolved from the store.  In a call with
    change detection that requests individual commits, when the probe of a
    delete, or of a modify whose content differs from the stored content,
    finds the path, the operation is planned with the version token of the
    reply, whatever token the caller supplied, and the request issued for
    it, at its place among the writes, carries that token (PUT for a modify,
    DELETE for a delete).  An add is planned as it is, and its POST carries
    no token. *)
Theorem remote_token_replaces_the_callers config args before file after w :
  preflight Error (AppError VALIDATION_ERROR) config args
  = Normal (instance, params, app before (file :: after)) ->
  detectChanges params = true -> dryRun params = false ->
  strategy params = "individual" ->
  let r := run net (Tool.handler config args) w in
  exists success summary report probes writes,
    completion r = Normal (ExecutionReport success "individual" summary report) /\
    requestLog r = app probes writes /\
    probes.*1 = map (probeRequest instance params) (app before (file :: after)) /\
    forall response remoteFile,
      probes.*2 !! length before = Some (Resolved response) ->
      ok response = true -> json response = Normal remoteFile ->
      content file <> Some (json_content remoteFile) \/ operation file <> modify ->
      let planB := planFrom before (take (length before) probes.*2) in
      let planA := planFrom after (drop (S (length before)) probes.*2) in
      needsUpdate summary = (length planB + S (length planA))%nat /\
      length writes = (length planB + S (length planA))%nat /\
      exists reply,
        writes !! length planB
        = Some (fileRequest instance params
                  (match operation file with
                   | add => POST | modify => PUT | delete => DELETE
                   end)
                  file
                  (FileBody
                     (match operation file with
                      | delete => None
                      | _ => Some (base64 (utf8 (orDefault (content file) "")))
                      end)
                     (message params) (branch params)
                     (match operation file with
                      | add => None
                      | _ => Some (json_sha remoteFile)
                      end)),
                reply).
Proof.
  intros Hpre Hdet Hwet Hind r. subst r.
  rewrite Tool_handler_run.
  destruct (syncUpdate_phases net _ _ _ _ _ _ _ w Hpre)
    as (remote & w1 & probes & _ & Hrq & _ & Hrun).
  cbv zeta in Hrun. rewrite Hdet in Hrq, Hrun. rewrite Hwet in Hrun.
  destruct Hrun as (result & w2 & writes & Hexec & ->).
  set (nf := app before (file :: after)) in *.
  set (plan := planFrom nf probes.*2) in *.
  assert (determineStrategy (strategy params) plan = "individual") as Hchosen
    by (rewrite Hind; reflexivity).
  rewrite Hchosen in Hexec |- *.
  destruct (executeUpdates_shape net instance params "individual" plan
              (initialResult params nf plan) w1)
    as (result' & w2' & writes' & Hexec' & Hhead & _ & Hshape).
  rewrite Hexec in Hexec'. injection Hexec' as <- <- <-.
  cbn [bool_decide andb] in Hshape.
  rewrite (bool_decide_eq_false_2 ("individual" = "batch")) in Hshape
    by discriminate.
  cbn [andb] in Hshape. destruct Hshape as [Hwrites _].
  unfold completion, requestLog; cbn [fst snd]. unfold executionReport.
  eexists _, result, _, probes, writes.
  split; [reflexivity|]. split; [reflexivity|]. split; [exact Hrq|].
  intros response remoteFile Hat Hok Hjson Hdiff. cbv zeta.
  set (planB := planFrom before (take (length before) probes.*2)).
  set (planA := planFrom after (drop (S (length before)) probes.*2)).
  set (planned := {| path := path file; content := content file;
                     operation := operation file;
                     sha := match operation file with
                            | add => sha file
                            | _ => Some (json_sha remoteFile)
                            end |}).
  assert (plan = app planB (planned :: planA)) as Hplan.
  { unfold plan, nf.
    rewrite (planFrom_split before file after _ _ Hat),
      (classify_found _ _ _ Hok Hjson Hdiff).
    reflexivity. }
  assert (length plan = (length planB + S (length planA))%nat) as Hlen
    by (rewrite Hplan, length_app; reflexivity).
  assert (length writes = length plan) as Hlenw.
  { rewrite <- (length_fmap fst writes), Hwrites, length_map. reflexivity. }
  split; [destruct Hhead as (_ & _ & -> & _); exact Hlen|].
  split; [rewrite Hlenw; exact Hlen|].
  assert (length planB < length writes)%nat as Hlt by lia.
  destruct (lookup_lt_is_Some_2 writes (length planB) Hlt) as [[rq reply] Hw].
  exists reply. rewrite Hw. f_equal. f_equal.
  assert (writes.*1 !! length planB = Some rq) as H1
    by (rewrite list_lookup_fmap, Hw; reflexivity).
  rewrite Hwrites, Hplan in H1.
  rewrite map_app, lookup_app_r in H1 by (rewrite length_map; lia).
  rewrite length_map, Nat.sub_diag in H1. injection H1 as <-.
  unfold individualRequest, createOrUpdateRequest, deleteRequest, planned.
  cbn [operation].
  destruct (operation file); reflexivity.
Qed.

(** X8: for every network, detection returns (it never throws), issues
    exactly one GET per file, in input order, for that file's path at the
    target branch, and no other request; the plan it returns keeps the input
    order and holds at most one entry per file, each with the path and the
    content of its file and with its operation, or add in place of modify. *)
Theorem detection_probes_each_file_once files w :
  exists plan remote w' log,
    run net (detectChangesNeeded instance params files) w
    = (Normal (plan, remote), w', log) /\
    log.*1 = map (probeRequest instance params) files /\
    Forall (fun rq => rq_method rq = GET /\ rq_ref rq = Some (branch params) /\
                      rq_body rq = NoBody) log.*1 /\
    sublist (map path plan) (map path files) /\
    (length plan <= length files)%nat /\
    Forall (fun e => exists f, f ∈ files /\ plannedFrom f e) plan.
Proof.
  destruct (detectChangesNeeded_run net instance params files w)
    as (remote & w' & log & Hrun & Hrq).
  exists (planFrom files log.*2), remote, w', log.
  destruct (planFrom_shape files log.*2) as [Hsub Hall].
  split; [exact Hrun|]. split; [exact Hrq|].
  split.
  { rewrite Hrq. clear. induction files; simpl; constructor; auto. }
  split; [exact Hsub|]. split; [|exact Hall].
  apply sublist_length in Hsub. rewrite !length_map in Hsub. exact Hsub.
Qed.

End DetectionProperties.

Lemma probe_failure_keeps_the_operation_witness :
  let down := fun (w : unit) (rq : Request) =>
    (Resolved {| status := 500; statusText := "Internal Server Error";
                 json := Gitea.noJson; text := Normal "boom" |}, w) in
  let files := [fileOp "a.txt" (Some "X") modify; fileOp "b.txt" None delete] in
  exists remote w' log,
    run down (detectChangesNeeded sampleInstance sampleParams files) tt
    = (Normal (files, remote), w', log) /\
    remote !! "a.txt" = None.
Proof.
  intros down files.
  destruct (probe_failure_keeps_the_operation down sampleInstance sampleParams
              [] (fileOp "a.txt" (Some "X") modify)
              [fileOp "b.txt" None delete] tt)
    as (plan & remote & w' & log & Hrun & Hrq & Hat).
  cbn [app] in Hrun. fold files in Hrun.
  assert (log.*2 = [(down tt (probeRequest sampleInstance sampleParams
                                (fileOp "a.txt" (Some "X") modify))).1;
                    (down tt (probeRequest sampleInstance sampleParams
                                (fileOp "b.txt" None delete))).1]) as Hlog.
  { revert Hrun. vm_compute. intros [= _ _ _ <-]. reflexivity. }
  destruct (Hat _ ltac:(rewrite Hlog; reflexivity) eq_refl) as [Hplan Hremote].
  exists remote, w', log. split.
  - rewrite Hrun, Hplan, Hlog. reflexivity.
  - apply Hremote. vm_compute. intros Hin. inversion Hin as [|? ? ? Hin']; subst.
    inversion Hin'.
Defined.

Lemma remote_token_replaces_the_callers_witness :
  let raw := {| raw_path := Some "a.txt"; raw_content := Some "new";
                raw_operation := Some "modify"; raw_sha := Some "stale" |} in
  let file := {| path := "a.txt"; content := Some "new"; operation := modify;
                 sha := Some "stale" |} in
  let args := sampleArgs [raw] (Some "individual") None in
  let r := run Gitea.serve (Tool.handler sampleConfig args)
             {[ ("main", "a.txt") := "old" ]} in
  exists success summary report,
    completion r = Normal (ExecutionReport success "individual" summary report) /\
    (requestLog r).*1
    = [probeRequest sampleInstance (paramsOf args) file;
       fileRequest sampleInstance (paramsOf args) PUT file
         (FileBody (Some (base64 "new")) "sync" "main"
            (Some (Gitea.blobSha "old")))].
Proof.
  intros raw file args r.
  destruct (remote_token_replaces_the_callers Gitea.serve sampleInstance
              (paramsOf args) sampleConfig args [] file []
              {[ ("main", "a.txt") := "old" ]}
              eq_refl eq_refl eq_refl eq_refl)
    as (success & summary & report & probes & writes & Hc & Hlog & Hrq & Hat).
  fold r in Hc, Hlog.
  exists success, summary, report. split; [exact Hc|].
  assert (probes.*2 = [Gitea.found "old"]) as Hreplies.
  { destruct probes as [|[rq1 reply1] [|? ?]]; try discriminate Hrq.
    revert Hlog. vm_compute. intros [= _ <- _]. reflexivity. }
  destruct (Hat _ {| json_sha := Gitea.blobSha "old"; json_content := "old" |}
              ltac:(rewrite Hreplies; reflexivity) eq_refl eq_refl
              ltac:(left; discriminate))
    as (_ & Hlen & reply & Hw).
  rewrite Hreplies in Hlen, Hw. cbn in Hlen, Hw.
  destruct writes as [|[rq2 reply2] [|? ?]]; try discriminate Hlen.
  injection Hw as -> _.
  rewrite Hlog, fmap_app, Hrq. reflexivity.
Defined.

(** ** The summary adds up *)

Lemma withStatus_map_success files :
  withStatus "success" (map successDetail files) = map successDetail files /\
  withStatus "failed" (map successDetail files) = [].
Proof.
  unfold withStatus. induction files as [|f fs [IH1 IH2]]; [split; reflexivity|].
  simpl. rewrite !filter_cons. simpl op_status.
  rewrite decide_True by reflexivity. rewrite decide_False by discriminate.
  rewrite IH1, IH2. split; reflexivity.
Qed.

Lemma withStatus_map_failed error files :
  withStatus "failed" (map (failedDetail error) files) = map (failedDetail error) files /\
  withStatus "success" (map (failedDetail error) files) = [].
Proof.
  unfold withStatus. induction files as [|f fs [IH1 IH2]]; [split; reflexivity|].
  simpl. rewrite !filter_cons. simpl op_status.
  rewrite decide_True by reflexivity. rewrite decide_False by discriminate.
  rewrite IH1, IH2. split; reflexivity.
Qed.

Lemma outcomeDetail_status file reply :
  op_status (outcomeDetail file reply) = if accepted reply then "success" else "failed".
Proof. unfold outcomeDetail. destruct (accepted reply); reflexivity. Qed.

Lemma withStatus_outcomes files : forall replies,
  length replies = length files ->
  length (withStatus "failed" (zip_with outcomeDetail files replies))
  = rejections replies /\
  (length (withStatus "success" (zip_with outcomeDetail files replies))
   + rejections replies = length files)%nat.
Proof.
  unfold withStatus, rejections.
  induction files as [|f fs IH]; intros [|reply replies] Hlen;
    try discriminate; [split; reflexivity|].
  simpl in Hlen. destruct (IH replies ltac:(lia)) as [IHf IHs].
  simpl zip_with. rewrite !filter_cons, outcomeDetail_status.
  destruct (accepted reply) eqn:Hacc.
  - rewrite (decide_False (P := "success" = "failed")) by discriminate.
    rewrite (decide_True (P := "success" = "success")) by reflexivity.
    rewrite (decide_False (P := true = false)) by discriminate.
    simpl length. split; lia.
  - rewrite (decide_True (P := "failed" = "failed")) by reflexivity.
    rewrite (decide_False (P := "failed" = "success")) by discriminate.
    rewrite (decide_True (P := false = false)) by reflexivity.
    simpl length. split; lia.
Qed.

Section SummaryProperties.

Context {W : Type} (net : W -> Request -> FetchResult * W).

Lemma executeUpdates_counts instance params chosen plan result w :
  processed result = 0%nat -> succeeded result = 0%nat -> failed result = 0%nat ->
  operations (details result) = [] ->
  exists result' w' log,
    run net (executeUpdates instance params chosen plan result) w
    = (Normal result', w', log) /\
    countsAddUp (length plan) result'.
Proof.
  intros Hp Hs Hf Hops. unfold executeUpdates, countsAddUp.
  destruct (bool_decide (chosen = "batch") && bool_decide (1 < length plan)%nat).
  - destruct (executeBatchUpdate_run net instance params plan result w)
      as (result' & Hrun & _ & Hproc & Hcase).
    eexists _, _, _. split; [exact Hrun|].
    split; [exact Hproc|].
    destruct (accepted _).
    + destruct Hcase as (Hs' & Hf' & Hops'). rewrite Hops', Hops, Hs', Hf', Hf.
      cbn [app]. destruct (withStatus_map_success plan) as [-> ->].
      rewrite length_map. repeat split; simpl; lia.
    + destruct Hcase as (Hf' & Hs' & error & Hops'). rewrite Hops', Hops, Hs', Hf', Hs.
      cbn [app]. destruct (withStatus_map_failed error plan) as [-> ->].
      rewrite length_map. repeat split; simpl; lia.
  - destruct (executeIndividualUpdates_run net instance params plan result w)
      as (result' & w' & log & Hrun & Hrq & _ & Hops' & Hproc & Hfail & Hsucc & Hle).
    exists result', w', log. split; [exact Hrun|].
    assert (length log.*2 = length plan) as Hlen.
    { rewrite length_fmap, <- (length_fmap fst log), Hrq, length_map. reflexivity. }
    destruct (withStatus_outcomes plan log.*2 Hlen) as [Hcf Hcs].
    rewrite Hops', Hops. cbn [app]. rewrite Hcf.
    rewrite Hproc, Hfail, Hsucc, Hp, Hs, Hf.
    repeat split; try lia.
    rewrite length_zip_with. lia.
Qed.

Lemma validate_length invalidPath raws : forall files,
  validateAndNormalizeFiles invalidPath raws = Normal files ->
  length files = length raws.
Proof.
  induction raws as [|raw raws IH]; intros files.
  - intros [= <-]. reflexivity.
  - rewrite validate_cons.
    destruct (normalizeFile invalidPath raw); [|discriminate].
    destruct (validateAndNormalizeFiles invalidPath raws) as [fs|]; [|discriminate].
    intros [= <-]. simpl. rewrite (IH fs eq_refl). reflexivity.
Qed.

Lemma planning_length instance params normalizedFiles w :
  (length (completion_plan (run net (planning instance params normalizedFiles) w))
   <= length normalizedFiles)%nat.
Proof.
  unfold completion_plan.
  destruct (planning_run net instance params normalizedFiles w)
    as (plan & remote & w1 & log1 & -> & _ & Hshape).
  cbn [fst]. destruct (detectChanges params).
  - destruct Hshape as [_ ->].
    destruct (planFrom_shape normalizedFiles log1.*2) as [Hsub _].
    apply sublist_length in Hsub. rewrite !length_map in Hsub. exact Hsub.
  - destruct Hshape as (-> & _). reflexivity.
Qed.

(** X9: the counters of every report agree with one another.  For an
    executed call: [discovered] and [analyzed] are the number of input
    records, [needsUpdate] is at most [analyzed], [processed] equals
    [needsUpdate], [succeeded + failed] equals [processed], there is one outcome
    per planned operation, [succeeded] and [failed] count the outcomes with
    status success and failed, and [success] says that [failed] is 0.  For a
    dry run: the same header, no counter moves, and there is one
    would-execute outcome and one planned file per planned operation. *)
Theorem summary_counts_add_up config args w :
  match completion (run net (Tool.handler config args) w) with
  | Normal (ExecutionReport success chosen summary report) =>
      discovered summary = length (arg_files args) /\
      analyzed summary = length (arg_files args) /\
      (needsUpdate summary <= analyzed summary)%nat /\
      countsAddUp (needsUpdate summary) summary /\
      rd_operations report = operations (details summary) /\
      (success = true <-> failed summary = 0%nat)
  | Normal (DryRunReport chosen summary planned) =>
      discovered summary = length (arg_files args) /\
      analyzed summary = length (arg_files args) /\
      (needsUpdate summary <= analyzed summary)%nat /\
      processed summary = 0%nat /\ succeeded summary = 0%nat /\
      failed summary = 0%nat /\
      length planned = needsUpdate summary /\
      length (operations (details summary)) = needsUpdate summary /\
      Forall (fun d => op_status d = "would-execute") (operations (details summary))
  | Abrupt _ => True
  end.
Proof.
  rewrite Tool_handler_run, syncUpdate_run.
  destruct (preflight Error (AppError VALIDATION_ERROR) config args)
    as [[[instance params] nf]|e] eqn:Hpre; [|exact I].
  pose proof (validate_length _ _ _ (preflight_files _ _ _ _ _ _ _ Hpre)) as Hlen.
  pose proof (preflight_params _ _ _ _ _ _ _ Hpre) as ->.
  pose proof (planning_length instance (paramsOf args) nf w) as Hle.
  unfold completion_plan in Hle.
  destruct (run net (planning instance (paramsOf args) nf) w)
    as [[[[plan remote]|e] w1] log1]; [|exact I].
  cbn [fst] in Hle |- *.
  destruct (dryRun (paramsOf args)).
  - unfold completion, dryRunReport; cbn [fst].
    split; [reflexivity|]. split; [exact Hlen|].
    split; [simpl; lia|]. do 3 (split; [reflexivity|]).
    split; [apply length_map|]. split; [simpl; apply length_map|].
    simpl. clear. induction plan; simpl; constructor; auto.
  - destruct (executeUpdates_counts instance (paramsOf args)
                (determineStrategy (strategy (paramsOf args)) plan) plan
                (initialResult (paramsOf args) nf plan) w1
                eq_refl eq_refl eq_refl eq_refl)
      as (result & w2 & log2 & Hrun & Hcounts).
    destruct (executeUpdates_run net instance (paramsOf args)
                (determineStrategy (strategy (paramsOf args)) plan) plan
                (initialResult (paramsOf args) nf plan) w1)
      as (result0 & w20 & log20 & Hrun0 & Hhead & _).
    rewrite Hrun in Hrun0. injection Hrun0 as <- <- <-.
    rewrite Hrun. unfold completion, executionReport; cbn [fst].
    destruct Hhead as (Hd & Ha & Hn & _). simpl in Hd, Ha, Hn.
    rewrite Hd, Ha, Hn.
    split; [reflexivity|]. split; [exact Hlen|]. split; [lia|].
    split; [exact Hcounts|]. split; [reflexivity|].
    split; [apply bool_decide_eq_true_1|apply bool_decide_eq_true_2].
Qed.

End SummaryProperties.

(** ** Calls without change detection *)

Section WithoutDetection.

Context {W : Type} (net : W -> Request -> FetchResult * W).

(** X10: with [detectChanges] set to false no probe is issued: the plan is
    the normalised input itself, with the version tokens the caller supplied.
    A dry run then issues no request at all; an execution issues only the
    write requests of the whole input (one combined commit, or one request
    per record in input order), and [needsUpdate] is the number of records. *)
Theorem without_detection_nothing_is_probed config args instance params nf w :
  preflight Error (AppError VALIDATION_ERROR) config args
  = Normal (instance, params, nf) ->
  detectChanges params = false ->
  let r := run net (Tool.handler config args) w in
  if dryRun params
  then r = (Normal (dryRunReport params nf nf), w, [])
  else exists result w' log,
         r = (Normal (executionReport params
                        (determineStrategy (strategy params) nf) result), w', log) /\
         needsUpdate result = length nf /\
         Forall (fun rq => isWrite rq = true) log.*1 /\
         (log.*1 = [batchRequest instance params nf] \/
          log.*1 = map (individualRequest instance params) nf).
Proof.
  intros Hpre Hoff r. subst r.
  rewrite Tool_handler_run, syncUpdate_run, Hpre.
  unfold planning. rewrite Hoff. cbn [run fst].
  destruct (dryRun params); [reflexivity|].
  destruct (executeUpdates_run net instance params
              (determineStrategy (strategy params) nf) nf
              (initialResult params nf nf) w)
    as (result & w' & log & -> & Hhead & _ & Hshape & Hwrites).
  exists result, w', log. split; [reflexivity|].
  split; [destruct Hhead as (_ & _ & -> & _); reflexivity|].
  split; assumption.
Qed.

End WithoutDetection.

Lemma without_detection_nothing_is_probed_witness :
  let args := {| arg_instanceId := Some "main"; arg_owner := Some "alice";
                 arg_repository := Some "project";
                 arg_files := [rawFile "a.txt" (Some "X") "modify"];
                 arg_message := Some "sync"; arg_branch := None;
                 arg_strategy := None; arg_conflictResolution := None;
                 arg_detectChanges := Some false; arg_dryRun := Some true |} in
  run Gitea.serve (Tool.handler sampleConfig args) ∅
  = (Normal (dryRunReport (paramsOf args) [fileOp "a.txt" (Some "X") modify]
               [fileOp "a.txt" (Some "X") modify]), ∅, []).
Proof.
  intros args.
  apply (without_detection_nothing_is_probed Gitea.serve sampleConfig args
           sampleInstance (paramsOf args) [fileOp "a.txt" (Some "X") modify] ∅);
    reflexivity.
Defined.

(** ** The two copies of the handler *)

Lemma normalizeFile_agree raw :
  match normalizeFile (AppError VALIDATION_ERROR) raw, normalizeFile Error raw with
  | Normal f, Normal f' => f = f'
  | Abrupt e, Abrupt e' => messageOf e = messageOf e'
  | _, _ => False
  end.
Proof.
  unfold normalizeFile.
  destruct (raw_path raw) as [p|]; [|reflexivity].
  destruct (decide (p = "")); [reflexivity|].
  destruct (falsy (raw_content raw));
    destruct (includes ".." (replaceBackslashes p) || startsWith "/" (replaceBackslashes p));
    repeat (destruct (decide (orDefault (raw_operation raw) "add" = _));
            try reflexivity).
Qed.

Lemma validate_agree raws :
  match validateAndNormalizeFiles (AppError VALIDATION_ERROR) raws,
        validateAndNormalizeFiles Error raws with
  | Normal fs, Normal fs' => fs = fs'
  | Abrupt e, Abrupt e' => messageOf e = messageOf e'
  | _, _ => False
  end.
Proof.
  induction raws as [|raw raws IH]; [reflexivity|].
  rewrite !validate_cons. pose proof (normalizeFile_agree raw) as H.
  destruct (normalizeFile (AppError VALIDATION_ERROR) raw) as [f|e],
           (normalizeFile Error raw) as [f'|e']; try contradiction; [|exact H].
  subst f'.
  destruct (validateAndNormalizeFiles (AppError VALIDATION_ERROR) raws),
           (validateAndNormalizeFiles Error raws); try contradiction; congruence.
Qed.

Lemma preflight_agree config args :
  match preflight Error (AppError VALIDATION_ERROR) config args,
        preflight (McpError InvalidParams) Error config args with
  | Normal x, Normal x' => x = x'
  | Abrupt e, Abrupt e' =>
      messageOf e'
      = (if instanceUnknown config args
         then "MCP error -32602: " +:+ messageOf e else messageOf e) /\
      (instanceUnknown config args = true ->
       e = Error ("Gitea instance '" +:+ orDefault (arg_instanceId args) ""
                  +:+ "' not found"))
  | _, _ => False
  end.
Proof.
  unfold preflight, instanceUnknown.
  destruct (falsy (arg_instanceId args)); [split; [reflexivity|discriminate]|].
  destruct (falsy (arg_owner args)); [split; [reflexivity|discriminate]|].
  destruct (falsy (arg_repository args)); [split; [reflexivity|discriminate]|].
  destruct (falsy (arg_message args)); [split; [reflexivity|discriminate]|].
  destruct (bool_decide (length (arg_files args) = 0%nat));
    [split; [reflexivity|discriminate]|].
  cbv zeta. cbn [negb andb].
  destruct (List.find _ config); [|split; reflexivity].
  pose proof (validate_agree (files (paramsOf args))) as H.
  destruct (validateAndNormalizeFiles (AppError VALIDATION_ERROR) _),
           (validateAndNormalizeFiles Error _); try contradiction;
    [congruence|split; [symmetry; exact H|discriminate]].
Qed.

Section TwoCopies.

Context {W : Type} (net : W -> Request -> FetchResult * W).

(** X11: the handler of the tool module and the handler kept in the server
    class do the same thing.  For every call, network and state they issue
    the same requests and leave the same state; when one returns a report the
    other returns the same report; when the tool handler throws (its error
    always being [Failed to sync update files: m]), the server handler
    returns the error reply [Error sync updating files: m] for the same [m],
    except when the call names an unknown instance: the server copy throws
    an [McpError] there, so its reply is
    [Error sync updating files: MCP error -32602: m], where [m] says that the
    instance was not found.  The server handler never throws. *)
Theorem the_two_handlers_agree config args w :
  match run net (Tool.handler config args) w,
        run net (Server.handleSyncUpdate config args) w with
  | (Normal output, w1, log1), (Normal (Server.Content output'), w2, log2) =>
      output' = output /\ w2 = w1 /\ log2 = log1
  | (Abrupt e, w1, log1), (Normal (Server.IsError t), w2, log2) =>
      w2 = w1 /\ log2 = log1 /\
      exists m, e = AppError EXTERNAL_API_ERROR
                      ("Failed to sync update files: " +:+ m) /\
                t = "Error sync updating files: "
                    +:+ (if instanceUnknown config args
                         then "MCP error -32602: " +:+ m else m) /\
                (instanceUnknown config args = true ->
                 m = "Gitea instance '" +:+ orDefault (arg_instanceId args) ""
                     +:+ "' not found")
  | _, _ => False
  end.
Proof.
  rewrite Tool_handler_run, Server_handleSyncUpdate_run, !syncUpdate_run.
  pose proof (preflight_agree config args) as H.
  pose proof (preflight_error_is_not_zod config args) as Hzod.
  destruct (preflight Error (AppError VALIDATION_ERROR) config args)
    as [[[instance params] nf]|e],
     (preflight (McpError InvalidParams) Error config args)
    as [[[instance' params'] nf']|e']; try contradiction.
  - injection H as <- <- <-.
    destruct (planning_run net instance params nf w)
      as (plan & remote & w1 & log1 & -> & _).
    cbn [fst]. destruct (dryRun params); [repeat split|].
    destruct (executeUpdates_run net instance params
                (determineStrategy (strategy params) plan) plan
                (initialResult params nf plan) w1)
      as (result & w2 & log2 & -> & _).
    repeat split.
  - specialize (Hzod e eq_refl). destruct H as [Htext Hunknown].
    split; [reflexivity|]. split; [reflexivity|].
    exists (messageOf e). rewrite Htext.
    split; [destruct e; try reflexivity; destruct Hzod|].
    split; [reflexivity|].
    intros Hu. rewrite (Hunknown Hu). reflexivity.
Qed.

End TwoCopies.

(** * Properties of the upload tool *)

Section UploadRuns.

Context {W : Type} (net : W -> Request -> FetchResult * W).

Lemma uploadOne_run instance o r m b results file w :
  let rq := Upload.uploadRequest instance o r m b file in
  run net (Upload.uploadOne instance o r m b results file) w
  = (Normal (push results (uploadResult file (net w rq).1)),
     (net w rq).2, [(rq, (net w rq).1)]).
Proof.
  intros rq. subst rq. unfold Upload.uploadOne, uploadResult.
  rewrite run_tryCatch, run_bind, run_fetch.
  destruct (net w _).1 as [response|e]; simpl accepted; simpl failureText;
    [|reflexivity].
  destruct (ok response); [reflexivity|].
  rewrite run_bind, run_liftC. destruct (text response); reflexivity.
Qed.

Lemma upload_loop_run instance o r m b files : forall results w,
  exists w' log,
    run net (forOf (Upload.uploadOne instance o r m b) files results) w
    = (Normal (app results (zip_with uploadResult files log.*2)), w', log) /\
    log.*1 = map (Upload.uploadRequest instance o r m b) files.
Proof.
  induction files as [|file files IH]; intros results w.
  - exists w, []. simpl. rewrite app_nil_r. auto.
  - rewrite run_forOf_cons, uploadOne_run.
    set (rq := Upload.uploadRequest instance o r m b file).
    destruct (IH (push results (uploadResult file (net w rq).1)) (net w rq).2)
      as (w' & log & -> & Hrq).
    exists w', ((rq, (net w rq).1) :: log).
    rewrite !fmap_cons. cbn [fst snd]. split; [|rewrite Hrq; reflexivity].
    unfold push. simpl. rewrite <- app_assoc. reflexivity.
Qed.

Lemma serverUploadOne_run instance args b results file w :
  let rq := Upload.uploadRequest instance (ServerUpload.ua_owner args)
              (ServerUpload.ua_repository args) (ServerUpload.ua_message args) b file in
  run net (ServerUpload.uploadOne instance args b results file) w
  = (Normal (push results (serverUploadResult file (net w rq).1)),
     (net w rq).2, [(rq, (net w rq).1)]).
Proof.
  intros rq. subst rq. unfold ServerUpload.uploadOne, serverUploadResult.
  rewrite run_tryCatch, run_bind, run_fetch.
  destruct (net w _).1 as [response|e]; simpl accepted; simpl failureText;
    [|reflexivity].
  destruct (ok response); [reflexivity|].
  rewrite run_bind, run_liftC. destruct (text response); reflexivity.
Qed.

Lemma server_upload_loop_run instance args b files : forall results w,
  exists w' log,
    run net (forOf (ServerUpload.uploadOne instance args b) files results) w
    = (Normal (app results (zip_with serverUploadResult files log.*2)), w', log) /\
    log.*1 = map (Upload.uploadRequest instance (ServerUpload.ua_owner args)
                    (ServerUpload.ua_repository args) (ServerUpload.ua_message args) b)
                 files.
Proof.
  induction files as [|file files IH]; intros results w.
  - exists w, []. simpl. rewrite app_nil_r. auto.
  - rewrite run_forOf_cons, serverUploadOne_run.
    set (rq := Upload.uploadRequest instance _ _ _ b file).
    destruct (IH (push results (serverUploadResult file (net w rq).1)) (net w rq).2)
      as (w' & log & -> & Hrq).
    exists w', ((rq, (net w rq).1) :: log).
    rewrite !fmap_cons. cbn [fst snd]. split; [|rewrite Hrq; reflexivity].
    unfold push. simpl. rewrite <- app_assoc. reflexivity.
Qed.

End UploadRuns.

Lemma uploadResult_status file reply :
  Upload.ur_status (uploadResult file reply)
  = if accepted reply then "fulfilled" else "rejected".
Proof. unfold uploadResult. destruct (accepted reply); reflexivity. Qed.

Lemma serverUploadResult_status file reply :
  ServerUpload.fr_status (serverUploadResult file reply)
  = if accepted reply then "success" else "failed".
Proof. unfold serverUploadResult. destruct (accepted reply); reflexivity. Qed.

Lemma upload_results_counts files : forall replies,
  length replies = length files ->
  length (Upload.withStatus "rejected" (zip_with uploadResult files replies))
  = rejections replies /\
  (length (Upload.withStatus "fulfilled" (zip_with uploadResult files replies))
   + rejections replies = length files)%nat /\
  map (fun r => orDefault (Upload.ur_reason r) "Unknown error")
      (Upload.withStatus "rejected" (zip_with uploadResult files replies))
  = failureTexts replies.
Proof.
  unfold Upload.withStatus, rejections, failureTexts.
  induction files as [|f fs IH]; intros [|reply replies] Hlen;
    try discriminate; [repeat split|].
  simpl in Hlen. destruct (IH replies ltac:(lia)) as (IHf & IHs & IHt).
  simpl zip_with. rewrite !filter_cons, uploadResult_status.
  destruct (accepted reply) eqn:Hacc.
  - rewrite (decide_False (P := "fulfilled" = "rejected")) by discriminate.
    rewrite (decide_True (P := "fulfilled" = "fulfilled")) by reflexivity.
    rewrite (decide_False (P := true = false)) by discriminate.
    simpl length. repeat split; try lia. exact IHt.
  - rewrite (decide_True (P := "rejected" = "rejected")) by reflexivity.
    rewrite (decide_False (P := "rejected" = "fulfilled")) by discriminate.
    rewrite (decide_True (P := false = false)) by reflexivity.
    simpl length. repeat split; try lia.
    simpl map. rewrite IHt. unfold uploadResult. rewrite Hacc. reflexivity.
Qed.

Lemma server_upload_results_counts files : forall replies,
  length replies = length files ->
  length (ServerUpload.withStatus "failed" (zip_with serverUploadResult files replies))
  = rejections replies /\
  (length (ServerUpload.withStatus "success" (zip_with serverUploadResult files replies))
   + rejections replies = length files)%nat.
Proof.
  unfold ServerUpload.withStatus, rejections.
  induction files as [|f fs IH]; intros [|reply replies] Hlen;
    try discriminate; [repeat split|].
  simpl in Hlen. destruct (IH replies ltac:(lia)) as (IHf & IHs).
  simpl zip_with. rewrite !filter_cons, serverUploadResult_status.
  destruct (accepted reply) eqn:Hacc.
  - rewrite (decide_False (P := "success" = "failed")) by discriminate.
    rewrite (decide_True (P := "success" = "success")) by reflexivity.
    rewrite (decide_False (P := true = false)) by discriminate.
    simpl length. split; lia.
  - rewrite (decide_True (P := "failed" = "failed")) by reflexivity.
    rewrite (decide_False (P := "failed" = "success")) by discriminate.
    rewrite (decide_True (P := false = false)) by reflexivity.
    simpl length. split; lia.
Qed.

Lemma mapM_Normal_length {A B} (f : A -> Completion B) (l : list A) : forall l',
  mapM f l = Normal l' -> length l' = length l.
Proof.
  induction l as [|x l IH]; intros l'.
  - intros [= <-]. reflexivity.
  - simpl. destruct (f x) as [y|e]; [|discriminate]. simpl.
    destruct (mapM f l) as [ys|e]; [|discriminate].
    intros [= <-]. simpl. rewrite (IH ys eq_refl). reflexivity.
Qed.

Lemma uploadPreflight_error_is_not_zod config args e :
  uploadPreflight config args = Abrupt e ->
  match e with ZodError _ _ => False | _ => True end.
Proof.
  unfold uploadPreflight.
  repeat match goal with |- context [if ?c then _ else _] => destruct c end;
    try (intros [= <-]; exact I).
  destruct (mapM Upload.validateFile (arg_files args)) as [vs|e1] eqn:Hval.
  - destruct (List.find _ config); [discriminate|intros [= <-]; exact I].
  - intros [= <-]. clear -Hval. revert e1 Hval.
    induction (arg_files args) as [|raw raws IH]; intros e Hval; [discriminate|].
    simpl in Hval.
    destruct (Upload.validateFile raw) as [v|e1] eqn:Hv.
    + simpl in Hval. destruct (mapM Upload.validateFile raws) as [vs|e2];
        [discriminate|].
      injection Hval as <-. apply IH. reflexivity.
    + simpl in Hval. injection Hval as <-. unfold Upload.validateFile in Hv.
      repeat match type of Hv with
             | context [match ?c with _ => _ end] => destruct c
             end; try discriminate; injection Hv as <-; exact I.
Qed.

Section UploadProperties.

Context {W : Type} (net : W -> Request -> FetchResult * W).

Lemma uploadFiles_run config args w :
  run net (Upload.uploadFiles config args) w =
  match uploadPreflight config args with
  | Abrupt e => (Abrupt e, w, [])
  | Normal (instance, validatedFiles) =>
      match run net (forOf (Upload.uploadOne instance
                              (orDefault (arg_owner args) "")
                              (orDefault (arg_repository args) "")
                              (orDefault (arg_message args) "")
                              (orDefault (arg_branch args) "main"))
                       validatedFiles []) w with
      | (Normal results, w', log) =>
          (Normal
             {| Upload.success :=
                  bool_decide (length (Upload.withStatus "rejected" results) = 0%nat);
                Upload.summary :=
                  {| Upload.totalFiles := length (arg_files args);
                     Upload.uploaded := length (Upload.withStatus "fulfilled" results);
                     Upload.failedFiles := length (Upload.withStatus "rejected" results) |};
                Upload.failures :=
                  unlessEmpty
                    (map (fun r => orDefault (Upload.ur_reason r) "Unknown error")
                         (Upload.withStatus "rejected" results));
                Upload.out_repository :=
                  orDefault (arg_owner args) "" +:+ "/"
                  +:+ orDefault (arg_repository args) "";
                Upload.out_branch := orDefault (arg_branch args) "main";
                Upload.out_commitMessage := orDefault (arg_message args) "" |},
           w', log)
      | (Abrupt e, w', log) => (Abrupt e, w', log)
      end
  end.
Proof.
  unfold Upload.uploadFiles, uploadPreflight.
  rewrite run_required. destruct (falsy (arg_instanceId args)); [reflexivity|].
  rewrite run_required. destruct (falsy (arg_owner args)); [reflexivity|].
  rewrite run_required. destruct (falsy (arg_repository args)); [reflexivity|].
  rewrite run_required. destruct (falsy (arg_message args)); [reflexivity|].
  destruct (bool_decide (length (arg_files args) = 0%nat)); [reflexivity|].
  rewrite run_bind, run_liftC.
  destruct (mapM Upload.validateFile (arg_files args)) as [vs|e]; [|reflexivity].
  destruct (List.find _ config) as [instance|]; [|reflexivity].
  rewrite run_bind.
  destruct (run net (forOf _ vs []) w) as [[[results|e] w'] log];
    simpl; rewrite ?app_nil_r; reflexivity.
Qed.

(** X12: the upload tool validates every record and looks the instance up
    before its first request: when it throws, nothing has been sent, and the
    error has category [EXTERNAL_API_ERROR].  When it returns, it has issued
    exactly one POST per input record, in input order, whatever the earlier
    replies were; [totalFiles] is the number of records, [uploaded + failed]
    equals [totalFiles], [failed] counts the replies that were not accepted,
    [success] says that [failed] is 0, and [failures] lists the error text of
    each such reply, in order, or is absent when there is none. *)
Theorem upload_sends_one_post_per_file config args w :
  match run net (Upload.handler config args) w with
  | (Abrupt e, w', log) =>
      w' = w /\ log = [] /\
      exists m, e = AppError EXTERNAL_API_ERROR ("Failed to upload files: " +:+ m)
  | (Normal out, w', log) =>
      exists instance validatedFiles,
        instance ∈ config /\
        mapM Upload.validateFile (arg_files args) = Normal validatedFiles /\
        log.*1 = map (uploadRequestOf instance args) validatedFiles /\
        length log = length (arg_files args) /\
        Upload.totalFiles (Upload.summary out) = length (arg_files args) /\
        (Upload.uploaded (Upload.summary out) + Upload.failedFiles (Upload.summary out)
         = Upload.totalFiles (Upload.summary out))%nat /\
        Upload.failedFiles (Upload.summary out) = rejections log.*2 /\
        Upload.success out
        = bool_decide (Upload.failedFiles (Upload.summary out) = 0%nat) /\
        Upload.failures out = unlessEmpty (failureTexts log.*2)
  end.
Proof.
  unfold Upload.handler. rewrite run_tryCatch, uploadFiles_run.
  destruct (uploadPreflight config args) as [[instance vs]|e] eqn:Hpre.
  - destruct (upload_loop_run net instance (orDefault (arg_owner args) "")
                (orDefault (arg_repository args) "") (orDefault (arg_message args) "")
                (orDefault (arg_branch args) "main") vs [] w)
      as (w' & log & -> & Hrq).
    cbn [app].
    assert (mapM Upload.validateFile (arg_files args) = Normal vs /\ instance ∈ config)
      as [Hval Hin].
    { revert Hpre. unfold uploadPreflight.
      repeat match goal with |- context [if ?c then _ else _] => destruct c end;
        try discriminate.
      destruct (mapM Upload.validateFile (arg_files args)); [|discriminate].
      destruct (List.find _ config) as [i|] eqn:Hfind; [|discriminate].
      intros [= <- <-]. split; [reflexivity|].
      apply find_some in Hfind as [Hin _]. apply list_elem_of_In, Hin. }
    pose proof (mapM_Normal_length _ _ _ Hval) as Hlen.
    assert (length log.*2 = length vs) as Hlen2.
    { rewrite length_fmap, <- (length_fmap fst log), Hrq, length_map. reflexivity. }
    destruct (upload_results_counts vs log.*2 Hlen2) as (Hrej & Hful & Htexts).
    exists instance, vs. cbn [Upload.summary Upload.totalFiles Upload.uploaded
                               Upload.failedFiles Upload.success Upload.failures].
    rewrite Hrej, Htexts.
    split; [exact Hin|]. split; [exact Hval|]. split; [exact Hrq|].
    split; [rewrite length_fmap in Hlen2; lia|].
    split; [reflexivity|]. split; [lia|]. repeat split.
  - pose proof (uploadPreflight_error_is_not_zod _ _ _ Hpre) as Hzod.
    destruct e; try destruct Hzod; simpl;
      (split; [reflexivity|]; split; [reflexivity|]; eexists; reflexivity).
Qed.

(** X13: the handler of the server class does not validate paths.  When the
    instance is known it issues one POST per file, in input order, for the
    path exactly as the caller gave it (a parent-traversal or absolute path
    included), and returns one result per file with counters that add up;
    when the instance is unknown it issues no request.  It never throws. *)
Theorem server_upload_sends_paths_as_given config args w :
  match List.find (fun inst => bool_decide (Some (id inst) = ServerUpload.ua_instanceId args))
                  config with
  | None =>
      exists t, run net (ServerUpload.handleUploadFiles config args) w
                = (Normal (ServerUpload.IsError t), w, [])
  | Some instance =>
      exists w' log,
        run net (ServerUpload.handleUploadFiles config args) w
        = (Normal
             (ServerUpload.Content
                (bool_decide (rejections log.*2 = 0%nat))
                {| Upload.totalFiles := length (ServerUpload.ua_files args);
                   Upload.uploaded :=
                     length (ServerUpload.ua_files args) - rejections log.*2;
                   Upload.failedFiles := rejections log.*2 |}
                (zip_with serverUploadResult (ServerUpload.ua_files args) log.*2)),
           w', log) /\
        log.*1 = map (Upload.uploadRequest instance (ServerUpload.ua_owner args)
                        (ServerUpload.ua_repository args) (ServerUpload.ua_message args)
                        (orDefault (ServerUpload.ua_branch args) "main"))
                     (ServerUpload.ua_files args) /\
        map (fun rq => rq_path rq) log.*1
        = map (fun f => Some (Upload.vf_path f)) (ServerUpload.ua_files args)
  end.
Proof.
  unfold ServerUpload.handleUploadFiles. rewrite run_tryCatch.
  destruct (List.find _ config) as [instance|].
  - rewrite run_bind.
    destruct (server_upload_loop_run net instance args
                (orDefault (ServerUpload.ua_branch args) "main")
                (ServerUpload.ua_files args) [] w)
      as (w' & log & -> & Hrq).
    cbn [app].
    assert (length log.*2 = length (ServerUpload.ua_files args)) as Hlen.
    { rewrite length_fmap, <- (length_fmap fst log), Hrq, length_map. reflexivity. }
    destruct (server_upload_results_counts _ _ Hlen) as (Hrej & Hsucc).
    exists w', log. split; [|split; [exact Hrq|]].
    + simpl. rewrite app_nil_r, Hrej.
      replace (length (ServerUpload.withStatus "success"
                         (zip_with serverUploadResult (ServerUpload.ua_files args) log.*2)))
        with (length (ServerUpload.ua_files args) - rejections log.*2)%nat by lia.
      reflexivity.
    + rewrite Hrq, map_map. reflexivity.
  - simpl. eexists; reflexivity.
Qed.

End UploadProperties.

(** ** Validation in the two tools *)

(** X14: the upload tool and the engine validate paths alike.  On a record
    with non-empty content that is an add or a modify, both accept or both
    reject, with the same error, and they return the same path and content.
    They differ on empty content: the upload tool only requires the content
    to be present, so it accepts the empty string, which the engine rejects
    for an add or a modify. *)
Theorem upload_validation_matches_the_engine :
  (forall raw c,
     raw_content raw = Some c -> c <> "" ->
     orDefault (raw_operation raw) "add" = "add" \/
     orDefault (raw_operation raw) "add" = "modify" ->
     match Upload.validateFile raw, normalizeFile (AppError VALIDATION_ERROR) raw with
     | Normal v, Normal f =>
         Upload.vf_path v = path f /\ content f = Some (Upload.vf_content v)
     | Abrupt e, Abrupt e' => e = e'
     | _, _ => False
     end) /\
  (forall raw p,
     raw_path raw = Some p -> p <> "" -> raw_content raw = Some "" ->
     includes ".." (replaceBackslashes p) = false ->
     startsWith "/" (replaceBackslashes p) = false ->
     Upload.validateFile raw
     = Normal {| Upload.vf_path := replaceBackslashes p; Upload.vf_content := "" |}).
Proof.
  split.
  - intros raw c Hc Hne Hop. unfold Upload.validateFile, normalizeFile.
    destruct (raw_path raw) as [p|]; [|reflexivity].
    destruct (decide (p = "")); [reflexivity|].
    rewrite Hc. simpl falsy. rewrite (decide_False (P := c = "")) by exact Hne.
    destruct Hop as [-> | ->]; simpl;
      destruct (includes ".." (replaceBackslashes p)
                || startsWith "/" (replaceBackslashes p)); simpl; auto.
  - intros raw p Hp Hne Hc Hi Hs. unfold Upload.validateFile.
    rewrite Hp, Hc, Hi, Hs. rewrite decide_False by exact Hne. reflexivity.
Qed.

Lemma upload_validation_matches_the_engine_witness :
  Upload.validateFile (rawFile "empty.txt" (Some "") "add")
  = Normal {| Upload.vf_path := "empty.txt"; Upload.vf_content := "" |} /\
  match Upload.validateFile (rawFile "../x" (Some "X") "add"),
        normalizeFile (AppError VALIDATION_ERROR) (rawFile "../x" (Some "X") "add") with
  | Abrupt e, Abrupt e' => e = e'
  | _, _ => False
  end.
Proof.
  destruct upload_validation_matches_the_engine as [Hagree Hempty].
  split.
  - apply (Hempty (rawFile "empty.txt" (Some "") "add") "empty.txt");
      try reflexivity; discriminate.
  - specialize (Hagree (rawFile "../x" (Some "X") "add") "X" eq_refl).
    apply Hagree; [discriminate|left; reflexivity].
Defined.

(** * Properties of [handleMcpError] *)

(** X15: [handleMcpError] always returns an [AppError]; it keeps the message
    of every error object, it is idempotent, and it returns unchanged every
    error that the sync_update and upload_files tool handlers throw, so the
    category those handlers chose is the one the caller sees. *)
Theorem handleMcpError_keeps_what_the_handlers_throw :
  (forall e, exists c m, handleMcpError e = AppError c m /\
                         (e <> NonError -> m = messageOf e)) /\
  (forall e, handleMcpError (handleMcpError e) = handleMcpError e) /\
  (forall W (net : W -> Request -> FetchResult * W) config args w e,
     completion (run net (Tool.handler config args) w) = Abrupt e \/
     completion (run net (Upload.handler config args) w) = Abrupt e ->
     handleMcpError e = e).
Proof.
  split; [|split].
  - intros e. destruct e; simpl; eexists _, _; split; try reflexivity; congruence.
  - intros e. destruct e; reflexivity.
  - intros W net config args w e [H|H].
    + revert H. rewrite Tool_handler_run.
      destruct (run net (syncUpdate _ _ config args) w) as [[[o|e0] w1] log];
        [discriminate|].
      unfold completion; cbn [fst]. intros [= <-]. destruct e0; reflexivity.
    + revert H. unfold Upload.handler. rewrite run_tryCatch.
      destruct (run net (Upload.uploadFiles config args) w) as [[[o|e0] w1] log];
        [discriminate|].
      destruct e0; unfold completion; simpl; intros [= <-]; reflexivity.
Qed.

Lemma handleMcpError_keeps_what_the_handlers_throw_witness :
  handleMcpError
    (AppError EXTERNAL_API_ERROR
       "Failed to sync update files: files array is required and must not be empty")
  = AppError EXTERNAL_API_ERROR
      "Failed to sync update files: files array is required and must not be empty".
Proof.
  apply (proj2 (proj2 handleMcpError_keeps_what_the_handlers_throw)
           Gitea.Store Gitea.serve sampleConfig (sampleArgs [] None None) ∅).
  left. vm_compute. reflexivity.
Defined.

(** * Properties of [withRetry] *)

Lemma safe_below_maxValue : Retry.safe <= Retry.maxValue.
Proof. vm_compute. intros H. discriminate H. Qed.

Lemma double_safe z : Z.abs z <= Retry.safe -> Retry.double z = Retry.finite z.
Proof.
  intros Hz. unfold Retry.double, Retry.nearest.
  rewrite (proj2 (Z.leb_le (Z.abs z) Retry.safe) Hz).
  rewrite (proj2 (Z.leb_le (Z.abs z) Retry.maxValue));
    [reflexivity|].
  etransitivity; [exact Hz|exact safe_below_maxValue].
Qed.

(** In the exact range, the next delay is the integer one. *)
Lemma next_delay_exact m c x :
  0 <= x -> 0 <= m -> 0 <= c <= Retry.safe -> x * m <= Retry.safe ->
  Retry.min (Retry.mul (Retry.finite x) (Retry.finite m)) (Retry.finite c)
  = Retry.finite (Z.min (x * m) c).
Proof.
  intros Hx Hm Hc Hxm. cbn [Retry.mul].
  rewrite double_safe by (rewrite Z.abs_eq by nia; exact Hxm).
  cbn [Retry.min Retry.leb].
  destruct (Z.leb_spec (x * m) c).
  - rewrite Z.min_l by lia. reflexivity.
  - rewrite Z.min_r by lia. reflexivity.
Qed.

(** Beyond the exact range a product is rounded: [(2 ^ 53 - 1) * 3] is
    odd and has 55 bits. *)
Example product_is_rounded :
  Retry.mul (Retry.finite 9007199254740991) (Retry.finite 3)
  = Retry.finite 27021597764222972.
Proof. vm_compute. reflexivity. Qed.

Lemma succ_exact x :
  0 <= x < Retry.safe -> Retry.succ (Retry.finite x) = Retry.finite (x + 1).
Proof.
  intros Hx. cbn [Retry.succ]. apply double_safe.
  rewrite Z.abs_eq by lia. lia.
Qed.

Section RetryProperties.

Context {A : Type} (shown : string) (operation : nat -> Completion A).
Context (mx m c : Z).
Hypothesis mx_safe : mx <= Retry.safe.
Hypothesis m_nonneg : 0 <= m.
Hypothesis c_safe : 0 <= c <= Retry.safe.
Hypothesis cm_safe : c * m <= Retry.safe.

Lemma next_delay_in_range d :
  0 <= d -> d * m <= Retry.safe ->
  0 <= Z.min (d * m) c /\ Z.min (d * m) c * m <= Retry.safe.
Proof. intros Hd Hdm. split; [nia|]. nia. Qed.

Lemma attempts_success (v : A) :
  forall (k fuel : nat) (attempt d : Z) (last : option JsError) (called : nat),
    1 <= attempt -> attempt + Z.of_nat k <= mx ->
    (k < fuel)%nat ->
    0 <= d -> d * m <= Retry.safe ->
    (forall i, (i < k)%nat -> fails (operation (called + i))) ->
    operation (called + k) = Normal v ->
    Retry.attempts shown operation (Retry.finite mx) (Retry.finite m)
      (Retry.finite c) fuel (Retry.finite attempt) (Retry.finite d) last called
    = Some {| Retry.completed := Normal v;
              Retry.calls := S (called + k);
              Retry.slept := map Retry.finite (backoff m c d k) |}.
Proof.
  induction k as [|k IH];
    intros fuel attempt d last called H1 Hle Hfuel Hd Hdm Hfail Hok.
  - destruct fuel as [|fuel]; [lia|]. cbn [Retry.attempts Retry.leb].
    rewrite (proj2 (Z.leb_le attempt mx)) by lia.
    rewrite Nat.add_0_r in Hok |- *. rewrite Hok. reflexivity.
  - destruct fuel as [|fuel]; [lia|]. cbn [Retry.attempts Retry.leb Retry.eqb].
    rewrite (proj2 (Z.leb_le attempt mx)) by lia.
    pose proof (Hfail 0%nat ltac:(lia)) as H0. rewrite Nat.add_0_r in H0.
    destruct (operation called) as [a|e]; [destruct H0|].
    rewrite (proj2 (Z.eqb_neq attempt mx)) by lia.
    rewrite succ_exact by lia.
    rewrite next_delay_exact by (try assumption; lia).
    destruct (next_delay_in_range d Hd Hdm) as [Hd' Hdm'].
    rewrite (IH fuel (attempt + 1) (Z.min (d * m) c)
               (Some (Retry.asError shown e)) (S called)); try lia; try assumption.
    + cbn [Retry.completed Retry.calls Retry.slept backoff map].
      replace (S called + k)%nat with (called + S k)%nat by lia. reflexivity.
    + intros i Hi. replace (S called + i)%nat with (called + S i)%nat by lia.
      apply Hfail. lia.
    + replace (S called + k)%nat with (called + S k)%nat by lia. exact Hok.
Qed.

Lemma attempts_exhausted (e : JsError) :
  forall (n fuel : nat) (attempt d : Z) (last : option JsError) (called : nat),
    1 <= attempt -> attempt + Z.of_nat n = mx ->
    (n < fuel)%nat ->
    0 <= d -> d * m <= Retry.safe ->
    (forall i, (i < n)%nat -> fails (operation (called + i))) ->
    operation (called + n) = Abrupt e ->
    Retry.attempts shown operation (Retry.finite mx) (Retry.finite m)
      (Retry.finite c) fuel (Retry.finite attempt) (Retry.finite d) last called
    = Some {| Retry.completed := Abrupt (Retry.asError shown e);
              Retry.calls := S (called + n);
              Retry.slept := map Retry.finite (backoff m c d n) |}.
Proof.
  induction n as [|n IH];
    intros fuel attempt d last called H1 Hle Hfuel Hd Hdm Hfail Hlast;
    (destruct fuel as [|fuel]; [lia|]);
    cbn [Retry.attempts Retry.leb Retry.eqb];
    rewrite (proj2 (Z.leb_le attempt mx)) by lia.
  - rewrite Nat.add_0_r in Hlast |- *. rewrite Hlast.
    rewrite (proj2 (Z.eqb_eq attempt mx)) by lia. reflexivity.
  - pose proof (Hfail 0%nat ltac:(lia)) as H0. rewrite Nat.add_0_r in H0.
    destruct (operation called) as [a|e0]; [destruct H0|].
    rewrite (proj2 (Z.eqb_neq attempt mx)) by lia.
    rewrite succ_exact by lia.
    rewrite next_delay_exact by (try assumption; lia).
    destruct (next_delay_in_range d Hd Hdm) as [Hd' Hdm'].
    rewrite (IH fuel (attempt + 1) (Z.min (d * m) c)
               (Some (Retry.asError shown e0)) (S called)); try lia; try assumption.
    + cbn [Retry.completed Retry.calls Retry.slept backoff map].
      replace (S called + n)%nat with (called + S n)%nat by lia. reflexivity.
    + intros i Hi. replace (S called + i)%nat with (called + S i)%nat by lia.
      apply Hfail. lia.
    + replace (S called + n)%nat with (called + S n)%nat by lia. exact Hlast.
Qed.

(** Whatever the operation does, the loop ends within the rounds that
    remain, calls the operation at most once a round, sleeps once between
    two calls, and sleeps the delays of the schedule. *)
Lemma attempts_invariant :
  forall (fuel : nat) (attempt d : Z) (last : option JsError) (called : nat),
    1 <= attempt ->
    (Z.to_nat (mx - attempt + 1) < fuel)%nat ->
    0 <= d -> d * m <= Retry.safe ->
    exists out delays,
      Retry.attempts shown operation (Retry.finite mx) (Retry.finite m)
      (Retry.finite c) fuel (Retry.finite attempt) (Retry.finite d) last called = Some out /\
      (called <= Retry.calls out <= called + Z.to_nat (mx - attempt + 1))%nat /\
      Retry.slept out = map Retry.finite delays /\
      delays = backoff m c d (length delays) /\
      length delays = (Retry.calls out - called - 1)%nat /\
      (attempt <= mx -> (called < Retry.calls out)%nat) /\
      (mx < attempt ->
       out = {| Retry.completed := Retry.throwLast last;
                Retry.calls := called; Retry.slept := [] |}).
Proof.
  induction fuel as [|fuel IH]; intros attempt d last called H1 Hfuel Hd Hdm;
    [lia|].
  cbn [Retry.attempts Retry.leb Retry.eqb].
  destruct (Z.leb_spec attempt mx) as [Hle|Hgt].
  2: { eexists _, []. split; [reflexivity|]. cbn. repeat split; lia. }
  destruct (operation called) as [v|e].
  { eexists _, []. split; [reflexivity|]. cbn. repeat split; lia. }
  destruct (Z.eqb_spec attempt mx) as [Heq|Hne].
  { eexists _, []. split; [reflexivity|]. cbn. repeat split; lia. }
  rewrite succ_exact by lia.
  rewrite next_delay_exact by (try assumption; lia).
  destruct (next_delay_in_range d Hd Hdm) as [Hd' Hdm'].
  destruct (IH (attempt + 1) (Z.min (d * m) c)
              (Some (Retry.asError shown e)) (S called)
              ltac:(lia) ltac:(lia) Hd' Hdm')
    as (rest & delays & -> & [H2 H3] & H4 & H5 & H6 & H7 & _).
  specialize (H7 ltac:(lia)).
  eexists _, (d :: delays). split; [reflexivity|].
  cbn [Retry.completed Retry.calls Retry.slept length backoff map].
  split; [lia|]. split; [rewrite H4; reflexivity|].
  split; [rewrite <- H5; reflexivity|]. repeat split; lia.
Qed.

Lemma backoff_capped :
  forall n d, Forall (fun ms => ms <= c) (tail (backoff m c d n)).
Proof.
  intros [|n] d; [constructor|]. cbn [backoff tail].
  generalize (d * m). clear d. induction n as [|n IH]; intros x; [constructor|].
  cbn [backoff]. constructor; [lia|]. apply IH.
Qed.

End RetryProperties.

(** X16: with integer options in the range in which doubles are exact, if
    the operation fails [k] times and then returns, and [k] is less than
    [maxAttempts], then [withRetry] returns that value after [k + 1] calls
    and [k] sleeps; the first sleep is [delay], each later one is the one
    before times [backoffMultiplier], capped at [maxDelay]. *)
Theorem retry_returns_the_first_success {A : Type} (shown : string)
    (operation : nat -> Completion A) (options : Retry.RetryOptions)
    (mx d m c : Z) (k fuel : nat) (v : A) :
  optionsAre options mx d m c -> exactDelays mx d m c ->
  Z.of_nat k < mx ->
  (k < fuel)%nat ->
  (forall i, (i < k)%nat -> fails (operation i)) ->
  operation k = Normal v ->
  Retry.withRetry shown operation options fuel
  = Some {| Retry.completed := Normal v;
            Retry.calls := S k;
            Retry.slept := map Retry.finite (backoff m c d k) |}.
Proof.
  intros (Hmx & Hd & Hm & Hc) (Hsafe & Hd0 & Hm0 & Hc0 & Hdm & Hcm) Hk Hfuel Hfail Hok.
  unfold Retry.withRetry. rewrite Hmx, Hd, Hm, Hc.
  apply (attempts_success shown operation mx m c Hsafe (proj1 Hm0) Hc0 Hcm v k);
    try lia; assumption.
Qed.

Lemma retry_returns_the_first_success_witness :
  Retry.withRetry "thrown"
    (fun n => if (n <? 2)%nat then Abrupt (Error "busy") else Normal 7%Z)
    Retry.noOptions 3
  = Some {| Retry.completed := Normal 7%Z;
            Retry.calls := 3;
            Retry.slept := [Retry.finite 1000; Retry.finite 2000] |}.
Proof.
  apply (retry_returns_the_first_success "thrown"
           (fun n => if (n <? 2)%nat then Abrupt (Error "busy") else Normal 7%Z)
           Retry.noOptions 3 1000 2 10000 2 3 7%Z).
  - repeat split.
  - unfold exactDelays, Retry.safe. lia.
  - lia.
  - lia.
  - intros [|[|i]] Hi; [exact I|exact I|lia].
  - reflexivity.
Defined.

(** X17: with integer options in the range in which doubles are exact, if
    the operation fails [maxAttempts] times in a row, [withRetry] throws the
    error of the last call (a thrown value that is no error object is
    wrapped in an [Error]), having called the operation exactly
    [maxAttempts] times; it sleeps between the calls and not after the last
    one. *)
Theorem retry_rethrows_the_last_error {A : Type} (shown : string)
    (operation : nat -> Completion A) (options : Retry.RetryOptions)
    (mx d m c : Z) (n fuel : nat) (e : JsError) :
  optionsAre options mx d m c -> exactDelays mx d m c ->
  mx = Z.of_nat (S n) ->
  (n < fuel)%nat ->
  (forall i, (i < n)%nat -> fails (operation i)) ->
  operation n = Abrupt e ->
  Retry.withRetry shown operation options fuel
  = Some {| Retry.completed := @Abrupt A (Retry.asError shown e);
            Retry.calls := S n;
            Retry.slept := map Retry.finite (backoff m c d n) |}.
Proof.
  intros (Hmx & Hd & Hm & Hc) (Hsafe & Hd0 & Hm0 & Hc0 & Hdm & Hcm)
    Hmax Hfuel Hfail Hlast.
  unfold Retry.withRetry. rewrite Hmx, Hd, Hm, Hc.
  apply (attempts_exhausted shown operation mx m c Hsafe (proj1 Hm0) Hc0 Hcm e n);
    try lia; assumption.
Qed.

Lemma retry_rethrows_the_last_error_witness :
  Retry.withRetry "thrown"
    (fun n => if (n <? 3)%nat then Abrupt (Error "busy") else @Abrupt Z NonError)
    {| Retry.maxAttempts := Some (Retry.finite 4);
       Retry.delay := Some (Retry.finite 6000);
       Retry.backoffMultiplier := None; Retry.maxDelay := None |} 4
  = Some {| Retry.completed := Abrupt (Error "thrown");
            Retry.calls := 4;
            Retry.slept := [Retry.finite 6000; Retry.finite 10000;
                            Retry.finite 10000] |}.
Proof.
  apply (retry_rethrows_the_last_error "thrown"
           (fun n => if (n <? 3)%nat then Abrupt (Error "busy") else @Abrupt Z NonError)
           {| Retry.maxAttempts := Some (Retry.finite 4);
              Retry.delay := Some (Retry.finite 6000);
              Retry.backoffMultiplier := None; Retry.maxDelay := None |}
           4 6000 2 10000 3 4 NonError).
  - repeat split.
  - unfold exactDelays, Retry.safe. lia.
  - reflexivity.
  - lia.
  - intros [|[|[|i]]] Hi; [exact I|exact I|exact I|lia].
  - reflexivity.
Defined.

(** X18: with integer options in the range in which doubles are exact,
    whatever the operation does, [withRetry] ends within [maxAttempts]
    rounds of its loop, calls the operation at most [maxAttempts] times and
    sleeps once between two calls; the delays follow the backoff schedule,
    every delay after the first is at most [maxDelay], and the first is
    [delay] itself, capped or not.  With [maxAttempts] below one the
    operation is never called and [undefined] is thrown. *)
Theorem retry_is_bounded {A : Type} (shown : string)
    (operation : nat -> Completion A) (options : Retry.RetryOptions)
    (mx d m c : Z) (fuel : nat) :
  optionsAre options mx d m c -> exactDelays mx d m c ->
  (Z.to_nat mx < fuel)%nat ->
  exists out delays,
    Retry.withRetry shown operation options fuel = Some out /\
    (Retry.calls out <= Z.to_nat mx)%nat /\
    Retry.slept out = map Retry.finite delays /\
    length delays = (Retry.calls out - 1)%nat /\
    delays = backoff m c d (length delays) /\
    Forall (fun ms => ms <= c) (tail delays) /\
    (forall ms, head delays = Some ms -> ms = d) /\
    (1 <= mx -> (1 <= Retry.calls out)%nat) /\
    (mx < 1 ->
     out = {| Retry.completed := Abrupt NonError; Retry.calls := 0;
              Retry.slept := [] |}).
Proof.
  intros (Hmx & Hd & Hm & Hc) (Hsafe & Hd0 & Hm0 & Hc0 & Hdm & Hcm) Hfuel.
  unfold Retry.withRetry. rewrite Hmx, Hd, Hm, Hc.
  destruct (attempts_invariant shown operation mx m c Hsafe (proj1 Hm0) Hc0 Hcm
              fuel 1 d None 0%nat ltac:(lia) ltac:(lia) (proj1 Hd0) Hdm)
    as (out & delays & Hrun & [_ H1] & H2 & H3 & H4 & H5 & H6).
  exists out, delays. split; [exact Hrun|].
  split; [lia|]. split; [exact H2|]. split; [lia|]. split; [exact H3|].
  split; [rewrite H3; apply backoff_capped; lia|].
  split.
  - intros ms. rewrite H3.
    destruct (length delays); cbn [backoff head]; congruence.
  - split; [intros Hge; specialize (H5 Hge); lia|].
    intros Hlt. apply H6. lia.
Qed.

Lemma retry_is_bounded_witness :
  exists out,
    Retry.withRetry "thrown" (fun _ => @Abrupt Z (Error "busy"))
      {| Retry.maxAttempts := Some (Retry.finite 2);
         Retry.delay := Some (Retry.finite 20000);
         Retry.backoffMultiplier := None; Retry.maxDelay := None |} 3
    = Some out /\
    Retry.calls out = 2%nat /\
    Retry.slept out = [Retry.finite 20000].
Proof.
  destruct (retry_is_bounded "thrown" (fun _ => @Abrupt Z (Error "busy"))
              {| Retry.maxAttempts := Some (Retry.finite 2);
                 Retry.delay := Some (Retry.finite 20000);
                 Retry.backoffMultiplier := None; Retry.maxDelay := None |}
              2 20000 2 10000 3)
    as (out & delays & Hrun & _).
  - repeat split.
  - unfold exactDelays, Retry.safe. lia.
  - lia.
  - exists out. split; [exact Hrun|].
    revert Hrun. vm_compute. intros [= <-]. split; reflexivity.
Defined.

(** * Where the requests of a call go *)

Lemma planFrom_paths files replies :
  Forall (fun f => path f ∈ map path files) (planFrom files replies).
Proof.
  destruct (planFrom_shape files replies) as [_ Hall].
  eapply Forall_impl; [exact Hall|].
  intros e (f & Hin & (-> & _)). apply (list_elem_of_fmap_2 path). exact Hin.
Qed.

Lemma preflight_instance inf ip config args instance params normalizedFiles :
  preflight inf ip config args = Normal (instance, params, normalizedFiles) ->
  List.find (fun inst => bool_decide (id inst = orDefault (arg_instanceId args) ""))
    config = Some instance.
Proof.
  unfold preflight.
  repeat match goal with |- context [if ?c then _ else _] => destruct c end;
    try discriminate.
  cbv zeta. change (instanceId (paramsOf args)) with (orDefault (arg_instanceId args) "").
  destruct (List.find _ config); [|discriminate].
  destruct (validateAndNormalizeFiles ip _); [|discriminate].
  intros [= <- _ _]. reflexivity.
Qed.

Lemma validated_paths_safe invalidPath raws : forall files,
  validateAndNormalizeFiles invalidPath raws = Normal files ->
  Forall (fun f => safePath (path f)) files.
Proof.
  induction raws as [|raw raws IH]; intros files.
  - intros [= <-]. constructor.
  - rewrite validate_cons.
    destruct (normalizeFile invalidPath raw) as [f|e] eqn:Hf; [|discriminate].
    destruct (validateAndNormalizeFiles invalidPath raws) as [fs|e];
      [|discriminate].
    intros [= <-]. constructor; [|apply IH; reflexivity].
    apply (normalizeFile_spec _ _ _ Hf).
Qed.

Section Confinement.

Context {W : Type} (net : W -> Request -> FetchResult * W).

Lemma syncUpdate_requests inf ip config args w instance params nf :
  preflight inf ip config args = Normal (instance, params, nf) ->
  Forall (builtFor instance params nf)
    (requestLog (run net (syncUpdate inf ip config args) w)).*1.
Proof.
  intros Hpre. rewrite syncUpdate_run, Hpre.
  destruct (planning_run net instance params nf w)
    as (plan & remote & w1 & log1 & -> & _ & Hplan).
  assert (Forall (builtFor instance params nf) log1.*1
          /\ Forall (fun f => path f ∈ map path nf) plan) as [Hlog1 Hpaths].
  { destruct (detectChanges params).
    - destruct Hplan as [-> ->]. split; [|apply planFrom_paths].
      apply Forall_fmap, Forall_forall. intros f Hin.
      left. exists f. split; [exact Hin|reflexivity].
    - destruct Hplan as (-> & -> & _). split; [constructor|].
      apply Forall_forall. intros f Hin. apply (list_elem_of_fmap_2 path). exact Hin. }
  cbn [fst]. destruct (dryRun params); [exact Hlog1|].
  cbv zeta.
  destruct (executeUpdates_run net instance params
              (determineStrategy (strategy params) plan) plan
              (initialResult params nf plan) w1)
    as (result & w2 & log2 & -> & _ & _ & Hshape & _).
  unfold requestLog. cbn [snd]. rewrite fmap_app. apply Forall_app.
  split; [exact Hlog1|].
  destruct Hshape as [-> | ->].
  - constructor; [|constructor]. right. right. exists plan. split; [exact Hpaths|reflexivity].
  - apply Forall_fmap. eapply Forall_impl; [exact Hpaths|].
    intros f Hf. right. left. exists f. split; [exact Hf|reflexivity].
Qed.

(** X19: for a call whose owner, repository, branch and normalised paths
    are plain, every request of either copy of the handler is plain: its URL
    is the contents URL of the repository [owner/repository] at the first
    configured instance that has the requested id, followed by the path of a
    normalised input file for a single-file request and by the branch as
    [ref] for a probe; it carries that instance's token, and every path it
    names, in its URL or in the files of a combined commit, is the path of a
    normalised input file.  Validation alone does not give this: it accepts
    the path [a?b], and the URL of its probe then ends in [a?b?ref=main]. *)
Theorem plain_calls_issue_plain_requests :
  (forall config args files w,
     validateAndNormalizeFiles (AppError VALIDATION_ERROR) (arg_files args)
     = Normal files ->
     plainCall (paramsOf args) files = true ->
     forall rq,
       rq ∈ (requestLog (run net (Tool.handler config args) w)).*1 \/
       rq ∈ (requestLog (run net (Server.handleSyncUpdate config args) w)).*1 ->
       exists instance,
         List.find (fun inst => bool_decide (id inst = orDefault (arg_instanceId args) ""))
           config = Some instance /\
         plainRequest rq = true /\
         rq_token rq = token instance /\
         Forall (fun p => p ∈ map path files) (pathsOf rq) /\
         url rq
         = baseUrl instance +:+ "/api/v1/repos/" +:+ orDefault (arg_owner args) ""
           +:+ "/" +:+ orDefault (arg_repository args) "" +:+ "/contents"
           +:+ match rq_path rq with Some p => "/" +:+ p | None => "" end
           +:+ match rq_method rq with
               | GET => "?ref=" +:+ orDefault (arg_branch args) "main"
               | _ => ""
               end) /\
  (let args := sampleArgs [rawFile "a?b" (Some "X") "add"] None None in
   validateAndNormalizeFiles (AppError VALIDATION_ERROR) (arg_files args)
   = Normal [fileOp "a?b" (Some "X") add] /\
   exists rq reply,
     head (requestLog (run Gitea.serve (Tool.handler sampleConfig args) ∅))
     = Some (rq, reply) /\
     plainRequest rq = false /\
     url rq = "https://git.example.org/api/v1/repos/alice/project/contents/a?b?ref=main").
Proof.
  split; [|split; [reflexivity|eexists _, _; split; [vm_compute; reflexivity|];
                   split; vm_compute; reflexivity]].
  intros config args files w Hval Hcall.
  unfold plainCall in Hcall.
  apply andb_prop in Hcall as [Hcall Hpaths].
  apply andb_prop in Hcall as [Hcall Hbranch].
  apply andb_prop in Hcall as [Howner Hrepository].
  assert (forall p, p ∈ map path files -> plainPath p = true) as Hplain.
  { intros p Hp. apply list_elem_of_fmap in Hp as (f & -> & Hf).
    rewrite forallb_forall in Hpaths. apply Hpaths, list_elem_of_In, Hf. }
  clear Hpaths.
  assert (forall inf ip rq,
            validateAndNormalizeFiles ip (arg_files args) = Normal files ->
            rq ∈ (requestLog (run net (syncUpdate inf ip config args) w)).*1 ->
            exists instance,
              List.find (fun inst =>
                           bool_decide (id inst = orDefault (arg_instanceId args) ""))
                config = Some instance /\
              plainRequest rq = true /\
              rq_token rq = token instance /\
              Forall (fun p => p ∈ map path files) (pathsOf rq) /\
              url rq
              = baseUrl instance +:+ "/api/v1/repos/" +:+ orDefault (arg_owner args) ""
                +:+ "/" +:+ orDefault (arg_repository args) "" +:+ "/contents"
                +:+ match rq_path rq with Some p => "/" +:+ p | None => "" end
                +:+ match rq_method rq with
                    | GET => "?ref=" +:+ orDefault (arg_branch args) "main"
                    | _ => ""
                    end) as Hgen.
  { intros inf ip rq Hval' Hin.
    destruct (preflight inf ip config args) as [[[instance params] nf]|e] eqn:Hpre.
    - pose proof (syncUpdate_requests inf ip config args w _ _ _ Hpre) as Hall.
      pose proof (preflight_params _ _ _ _ _ _ _ Hpre) as ->.
      pose proof (preflight_files _ _ _ _ _ _ _ Hpre) as Hnf.
      rewrite Hval' in Hnf. injection Hnf as <-.
      rewrite Forall_forall in Hall.
      exists instance. split; [eapply preflight_instance; exact Hpre|].
      destruct (Hall rq Hin)
        as [(f & Hf & ->)|[(e & He & ->)|(plan & Hplan & ->)]].
      + split.
        { apply probeRequest_plain; try assumption.
          apply Hplain, (list_elem_of_fmap_2 path), Hf. }
        split; [reflexivity|].
        split; [|reflexivity].
        unfold pathsOf. cbn [probeRequest rq_path rq_body option_list app].
        constructor; [|constructor]. apply (list_elem_of_fmap_2 path). exact Hf.
      + split; [apply individualRequest_plain; try assumption; apply Hplain, He|].
        unfold individualRequest, createOrUpdateRequest, deleteRequest.
        destruct (bool_decide (operation e = delete));
          [|destruct (bool_decide (operation e = add))];
          (split; [reflexivity|]); (split; [|reflexivity]);
          unfold pathsOf; cbn [fileRequest rq_path rq_body option_list app];
          (constructor; [exact He|constructor]).
      + split.
        { apply batchRequest_plain; try assumption.
          eapply Forall_impl; [exact Hplan|]. intros e He. apply Hplain, He. }
        split; [reflexivity|].
        split; [|reflexivity].
        unfold pathsOf. cbn [batchRequest rq_path rq_body option_list app].
        change (map bf_path (map batchFileOp plan))
          with (bf_path <$> map batchFileOp plan).
        rewrite batchFileOp_path. apply Forall_fmap.
        eapply Forall_impl; [exact Hplan|]. intros f Hf. exact Hf.
    - exfalso. revert Hin. rewrite syncUpdate_run, Hpre.
      unfold requestLog. cbn [snd fmap list_fmap]. apply not_elem_of_nil. }
  intros rq [Hin|Hin].
  - revert Hin. rewrite Tool_handler_run. intros Hin.
    apply (Hgen Error (AppError VALIDATION_ERROR) rq Hval).
    destruct (run net (syncUpdate _ _ config args) w) as [[[o|e] w1] log];
      exact Hin.
  - revert Hin. rewrite Server_handleSyncUpdate_run. intros Hin.
    apply (Hgen (McpError InvalidParams) Error rq).
    + pose proof (validate_agree (arg_files args)) as Hagree.
      rewrite Hval in Hagree.
      destruct (validateAndNormalizeFiles Error (arg_files args));
        [congruence|contradiction].
    + destruct (run net (syncUpdate _ _ config args) w) as [[[o|e] w1] log];
        exact Hin.
Qed.

End Confinement.

Lemma plain_calls_issue_plain_requests_witness :
  let args := sampleArgs [rawFile "docs\a.txt" (Some "X") "add"] None None in
  let rq := probeRequest sampleInstance (paramsOf args)
              (fileOp "docs/a.txt" (Some "X") add) in
  plainRequest rq = true /\
  url rq
  = "https://git.example.org/api/v1/repos/alice/project/contents/docs/a.txt?ref=main".
Proof.
  intros args rq.
  destruct (proj1 (plain_calls_issue_plain_requests Gitea.serve) sampleConfig args
              [fileOp "docs/a.txt" (Some "X") add] ∅ eq_refl eq_refl rq)
    as (instance & Hfind & Hplain & _ & _ & Hurl).
  - left. vm_compute. left.
  - split; [exact Hplain|]. rewrite Hurl. injection Hfind as <-. reflexivity.
Defined.

(** * Properties of the instance manager *)

Lemma mapGet_mapSet k v k' m :
  InstanceManager.mapGet k' (InstanceManager.mapSet k v m)
  = if bool_decide (k = k') then Some v else InstanceManager.mapGet k' m.
Proof.
  unfold InstanceManager.mapGet. induction m as [|[k0 v0] m IH].
  - cbn. destruct (bool_decide (k = k')); reflexivity.
  - cbn [InstanceManager.mapSet]. destruct (decide (k0 = k)) as [->|H0].
    + rewrite (bool_decide_true (k = k)) by reflexivity.
      cbn [List.find fst]. destruct (bool_decide (k = k')); reflexivity.
    + rewrite (bool_decide_false (k0 = k)) by exact H0.
      cbn [List.find fst]. destruct (decide (k0 = k')) as [->|H1].
      * rewrite (bool_decide_true (k' = k')) by reflexivity.
        rewrite (bool_decide_false (k = k')) by congruence. reflexivity.
      * rewrite (bool_decide_false (k0 = k')) by exact H1. exact IH.
Qed.

Lemma keys_mapSet k v m :
  (InstanceManager.mapSet k v m).*1
  = if bool_decide (k ∈ m.*1) then m.*1 else app m.*1 [k].
Proof.
  induction m as [|[k0 v0] m IH].
  - cbn. rewrite bool_decide_false by apply not_elem_of_nil. reflexivity.
  - cbn [InstanceManager.mapSet]. destruct (decide (k0 = k)) as [->|H0].
    + rewrite (bool_decide_true (k = k)) by reflexivity.
      rewrite !fmap_cons. cbn [fst].
      rewrite bool_decide_true by left. reflexivity.
    + rewrite (bool_decide_false (k0 = k)) by exact H0.
      rewrite !fmap_cons. cbn [fst]. rewrite IH.
      destruct (decide (k ∈ m.*1)) as [H1|H1].
      * rewrite (bool_decide_true (k ∈ m.*1)) by exact H1.
        rewrite bool_decide_true by (right; exact H1). reflexivity.
      * rewrite (bool_decide_false (k ∈ m.*1)) by exact H1.
        rewrite bool_decide_false; [reflexivity|].
        intros Hin. apply elem_of_cons in Hin. destruct Hin; congruence.
Qed.

Lemma fold_mapSet_snoc config x m :
  fold_left (fun m instance => InstanceManager.mapSet (id instance) instance m)
    (app config [x]) m
  = InstanceManager.mapSet (id x) x
      (fold_left (fun m instance => InstanceManager.mapSet (id instance) instance m)
         config m).
Proof. rewrite fold_left_app. reflexivity. Qed.

Lemma mapGet_initial config k :
  InstanceManager.mapGet k
    (fold_left (fun m instance => InstanceManager.mapSet (id instance) instance m)
       config [])
  = findInstance (rev config) k.
Proof.
  induction config as [|x config IH] using rev_ind; [reflexivity|].
  rewrite fold_mapSet_snoc, mapGet_mapSet, IH, rev_app_distr.
  unfold findInstance. cbn [rev app List.find]. reflexivity.
Qed.

Lemma keys_initial config :
  let keys := (fold_left (fun m instance => InstanceManager.mapSet (id instance) instance m)
                 config []).*1 in
  NoDup keys /\ (forall k, k ∈ keys <-> k ∈ map id config) /\
  sublist keys (map id config).
Proof.
  cbn zeta. induction config as [|x config IH] using rev_ind.
  - cbn. split; [constructor|]. split; [reflexivity|constructor].
  - rewrite fold_mapSet_snoc, keys_mapSet, map_app.
    destruct IH as (Hnd & Hin & Hsub). case_bool_decide as Hx.
    + split; [exact Hnd|]. split.
      * intros k. rewrite Hin, !elem_of_app. cbn [map].
        rewrite list_elem_of_singleton. split; [tauto|].
        intros [H| ->]; [exact H|]. apply Hin. exact Hx.
      * apply sublist_inserts_r. exact Hsub.
    + split; [|split].
      * apply NoDup_app. split; [exact Hnd|]. split; [|apply NoDup_singleton].
        intros k Hk Hk'. apply list_elem_of_singleton in Hk'. subst k. tauto.
      * intros k. rewrite !elem_of_app, Hin. reflexivity.
      * apply sublist_app; [exact Hsub|reflexivity].
Qed.

Lemma findInstance_none config k :
  k ∉ map id config -> findInstance config k = None.
Proof.
  unfold findInstance. induction config as [|x config IH]; [reflexivity|].
  intros Hnot. cbn [List.find]. rewrite bool_decide_false.
  - apply IH. intros Hin. apply Hnot. right. exact Hin.
  - intros Heq. apply Hnot. subst k. left.
Qed.

Lemma findInstance_app config1 config2 k :
  findInstance (app config1 config2) k
  = match findInstance config1 k with
    | Some i => Some i
    | None => findInstance config2 k
    end.
Proof.
  unfold findInstance. induction config1 as [|x config1 IH]; [reflexivity|].
  cbn [app List.find]. destruct (bool_decide (id x = k)); [reflexivity|exact IH].
Qed.

Lemma findInstance_rev config k :
  NoDup (map id config) -> findInstance (rev config) k = findInstance config k.
Proof.
  induction config as [|x config IH]; [reflexivity|].
  cbn [map]. intros Hnd. apply NoDup_cons in Hnd. destruct Hnd as [Hx Hnd].
  cbn [rev]. rewrite findInstance_app, (IH Hnd).
  unfold findInstance at 3. cbn [List.find]. unfold findInstance at 2.
  cbn [List.find]. fold (findInstance config k). case_bool_decide as Hk.
  - subst k. rewrite (findInstance_none config (id x) Hx). reflexivity.
  - destruct (findInstance config k); reflexivity.
Qed.

Lemma sublist_full {A : Type} (l1 l2 : list A) :
  sublist l1 l2 -> (length l2 <= length l1)%nat -> l1 = l2.
Proof.
  induction 1 as [|x l1 l2 Hsub IH|x l1 l2 Hsub IH]; cbn [length]; intros Hlen.
  - reflexivity.
  - f_equal. apply IH. lia.
  - apply sublist_length in Hsub. lia.
Qed.

(** X20: the first call of [getGiteaClient] answers with the LAST configured
    instance that has the requested id, since a later [Map.set] replaces an
    earlier one, and with [NOT_FOUND] when there is none; it never answers
    [INTERNAL_ERROR].  The tool handlers select the FIRST such instance; the
    two agree when the ids of the configuration are pairwise distinct. *)
Theorem instance_manager_serves_the_last_duplicate config k :
  let answer := (InstanceManager.getGiteaClient config k InstanceManager.new).1 in
  answer = clientOr k (findInstance (rev config) k) /\
  (forall m, answer <> Abrupt (AppError INTERNAL_ERROR m)) /\
  (NoDup (map id config) -> answer = clientOr k (findInstance config k)).
Proof.
  cbn zeta.
  assert ((InstanceManager.getGiteaClient config k InstanceManager.new).1
          = clientOr k (findInstance (rev config) k)) as H.
  { unfold InstanceManager.getGiteaClient, InstanceManager.initialize,
      InstanceManager.getClient.
    cbn [fst InstanceManager.new InstanceManager.initialized
         InstanceManager.clients negb].
    rewrite mapGet_initial. reflexivity. }
  rewrite H. split; [reflexivity|]. split.
  - intros m. destruct (findInstance (rev config) k); discriminate.
  - intros Hnd. rewrite findInstance_rev by exact Hnd. reflexivity.
Qed.

Lemma afterCalls_initialized calls : forall s,
  InstanceManager.initialized s = true -> afterCalls calls s = s.
Proof.
  induction calls as [|[c k] calls IH]; intros s Hs; [reflexivity|].
  cbn [afterCalls fold_left]. fold (afterCalls calls).
  unfold InstanceManager.getGiteaClient, InstanceManager.initialize.
  cbn [fst snd]. rewrite Hs. apply IH. exact Hs.
Qed.

(** X21: the manager reads the configuration once.  After a first call and
    any number of further calls, whatever configurations were current when
    they were made, a call answers from the configuration of the first call:
    with the last instance of that configuration that has the requested id.
    The state no longer changes after the first call. *)
Theorem instance_manager_reads_the_configuration_once config k calls config' k' :
  let first := (InstanceManager.getGiteaClient config k InstanceManager.new).2 in
  let s := afterCalls calls first in
  s = first /\
  InstanceManager.getGiteaClient config' k' s
  = (clientOr k' (findInstance (rev config) k'), first) /\
  InstanceManager.listGiteaInstances config' s
  = ((InstanceManager.listGiteaInstances config InstanceManager.new).1, first).
Proof.
  cbn zeta.
  rewrite afterCalls_initialized by reflexivity.
  split; [reflexivity|]. split; [|reflexivity].
  unfold InstanceManager.getGiteaClient at 1. f_equal.
  unfold InstanceManager.getGiteaClient, InstanceManager.initialize,
    InstanceManager.getClient.
  cbn [fst snd InstanceManager.new InstanceManager.initialized
       InstanceManager.clients negb].
  rewrite mapGet_initial. reflexivity.
Qed.

Lemma filter_fresh_nil (l : list string) : filter (fun y => y ∉ @nil string) l = l.
Proof.
  induction l as [|y l IH]; [reflexivity|].
  rewrite filter_cons, decide_True by apply not_elem_of_nil. rewrite IH. reflexivity.
Qed.

Lemma filter_fresh_skip (x : string) (ks l : list string) :
  x ∈ ks ->
  filter (fun y => y ∉ ks) (filter (fun y => y <> x) l) = filter (fun y => y ∉ ks) l.
Proof.
  intros Hx. induction l as [|y l IH]; [reflexivity|].
  rewrite (filter_cons (fun y => y <> x)).
  destruct (decide (y <> x)) as [Hy|Hy].
  - rewrite !filter_cons, IH. reflexivity.
  - apply dec_stable in Hy. subst y.
    rewrite IH, filter_cons, decide_False by (intros H; apply H, Hx). reflexivity.
Qed.

Lemma filter_fresh_snoc (x : string) (ks l : list string) :
  filter (fun y => y ∉ app ks [x]) l
  = filter (fun y => y ∉ ks) (filter (fun y => y <> x) l).
Proof.
  induction l as [|y l IH]; [reflexivity|].
  rewrite (filter_cons (fun y => y <> x)), (filter_cons (fun y => y ∉ app ks [x])).
  destruct (decide (y <> x)) as [Hy|Hy].
  - rewrite filter_cons, IH.
    destruct (decide (y ∉ ks)) as [Hk|Hk].
    + rewrite decide_True; [reflexivity|].
      intros Hin. apply elem_of_app in Hin as [Hin|Hin]; [exact (Hk Hin)|].
      apply list_elem_of_singleton in Hin. exact (Hy Hin).
    + rewrite decide_False; [reflexivity|].
      intros Hn. apply Hk. intros Hin. apply Hn, elem_of_app. left. exact Hin.
  - apply dec_stable in Hy. subst y.
    rewrite decide_False; [exact IH|].
    intros Hn. apply Hn, elem_of_app. right. left.
Qed.

(** The keys of the map after the loop of [initialize]: those it held, then
    the new ids where they first occur. *)
Lemma keys_fold config : forall m,
  (fold_left (fun m instance => InstanceManager.mapSet (id instance) instance m)
     config m).*1
  = app m.*1 (filter (fun k => k ∉ m.*1) (firstOccurrences (map id config))).
Proof.
  induction config as [|x config IH]; intros m.
  - cbn. rewrite app_nil_r. reflexivity.
  - cbn [fold_left map firstOccurrences]. rewrite IH, keys_mapSet.
    rewrite (filter_cons (fun k => k ∉ m.*1)).
    case_bool_decide as Hx.
    + rewrite decide_False by (intros Hn; exact (Hn Hx)).
      rewrite filter_fresh_skip by exact Hx. reflexivity.
    + rewrite decide_True by exact Hx.
      rewrite filter_fresh_snoc, <- app_assoc. reflexivity.
Qed.

(** X22: [listGiteaInstances] lists every configured id once, in the order
    of first occurrence in the configuration: the list is the list of
    configured ids with every later copy of an id removed. *)
Theorem listed_instances_are_the_distinct_ids config :
  let listed := (InstanceManager.listGiteaInstances config InstanceManager.new).1 in
  listed = firstOccurrences (map id config) /\
  NoDup listed /\ (forall k, k ∈ listed <-> k ∈ map id config) /\
  sublist listed (map id config) /\
  (NoDup (map id config) -> listed = map id config).
Proof.
  cbn zeta.
  change (InstanceManager.listGiteaInstances config InstanceManager.new).1
    with (fold_left (fun m instance => InstanceManager.mapSet (id instance) instance m)
            config []).*1.
  split; [rewrite keys_fold; cbn [fmap list_fmap app]; apply filter_fresh_nil|].
  destruct (keys_initial config) as (Hnd & Hin & Hsub).
  split; [exact Hnd|]. split; [exact Hin|]. split; [exact Hsub|].
  intros Hnd'. apply sublist_full; [exact Hsub|].
  apply submseteq_length, NoDup_submseteq; [exact Hnd'|].
  intros k Hk. apply Hin. exact Hk.
Qed.

(** * Properties of project sync *)

(** ** What discovery finds *)

Section EntryInduction.

Variable P : Project.Entry -> Prop.

Hypothesis HDirectory :
  forall name entries, Forall P entries -> P (Project.Directory name (Normal entries)).

Hypothesis HUnreadable : forall name e, P (Project.Directory name (Abrupt e)).

Hypothesis HFile : forall name stat read, P (Project.File name stat read).

Hypothesis HOther : forall name, P (Project.Other name).

Fixpoint Entry_nested_ind (entry : Project.Entry) : P entry :=
  match entry with
  | Project.Directory name (Normal entries) =>
      HDirectory name entries
        ((fix all (l : list Project.Entry) : Forall P l :=
            match l with
            | [] => List.Forall_nil P
            | x :: l' => @List.Forall_cons _ P x l' (Entry_nested_ind x) (all l')
            end) entries)
  | Project.Directory name (Abrupt e) => HUnreadable name e
  | Project.File name stat read => HFile name stat read
  | Project.Other name => HOther name
  end.

End EntryInduction.

Section Discovery.

Variable ignores : string -> bool.

Variable options : Project.Options.

Lemma walkEntry_skipped relativePath files entry :
  admitted ignores options relativePath (Project.entryName entry) = false ->
  Project.walkEntry ignores options relativePath files entry = Normal files.
Proof.
  unfold admitted. intros H. destruct entry; cbn [Project.walkEntry Project.entryName] in *.
  all: destruct (negb (Project.includeHidden options) && startsWith "." name);
    [reflexivity|]; cbn [negb andb] in H;
    destruct (ignores _); [reflexivity|discriminate].
Qed.

Lemma walkEntry_admitted relativePath files entry :
  admitted ignores options relativePath (Project.entryName entry) = true ->
  Project.walkEntry ignores options relativePath files entry
  = match entry with
    | Project.Directory name listing =>
        Project.walkDirectory ignores options listing
          (Project.relativeFilePathOf relativePath name) files
    | Project.File name stat read =>
        match stat, read with
        | Normal size, Normal content =>
            if (Project.maxFileSize options <? size)
               || (Project.textOnly options && negb (Project.isTextFile content))
            then Normal files
            else Normal (push files
                           (projectFile (Project.relativeFilePathOf relativePath name)
                              size content))
        | _, _ => Normal files
        end
    | Project.Other _ => Normal files
    end.
Proof.
  unfold admitted. intros H.
  destruct entry as [name listing|name stat read|name];
    cbn [Project.walkEntry Project.entryName] in *;
    destruct (negb (Project.includeHidden options) && startsWith "." name);
    try discriminate; cbn [negb andb] in H;
    destruct (ignores _); try discriminate.
  - destruct listing as [entries|e]; [|reflexivity].
    cbn [Project.walkDirectory]. revert files.
    induction entries as [|entry rest IH]; intros files; [reflexivity|].
    cbn [Project.walkEntries].
    destruct (Project.walkEntry ignores options _ files entry); [apply IH|reflexivity].
  - destruct stat as [size|e]; [|reflexivity].
    destruct (Project.maxFileSize options <? size);
      [destruct read; reflexivity|].
    destruct read as [content|e]; [|reflexivity]. cbn [orb].
    destruct (Project.textOnly options && negb (Project.isTextFile content));
      reflexivity.
  - reflexivity.
Qed.

Lemma walkEntries_discovers relativePath entries :
  Forall (walk_discovers ignores options) entries ->
  forall files0 files,
    Project.walkEntries ignores options relativePath entries files0 = Normal files ->
    adds_exactly files0 files
      (fun f => exists entry, entry ∈ entries /\ discoveredIn ignores options relativePath entry f).
Proof.
  induction 1 as [|entry rest Hentry _ IH]; intros files0 files.
  - cbn [Project.walkEntries]. intros [= <-]. exists []. rewrite app_nil_r.
    split; [reflexivity|]. intros f. split.
    + intros Hin. apply not_elem_of_nil in Hin. destruct Hin.
    + intros (entry & Hin & _). apply not_elem_of_nil in Hin. destruct Hin.
  - cbn [Project.walkEntries].
    destruct (Project.walkEntry ignores options relativePath files0 entry)
      as [files1|e] eqn:H1; [|discriminate].
    intros H2. destruct (Hentry _ _ _ H1) as (added1 & -> & Hadded1).
    destruct (IH _ _ H2) as (added2 & -> & Hadded2).
    exists (app added1 added2). rewrite app_assoc. split; [reflexivity|].
    intros f. rewrite elem_of_app, Hadded1, Hadded2. split.
    + intros [Hd|(e' & Hin & Hd)].
      * exists entry. split; [left|exact Hd].
      * exists e'. split; [right; exact Hin|exact Hd].
    + intros (e' & Hin & Hd). apply elem_of_cons in Hin.
      destruct Hin as [->|Hin]; [left; exact Hd|right; exists e'; auto].
Qed.

Lemma nothing_discovered_when_skipped relativePath entry f :
  admitted ignores options relativePath (Project.entryName entry) = false ->
  ~ discoveredIn ignores options relativePath entry f.
Proof.
  intros Hskip (p & size & content & Hfound & _).
  inversion Hfound; subst; cbn [Project.entryName] in Hskip; congruence.
Qed.

Lemma adds_nothing files0 (spec : Project.ProjectFile -> Prop) :
  (forall f, ~ spec f) -> adds_exactly files0 files0 spec.
Proof.
  intros Hnone. exists []. rewrite app_nil_r. split; [reflexivity|].
  intros f. split; [intros Hin; apply not_elem_of_nil in Hin; destruct Hin|].
  intros Hf. destruct (Hnone f Hf).
Qed.

Lemma walkEntry_discovers entry : walk_discovers ignores options entry.
Proof.
  induction entry as [name entries IH|name e|name stat read|name]
    using Entry_nested_ind; intros relativePath files0 files.
  - destruct (admitted ignores options relativePath name) eqn:Hadm.
    + rewrite walkEntry_admitted by exact Hadm. cbn [Project.walkDirectory].
      intros Hwalk.
      destruct (walkEntries_discovers _ _ IH _ _ Hwalk) as (added & -> & Hadded).
      exists added. split; [reflexivity|]. intros f. rewrite Hadded. split.
      * intros (entry & Hin & (p & size & content & Hfound & Hpass & ->)).
        exists p, size, content. split; [|split; [exact Hpass|reflexivity]].
        eapply found_below; eassumption.
      * intros (p & size & content & Hfound & Hpass & ->).
        inversion Hfound; subst.
        exists entry. split; [assumption|]. exists p, size, content. auto.
    + rewrite walkEntry_skipped by exact Hadm. intros [= <-].
      apply adds_nothing. intros f.
      apply nothing_discovered_when_skipped. exact Hadm.
  - destruct (admitted ignores options relativePath name) eqn:Hadm.
    + rewrite walkEntry_admitted by exact Hadm. discriminate.
    + rewrite walkEntry_skipped by exact Hadm. intros [= <-].
      apply adds_nothing. intros f.
      apply nothing_discovered_when_skipped. exact Hadm.
  - destruct (admitted ignores options relativePath name) eqn:Hadm.
    + rewrite walkEntry_admitted by exact Hadm.
      destruct stat as [size|e], read as [content|e'];
        try (intros [= <-]; apply adds_nothing;
             intros f (p & s & c & Hfound & _); inversion Hfound).
      destruct (Z.ltb_spec (Project.maxFileSize options) size) as [Hbig|Hsmall].
      * cbn [orb]. intros [= <-]. apply adds_nothing.
        intros f (p & s & c & Hfound & [Hsize _] & _). inversion Hfound; subst. lia.
      * cbn [orb].
        destruct (Project.textOnly options) eqn:Htext,
                 (Project.isTextFile content) eqn:Histext; cbn [andb negb].
        all: try (intros [= <-];
                  exists [projectFile (Project.relativeFilePathOf relativePath name)
                            size content];
                  split; [reflexivity|]; intros f; rewrite list_elem_of_singleton;
                  split;
                  [intros ->; exists (Project.relativeFilePathOf relativePath name),
                     size, content;
                   split; [apply found_file; exact Hadm|];
                   split; [split; [lia|congruence]|reflexivity]
                  |intros (p & s & c & Hfound & _ & ->);
                   inversion Hfound; subst; reflexivity]).
        intros [= <-]. apply adds_nothing.
        intros f (p & s & c & Hfound & [_ Htxt] & _). inversion Hfound; subst.
        specialize (Htxt Htext). congruence.
    + rewrite walkEntry_skipped by exact Hadm. intros [= <-].
      apply adds_nothing. intros f.
      apply nothing_discovered_when_skipped. exact Hadm.
  - destruct (admitted ignores options relativePath name) eqn:Hadm.
    + rewrite walkEntry_admitted by exact Hadm. intros [= <-].
      apply adds_nothing. intros f (p & s & c & Hfound & _). inversion Hfound.
    + rewrite walkEntry_skipped by exact Hadm. intros [= <-].
      apply adds_nothing. intros f.
      apply nothing_discovered_when_skipped. exact Hadm.
Qed.

Lemma walkEntries_fails_on relativePath entries :
  Forall (walk_fails_on ignores options) entries ->
  forall files0 e,
    Project.walkEntries ignores options relativePath entries files0 = Abrupt e ->
    exists entry, entry ∈ entries /\ unreadableIn ignores options relativePath entry e.
Proof.
  induction 1 as [|entry rest Hentry _ IH]; intros files0 e;
    cbn [Project.walkEntries]; [discriminate|].
  destruct (Project.walkEntry ignores options relativePath files0 entry)
    as [files1|e1] eqn:H1.
  - intros H2. destruct (IH _ _ H2) as (entry' & Hin & Hun).
    exists entry'. split; [right; exact Hin|exact Hun].
  - intros [= <-]. exists entry. split; [left|]. eapply Hentry. exact H1.
Qed.

Lemma walkEntry_fails_on entry : walk_fails_on ignores options entry.
Proof.
  induction entry as [name entries IH|name e0|name stat read|name]
    using Entry_nested_ind; intros relativePath files0 e;
    (destruct (admitted ignores options relativePath name) eqn:Hadm;
     [rewrite walkEntry_admitted by exact Hadm
     |rewrite walkEntry_skipped by exact Hadm; discriminate]).
  - cbn [Project.walkDirectory]. intros Hwalk.
    destruct (walkEntries_fails_on _ _ IH _ _ Hwalk) as (entry & Hin & Hun).
    eapply unreadable_below; eassumption.
  - cbn [Project.walkDirectory]. intros [= <-]. apply unreadable_here. exact Hadm.
  - destruct stat as [size|e1], read as [content|e2]; try discriminate.
    destruct (_ || _); discriminate.
  - discriminate.
Qed.

Lemma walkEntries_fail_if_one_does relativePath entries entry :
  entry ∈ entries ->
  (forall files0, fails (Project.walkEntry ignores options relativePath files0 entry)) ->
  forall files0, fails (Project.walkEntries ignores options relativePath entries files0).
Proof.
  intros Hin Hfails. induction entries as [|x rest IH]; intros files0.
  - apply not_elem_of_nil in Hin. destruct Hin.
  - cbn [Project.walkEntries]. apply elem_of_cons in Hin.
    destruct Hin as [<-|Hin].
    + specialize (Hfails files0).
      destruct (Project.walkEntry ignores options relativePath files0 entry);
        [destruct Hfails|exact I].
    + destruct (Project.walkEntry ignores options relativePath files0 x);
        [apply IH; exact Hin|exact I].
Qed.

Lemma unreadable_fails relativePath entry e :
  unreadableIn ignores options relativePath entry e ->
  forall files0, fails (Project.walkEntry ignores options relativePath files0 entry).
Proof.
  induction 1 as [relativePath name e Hadm
                 |relativePath name entries entry e Hadm Hin _ IH]; intros files0;
    rewrite walkEntry_admitted by exact Hadm; cbn [Project.walkDirectory].
  - exact I.
  - eapply walkEntries_fail_if_one_does; eassumption.
Qed.

End Discovery.

(** X23: when discovery returns, it returns exactly the files of the tree
    that it can reach and read and that pass the filters: a file is listed
    if and only if neither it nor a directory above it is hidden (unless
    hidden entries are included) or ignored, its size is at most
    [maxFileSize], and it holds no NUL character when [textOnly] is set.
    Every listed path is free of backslashes, and [isText] says whether the
    content holds no NUL character. *)
Theorem discovery_finds_exactly_the_admissible_files
    (ignores : string -> bool) (options : Project.Options)
    (root : list Project.Entry) (files : list Project.ProjectFile) :
  Project.discoverProjectFiles ignores (Normal root) options = Normal files ->
  (forall f, f ∈ files <->
             exists entry, entry ∈ root /\ discoveredIn ignores options "" entry f) /\
  Forall (fun f =>
            Project.pf_size f <= Project.maxFileSize options /\
            Project.pf_isText f = Project.isTextFile (Project.pf_content f) /\
            (Project.textOnly options = true -> Project.pf_isText f = true) /\
            (backslash ∉ chars (Project.pf_path f))) files.
Proof.
  unfold Project.discoverProjectFiles. cbn [Project.walkDirectory]. intros Hwalk.
  assert (Forall (walk_discovers ignores options) root) as Hall.
  { apply Forall_forall. intros entry _. apply walkEntry_discovers. }
  destruct (walkEntries_discovers ignores options "" root Hall [] files Hwalk)
    as (added & -> & Hadded).
  cbn [app]. split; [exact Hadded|].
  apply Forall_forall. intros f Hin. apply Hadded in Hin.
  destruct Hin as (entry & _ & (p & size & content & _ & [Hsize Htext] & ->)).
  cbn [projectFile Project.pf_size Project.pf_isText Project.pf_content Project.pf_path].
  split; [exact Hsize|]. split; [reflexivity|]. split; [exact Htext|].
  apply replaceBackslashes_chars.
Qed.

Lemma discovery_finds_exactly_the_admissible_files_witness :
  Forall (fun f =>
            Project.pf_size f <= 1048576 /\
            Project.pf_isText f = Project.isTextFile (Project.pf_content f) /\
            (true = true -> Project.pf_isText f = true) /\
            (backslash ∉ chars (Project.pf_path f)))
    [{| Project.pf_path := "src/a.ts"; Project.pf_content := "abc";
        Project.pf_size := 3; Project.pf_isText := true |}].
Proof.
  apply (discovery_finds_exactly_the_admissible_files
           (fun p => bool_decide (p = "node_modules"))
           {| Project.includeHidden := false; Project.maxFileSize := 1048576;
              Project.textOnly := true |}
           [Project.Directory "src"
              (Normal [Project.File "a.ts" (Normal 3) (Normal "abc");
                       Project.File "big.bin" (Normal 2000000) (Normal "x");
                       Project.File "locked" (Abrupt (Error "EACCES")) (Normal "y")]);
            Project.File ".env" (Normal 1) (Normal "z");
            Project.Directory "node_modules" (Abrupt (Error "EACCES"))]).
  reflexivity.
Defined.

(** X24: discovery fails if and only if a directory that it enters cannot be
    listed: the project directory itself, or a directory below it that is
    not skipped under directories that are not skipped.  It then fails with
    the error of such a directory and returns no file.  A file whose size or
    content cannot be read never makes it fail. *)
Theorem discovery_fails_only_on_unreadable_directories
    (ignores : string -> bool) (options : Project.Options) :
  (forall e, Project.discoverProjectFiles ignores (Abrupt e) options = Abrupt e) /\
  (forall root,
     fails (Project.discoverProjectFiles ignores (Normal root) options) <->
     exists entry e, entry ∈ root /\ unreadableIn ignores options "" entry e) /\
  (forall root e,
     Project.discoverProjectFiles ignores (Normal root) options = Abrupt e ->
     exists entry, entry ∈ root /\ unreadableIn ignores options "" entry e).
Proof.
  assert (forall root e,
            Project.discoverProjectFiles ignores (Normal root) options = Abrupt e ->
            exists entry, entry ∈ root /\ unreadableIn ignores options "" entry e)
    as Honly.
  { intros root e. unfold Project.discoverProjectFiles. cbn [Project.walkDirectory].
    apply walkEntries_fails_on. apply Forall_forall. intros entry _.
    apply walkEntry_fails_on. }
  split; [reflexivity|]. split; [|exact Honly].
  intros root. split.
  - destruct (Project.discoverProjectFiles ignores (Normal root) options)
      as [files|e] eqn:Hd; [intros []|].
    intros _. destruct (Honly root e Hd) as (entry & Hin & Hun).
    exists entry, e. auto.
  - intros (entry & e & Hin & Hun).
    unfold Project.discoverProjectFiles. cbn [Project.walkDirectory].
    eapply walkEntries_fail_if_one_does; [exact Hin|].
    eapply unreadable_fails. exact Hun.
Qed.

(** ** The handler ([handleSyncProject]) *)

Section SyncProjectRuns.

Context {W : Type} (net : W -> Request -> FetchResult * W).

Lemma syncUploadOne_run instance args result file w :
  let rq := SyncProject.uploadRequest instance args file in
  run net (SyncProject.uploadOne instance args result file) w
  = (Normal (recordUpload result (file, (net w rq).1)),
     (net w rq).2, [(rq, (net w rq).1)]).
Proof.
  intros rq. subst rq. unfold SyncProject.uploadOne, recordUpload. cbn [fst snd].
  rewrite run_tryCatch, run_bind, run_fetch.
  destruct (net w _).1 as [response|e]; simpl accepted; simpl failureText;
    [|reflexivity].
  destruct (ok response); [reflexivity|].
  rewrite run_bind, run_liftC. destruct (text response); reflexivity.
Qed.

Lemma sync_loop_run instance args files : forall result w,
  exists w' log,
    run net (forOf (SyncProject.uploadOne instance args) files result) w
    = (Normal (fold_left recordUpload (zip files log.*2) result), w', log) /\
    log.*1 = map (SyncProject.uploadRequest instance args) files.
Proof.
  induction files as [|file files IH]; intros result w.
  - exists w, []. split; reflexivity.
  - rewrite run_forOf_cons, syncUploadOne_run.
    set (rq := SyncProject.uploadRequest instance args file).
    destruct (IH (recordUpload result (file, (net w rq).1)) (net w rq).2)
      as (w' & log & -> & Hrq).
    exists w', ((rq, (net w rq).1) :: log).
    rewrite !fmap_cons. cbn [fst snd]. split; [|rewrite Hrq; reflexivity].
    reflexivity.
Qed.

End SyncProjectRuns.

Lemma fold_recordUpload answered : forall result,
  let good := filter (fun a => accepted a.2 = true) answered in
  let bad := filter (fun a => accepted a.2 = false) answered in
  let result' := fold_left recordUpload answered result in
  SyncProject.discovered result' = SyncProject.discovered result /\
  SyncProject.filtered result' = SyncProject.filtered result /\
  SyncProject.skipped result' = SyncProject.skipped result /\
  SyncProject.details_skipped (SyncProject.details result')
  = SyncProject.details_skipped (SyncProject.details result) /\
  SyncProject.details_uploaded (SyncProject.details result')
  = app (SyncProject.details_uploaded (SyncProject.details result))
        (map (fun a => Project.pf_path a.1) good) /\
  SyncProject.details_failed (SyncProject.details result')
  = app (SyncProject.details_failed (SyncProject.details result))
        (map (fun a => (Project.pf_path a.1, failureText a.2)) bad) /\
  SyncProject.uploaded result' = (SyncProject.uploaded result + length good)%nat /\
  SyncProject.failed result' = (SyncProject.failed result + length bad)%nat /\
  (length good + length bad = length answered)%nat.
Proof.
  induction answered as [|[file reply] answered IH]; intros result; cbn zeta.
  - cbn. rewrite !app_nil_r. repeat split; lia.
  - cbn [fold_left]. specialize (IH (recordUpload result (file, reply))).
    cbn zeta in IH. destruct IH as (H1 & H2 & H3 & H4 & H5 & H6 & H7 & H8 & H9).
    rewrite H1, H2, H3, H4, H5, H6, H7, H8.
    rewrite !filter_cons. cbn [snd]. unfold recordUpload. cbn [fst snd].
    destruct (accepted reply) eqn:Hacc.
    + rewrite decide_True by reflexivity. rewrite decide_False by discriminate.
      cbn [SyncProject.recordUploaded SyncProject.discovered SyncProject.filtered
           SyncProject.skipped SyncProject.details SyncProject.details_skipped
           SyncProject.details_uploaded SyncProject.details_failed
           SyncProject.uploaded SyncProject.failed map length fst snd].
      unfold push. rewrite <- app_assoc. cbn [app]. repeat split; lia.
    + rewrite decide_False by discriminate. rewrite decide_True by reflexivity.
      cbn [SyncProject.recordFailed SyncProject.discovered SyncProject.filtered
           SyncProject.skipped SyncProject.details SyncProject.details_skipped
           SyncProject.details_uploaded SyncProject.details_failed
           SyncProject.uploaded SyncProject.failed map length fst snd].
      unfold push. rewrite <- app_assoc. cbn [app]. repeat split; lia.
Qed.

Section SyncProjectProperties.

Context {W : Type} (net : W -> Request -> FetchResult * W).

Lemma handleSyncProject_run fs config args w :
  run net (SyncProject.handleSyncProject fs config args) w =
  match List.find (fun inst => bool_decide (Some (id inst) = SyncProject.sa_instanceId args))
          config with
  | None =>
      (Normal (SyncProject.IsError
                 ("Error syncing project: MCP error -32602: Gitea instance '"
                  +:+ default "undefined" (SyncProject.sa_instanceId args)
                  +:+ "' not found")), w, [])
  | Some instance =>
      match discoveredFor fs args with
      | Abrupt e =>
          (Normal (SyncProject.IsError ("Error syncing project: " +:+ messageOf e)), w, [])
      | Normal files =>
          if default false (SyncProject.sa_dryRun args) then
            (Normal (SyncProject.DryRun
                       (SyncProject.initialResult files (length files))
                       (map (fun f => (Project.pf_path f, Project.pf_size f,
                                       Project.pf_isText f)) files)), w, [])
          else
            match run net (forOf (SyncProject.uploadOne instance args) files
                             (SyncProject.initialResult files 0)) w with
            | (Normal result, w', log) =>
                (Normal (SyncProject.Content
                           (bool_decide (SyncProject.failed result = 0%nat)) result
                           (SyncProject.sa_owner args +:+ "/"
                            +:+ SyncProject.sa_repository args)
                           (orDefault (SyncProject.sa_branch args) "main")
                           (SyncProject.sa_message args)
                           (unlessEmpty
                              (SyncProject.details_failed (SyncProject.details result)))),
                 w', log)
            | (Abrupt e, w', log) =>
                (Normal (SyncProject.IsError ("Error syncing project: " +:+ messageOf e)),
                 w', log)
            end
      end
  end.
Proof.
  unfold SyncProject.handleSyncProject, discoveredFor. rewrite run_tryCatch. cbv zeta.
  destruct (List.find _ config) as [instance|]; [|reflexivity].
  rewrite run_bind, run_liftC.
  destruct (Project.discoverProjectFiles _ _ _) as [files|e]; [|reflexivity].
  destruct (default false (SyncProject.sa_dryRun args)); [reflexivity|].
  rewrite run_bind.
  destruct (run net (forOf _ files _) w) as [[[result|e] w'] log];
    simpl; rewrite ?app_nil_r; reflexivity.
Qed.

(** X25: an executed project sync issues exactly one POST per discovered
    file, in discovery order, to the path under which the file was
    discovered and with its content, whatever the earlier replies were.  In
    its summary [discovered] is the number of files, [uploaded] and [failed]
    count the accepted and the other replies and add up to [discovered], the
    lists name the files of each kind in order, and [filtered], [skipped]
    and the skipped list stay empty; [success] says that [failed] is 0. *)
Theorem sync_project_uploads_every_discovered_file fs config args instance files w :
  List.find (fun inst => bool_decide (Some (id inst) = SyncProject.sa_instanceId args))
    config = Some instance ->
  discoveredFor fs args = Normal files ->
  default false (SyncProject.sa_dryRun args) = false ->
  exists result w' log,
    run net (SyncProject.handleSyncProject fs config args) w
    = (Normal (SyncProject.Content
                 (bool_decide (SyncProject.failed result = 0%nat)) result
                 (SyncProject.sa_owner args +:+ "/" +:+ SyncProject.sa_repository args)
                 (orDefault (SyncProject.sa_branch args) "main")
                 (SyncProject.sa_message args)
                 (unlessEmpty (SyncProject.details_failed (SyncProject.details result)))),
       w', log) /\
    log.*1 = map (SyncProject.uploadRequest instance args) files /\
    tallies files log.*2 result.
Proof.
  intros Hfind Hfiles Hdry. rewrite handleSyncProject_run, Hfind, Hfiles, Hdry.
  destruct (sync_loop_run net instance args files (SyncProject.initialResult files 0) w)
    as (w' & log & -> & Hrq).
  eexists _, w', log. split; [reflexivity|]. split; [exact Hrq|].
  pose proof (fold_recordUpload (zip files log.*2) (SyncProject.initialResult files 0))
    as H.
  cbn zeta in H. destruct H as (H1 & H2 & H3 & H4 & H5 & H6 & H7 & H8 & H9).
  assert (length (zip files log.*2) = length files) as Hlen.
  { rewrite length_zip_with.
    assert (length log.*2 = length files) as Hl.
    { rewrite length_fmap. rewrite <- (length_fmap fst log), Hrq, length_map.
      reflexivity. }
    lia. }
  unfold tallies. cbn zeta.
  rewrite H1, H2, H3, H4, H5, H6, H7, H8. cbn. repeat split; lia.
Qed.

(** X26: the handler of project sync never throws: every failure becomes an
    error reply.  An unknown instance or a failed discovery is reported
    before any request is sent; the instance is looked up first.  A dry run
    sends nothing either, lists every discovered file, and reports
    [filtered] equal to [discovered], while an executed sync reports
    [filtered] 0 and has sent one request per discovered file. *)
Theorem sync_project_replies_instead_of_throwing fs config args w :
  let found :=
    List.find (fun inst => bool_decide (Some (id inst) = SyncProject.sa_instanceId args))
      config in
  match run net (SyncProject.handleSyncProject fs config args) w with
  | (Abrupt _, _, _) => False
  | (Normal (SyncProject.IsError errorText), w', log) =>
      w' = w /\ log = [] /\
      (found = None \/
       exists e, found <> None /\ discoveredFor fs args = Abrupt e /\
                 errorText = "Error syncing project: " +:+ messageOf e)
  | (Normal (SyncProject.DryRun summary listed), w', log) =>
      w' = w /\ log = [] /\ found <> None /\
      default false (SyncProject.sa_dryRun args) = true /\
      exists files,
        discoveredFor fs args = Normal files /\
        summary = SyncProject.initialResult files (length files) /\
        SyncProject.filtered summary = SyncProject.discovered summary /\
        map (fun l => l.1.1) listed = map Project.pf_path files
  | (Normal (SyncProject.Content _ summary _ _ _ _), w', log) =>
      found <> None /\
      default false (SyncProject.sa_dryRun args) = false /\
      SyncProject.filtered summary = 0%nat /\
      length log = SyncProject.discovered summary
  end.
Proof.
  cbn zeta. rewrite handleSyncProject_run.
  destruct (List.find _ config) as [instance|] eqn:Hfind;
    [|split; [reflexivity|split; [reflexivity|left; reflexivity]]].
  destruct (discoveredFor fs args) as [files|e] eqn:Hfiles.
  - destruct (default false (SyncProject.sa_dryRun args)) eqn:Hdry.
    + split; [reflexivity|]. split; [reflexivity|]. split; [discriminate|].
      split; [reflexivity|]. exists files. split; [reflexivity|].
      split; [reflexivity|]. split; [reflexivity|].
      rewrite map_map. reflexivity.
    + destruct (sync_loop_run net instance args files
                  (SyncProject.initialResult files 0) w) as (w' & log & -> & Hrq).
      pose proof (fold_recordUpload (zip files log.*2)
                    (SyncProject.initialResult files 0)) as H.
      cbn zeta in H. destruct H as (H1 & H2 & _).
      split; [discriminate|]. split; [reflexivity|]. rewrite H1, H2.
      split; [reflexivity|]. cbn [SyncProject.initialResult SyncProject.discovered].
      rewrite <- (length_fmap fst log), Hrq, length_map. reflexivity.
  - split; [reflexivity|]. split; [reflexivity|]. right. exists e.
    split; [discriminate|]. split; reflexivity.
Qed.

End SyncProjectProperties.

Lemma sync_project_uploads_every_discovered_file_witness :
  exists result w' log,
    run (fun (w : unit) (rq : Request) =>
           (Resolved {| status := 201; statusText := "Created";
                        json := Gitea.noJson; text := Normal "" |}, w))
      (SyncProject.handleSyncProject sampleProject sampleConfig sampleSyncArgs) tt
    = (Normal (SyncProject.Content
                 (bool_decide (SyncProject.failed result = 0%nat)) result
                 "alice/project" "main" "initial commit"
                 (unlessEmpty (SyncProject.details_failed (SyncProject.details result)))),
       w', log) /\
    log.*1 = map (SyncProject.uploadRequest sampleInstance sampleSyncArgs)
               [{| Project.pf_path := "src/a.ts"; Project.pf_content := "abc";
                   Project.pf_size := 3; Project.pf_isText := true |}] /\
    tallies [{| Project.pf_path := "src/a.ts"; Project.pf_content := "abc";
                Project.pf_size := 3; Project.pf_isText := true |}] log.*2 result.
Proof.
  apply (sync_project_uploads_every_discovered_file
           (fun (w : unit) (rq : Request) =>
              (Resolved {| status := 201; statusText := "Created";
                           json := Gitea.noJson; text := Normal "" |}, w))
           sampleProject sampleConfig sampleSyncArgs sampleInstance
           [{| Project.pf_path := "src/a.ts"; Project.pf_content := "abc";
               Project.pf_size := 3; Project.pf_isText := true |}] tt);
    reflexivity.
Defined.

(** * Properties of [batchUploadFiles] *)

Lemma slice_take_drop {A : Type} (xs : list A) (k b : nat) :
  (k < length xs)%nat ->
  GiteaClient.slice xs (Z.of_nat k) (Z.of_nat k + Z.of_nat b) = take b (drop k xs).
Proof.
  intros Hk. unfold GiteaClient.slice.
  rewrite (proj2 (Z.ltb_ge _ _)) by lia. rewrite (proj2 (Z.ltb_ge _ _)) by lia.
  rewrite (Z.min_l (Z.of_nat k)) by lia. rewrite Nat2Z.id.
  destruct (Z.min_spec (Z.of_nat k + Z.of_nat b) (Z.of_nat (length xs)))
    as [[Hlt ->]|[Hge ->]].
  - f_equal. lia.
  - rewrite !take_ge; [reflexivity| |]; rewrite length_drop; lia.
Qed.

Lemma chunksOf_enough {A : Type} (b : nat) : forall fuel1 fuel2 (xs : list A),
  (1 <= b)%nat -> (length xs <= fuel1)%nat -> (length xs <= fuel2)%nat ->
  chunksOf fuel1 b xs = chunksOf fuel2 b xs.
Proof.
  induction fuel1 as [|fuel1 IH]; intros fuel2 xs Hb H1 H2.
  - destruct xs; [|cbn in H1; lia]. destruct fuel2; reflexivity.
  - destruct fuel2 as [|fuel2]; [destruct xs; [reflexivity|cbn in H2; lia]|].
    destruct xs as [|x xs]; [reflexivity|]. cbn [chunksOf]. f_equal.
    cbn [length] in H1, H2.
    apply IH; [exact Hb| |]; rewrite length_drop; cbn [length]; lia.
Qed.

Lemma chunks_cons {A : Type} (b : nat) (x : A) (xs : list A) :
  (1 <= b)%nat ->
  chunks b (x :: xs) = take b (x :: xs) :: chunks b (drop b (x :: xs)).
Proof.
  intros Hb. unfold chunks. cbn [length chunksOf]. f_equal.
  apply chunksOf_enough; [exact Hb| |reflexivity].
  rewrite length_drop. cbn [length]. lia.
Qed.

(** Cutting a list into pieces loses nothing: the pieces put together are
    the list, every piece is non-empty and has at most [b] elements, and
    every piece but the last has exactly [b]. *)
Lemma chunks_spec {A : Type} (b : nat) : forall (n : nat) (xs : list A),
  (1 <= b)%nat -> (length xs <= n)%nat ->
  concat (chunks b xs) = xs /\
  Forall (fun c => (1 <= length c <= b)%nat) (chunks b xs) /\
  Forall (fun c => length c = b) (removelast (chunks b xs)).
Proof.
  induction n as [|n IH]; intros xs Hb Hn.
  - destruct xs; [|cbn in Hn; lia]. repeat split; constructor.
  - destruct xs as [|x xs]; [repeat split; constructor|].
    rewrite chunks_cons by exact Hb.
    assert (length (drop b (x :: xs)) <= n)%nat as Hrest.
    { rewrite length_drop. cbn [length] in *. lia. }
    destruct (IH (drop b (x :: xs)) Hb Hrest) as (Hcat & Hall & Hfull).
    split; [|split].
    + cbn [concat]. rewrite Hcat. apply take_drop.
    + constructor; [|exact Hall]. rewrite length_take. cbn [length]. lia.
    + change (removelast (take b (x :: xs) :: chunks b (drop b (x :: xs))))
        with (match chunks b (drop b (x :: xs)) with
              | [] => []
              | _ => take b (x :: xs) :: removelast (chunks b (drop b (x :: xs)))
              end).
      destruct (chunks b (drop b (x :: xs))) as [|c cs] eqn:Hc; [constructor|].
      constructor; [|exact Hfull].
      rewrite length_take. apply Nat.min_l.
      destruct (drop b (x :: xs)) as [|y ys] eqn:Hd; [discriminate|].
      assert (length (drop b (x :: xs)) = S (length ys)) as Hl
        by (rewrite Hd; reflexivity).
      rewrite length_drop in Hl. lia.
Qed.

Section BatchUpload.

Context {W R : Type} (uploadAll : list Upload.ValidatedFile -> W -> list R * W).

Variable files : list Upload.ValidatedFile.

Lemma batchLoop_round (batchSize : Z) fuel i results w trace :
  GiteaClient.batchLoop uploadAll files batchSize (S fuel) i results w trace
  = if i <? Z.of_nat (length files) then
      let batch := GiteaClient.slice files i (i + batchSize) in
      GiteaClient.batchLoop uploadAll files batchSize fuel (i + batchSize)
        (app results (uploadAll batch w).1) (uploadAll batch w).2
        (if i + batchSize <? Z.of_nat (length files)
         then push (push trace (GiteaClient.Uploaded batch)) (GiteaClient.Slept 1000)
         else push trace (GiteaClient.Uploaded batch))
    else Some (results, w, trace).
Proof. reflexivity. Qed.

Lemma batchLoop_runs_the_chunks (b : nat) :
  (1 <= b)%nat ->
  forall fuel k results w trace,
    (length files - k <= fuel)%nat ->
    GiteaClient.batchLoop uploadAll files (Z.of_nat b) (S fuel) (Z.of_nat k)
      results w trace
    = Some (runBatches uploadAll (chunksOf fuel b (drop k files)) results w trace).
Proof.
  intros Hb. induction fuel as [|fuel IH]; intros k results w trace Hfuel.
  - cbn [GiteaClient.batchLoop chunksOf runBatches].
    rewrite (proj2 (Z.ltb_ge _ _)) by lia. reflexivity.
  - rewrite batchLoop_round.
    destruct (Z.ltb_spec (Z.of_nat k) (Z.of_nat (length files))) as [Hlt|Hge].
    + cbv zeta. rewrite slice_take_drop by lia.
      replace (Z.of_nat k + Z.of_nat b) with (Z.of_nat (k + b)) by lia.
      rewrite IH by lia.
      destruct (drop k files) as [|x xs] eqn:Hd.
      { assert (length (drop k files) = 0%nat) as Hl by (rewrite Hd; reflexivity).
        rewrite length_drop in Hl. lia. }
      cbn [chunksOf runBatches]. rewrite <- Hd, drop_drop.
      f_equal. f_equal. unfold push.
      destruct (Z.ltb_spec (Z.of_nat (k + b)) (Z.of_nat (length files))) as [Hmore|Hlast].
      * rewrite <- app_assoc. cbn [app].
        destruct fuel as [|fuel']; [lia|].
        destruct (drop (k + b) files) as [|y ys] eqn:Hd2.
        { assert (length (drop (k + b) files) = 0%nat) as Hl
            by (rewrite Hd2; reflexivity).
          rewrite length_drop in Hl. lia. }
        reflexivity.
      * rewrite (drop_ge files (k + b)) by lia.
        destruct fuel; reflexivity.
    + rewrite (drop_ge files k) by lia. reflexivity.
Qed.

Lemma batchLoop_never_returns (batchSize : Z) :
  batchSize <= 0 -> files <> [] ->
  forall fuel i results w trace,
    i <= 0 ->
    GiteaClient.batchLoop uploadAll files batchSize fuel i results w trace = None.
Proof.
  intros Hb Hfiles. induction fuel as [|fuel IH]; intros i results w trace Hi;
    [reflexivity|].
  rewrite batchLoop_round.
  assert (0 < Z.of_nat (length files)) as Hlen
    by (destruct files; [congruence|cbn [length]; lia]).
  rewrite (proj2 (Z.ltb_lt i _)) by lia. cbv zeta. apply IH. lia.
Qed.

Lemma runBatches_results (Hsettled : forall batch w, length (uploadAll batch w).1 = length batch) :
  forall batches results w trace,
    length (runBatches uploadAll batches results w trace).1.1
    = (length results + length (concat batches))%nat.
Proof.
  induction batches as [|batch rest IH]; intros results w trace.
  - cbn. lia.
  - cbn [runBatches concat]. rewrite IH, !length_app, Hsettled. lia.
Qed.

(** X27: with a batch size of at least one, [batchUploadFiles] returns after
    at most one round per file: it uploads the files in consecutive batches
    of [batchSize] files, the last batch maybe shorter, each batch started
    in the state the one before left, and sleeps one second between two
    batches and not after the last.  The batches put together are the input
    in its order, none is empty, and if every batch settles with one result
    per file then there is one result per input file. *)
Theorem batch_upload_runs_consecutive_batches (batchSize : option Z) (b fuel : nat) (w : W) :
  default 10 batchSize = Z.of_nat b -> (1 <= b)%nat -> (length files < fuel)%nat ->
  GiteaClient.batchUploadFiles uploadAll files batchSize fuel w
  = Some (runBatches uploadAll (chunks b files) [] w []) /\
  concat (chunks b files) = files /\
  Forall (fun c => (1 <= length c <= b)%nat) (chunks b files) /\
  Forall (fun c => length c = b) (removelast (chunks b files)) /\
  ((forall batch w, length (uploadAll batch w).1 = length batch) ->
   length (runBatches uploadAll (chunks b files) [] w []).1.1 = length files).
Proof.
  intros Hsize Hb Hfuel. destruct fuel as [|fuel]; [lia|].
  destruct (chunks_spec b (length files) files Hb (Nat.le_refl _))
    as (Hcat & Hall & Hfull).
  split; [|split; [exact Hcat|split; [exact Hall|split; [exact Hfull|]]]].
  - unfold GiteaClient.batchUploadFiles. rewrite Hsize.
    change 0 with (Z.of_nat 0).
    rewrite (batchLoop_runs_the_chunks b Hb fuel 0 [] w []) by lia.
    rewrite drop_0. f_equal. f_equal. unfold chunks.
    apply chunksOf_enough; [exact Hb|lia|reflexivity].
  - intros Hsettled. rewrite (runBatches_results Hsettled), Hcat. reflexivity.
Qed.

(** X28: with a batch size of zero or less and at least one file,
    [batchUploadFiles] never returns: the index never reaches the number of
    files, so the loop goes on, however many rounds it is given. *)
Theorem batch_upload_with_no_batch_size_never_returns (batchSize : Z) (fuel : nat) (w : W) :
  batchSize <= 0 -> files <> [] ->
  GiteaClient.batchUploadFiles uploadAll files (Some batchSize) fuel w = None.
Proof.
  intros Hb Hfiles. unfold GiteaClient.batchUploadFiles. cbn [default].
  apply batchLoop_never_returns; [exact Hb|exact Hfiles|lia].
Qed.

End BatchUpload.

Lemma batch_upload_runs_consecutive_batches_witness :
  GiteaClient.batchUploadFiles countingUploadAll sampleUploads (Some 2) 4 0%nat
  = Some (["a"; "b"; "c"], 3%nat,
          [GiteaClient.Uploaded (take 2 sampleUploads);
           GiteaClient.Slept 1000;
           GiteaClient.Uploaded (drop 2 sampleUploads)]).
Proof.
  rewrite (proj1 (batch_upload_runs_consecutive_batches countingUploadAll sampleUploads
                    (Some 2) 2 4 0%nat eq_refl (le_S 1 1 (le_n 1))
                    (le_n 4))).
  reflexivity.
Defined.

Lemma batch_upload_with_no_batch_size_never_returns_witness :
  GiteaClient.batchUploadFiles countingUploadAll sampleUploads (Some 0) 1000 0%nat = None.
Proof.
  apply (batch_upload_with_no_batch_size_never_returns countingUploadAll sampleUploads
           0 1000 0%nat).
  - lia.
  - discriminate.
Defined.

(** * Properties of create_repository *)

Lemma find_by_given_id config (i : option string) :
  falsy i = false ->
  List.find (fun inst => bool_decide (Some (id inst) = i)) config
  = findInstance config (orDefault i "").
Proof.
  unfold falsy, orDefault, findInstance. destruct i as [s|]; [|discriminate].
  destruct (decide (s = "")); [discriminate|]. intros _.
  induction config as [|x config IH]; [reflexivity|]. cbn [List.find].
  destruct (decide (id x = s)) as [->|Hne].
  - rewrite !bool_decide_true by reflexivity. reflexivity.
  - rewrite !bool_decide_false by congruence. exact IH.
Qed.

Section CreateRepositoryProperties.

Context {W : Type}.

Context (net : W -> CreateRepository.CreateRequest
               -> CreateRepository.RepoFetchResult * W).

Ltac thrown_after_request e :=
  destruct e; cbn [length];
  (split; [eexists _, _; reflexivity|]);
  (split; [lia|]); (split; [split; discriminate|discriminate]).

Lemma createRepository_run config args w :
  CreateRepository.createRepository net config args w =
  if validCreateArgs config args then
    match findInstance config (orDefault (CreateRepository.ca_instanceId args) "") with
    | Some instance =>
        let rq := createRequest true instance args in
        match (net w rq).1 with
        | CreateRepository.RepoRejected e => (Abrupt e, (net w rq).2, [rq])
        | CreateRepository.RepoResolved response =>
            if CreateRepository.rr_ok response then
              match CreateRepository.rr_json response with
              | Abrupt e => (Abrupt e, (net w rq).2, [rq])
              | Normal repository =>
                  (Normal (CreateRepository.created true repository), (net w rq).2, [rq])
              end
            else
              match CreateRepository.rr_text response with
              | Abrupt e => (Abrupt e, (net w rq).2, [rq])
              | Normal errorText =>
                  (Abrupt (McpError InternalError
                             ("API request failed: "
                              +:+ pretty (CreateRepository.rr_status response)
                              +:+ " " +:+ CreateRepository.rr_statusText response
                              +:+ " - " +:+ errorText)),
                   (net w rq).2, [rq])
              end
        end
    | None => (Abrupt (McpError InvalidParams ""), w, [])
    end
  else
    (Abrupt (McpError InvalidParams
               (if falsy (CreateRepository.ca_instanceId args)
                then "instanceId is required"
                else if falsy (CreateRepository.ca_name args)
                        || CreateRepository.blank
                             (orDefault (CreateRepository.ca_name args) "")
                then "name is required and cannot be empty"
                else "Gitea instance '"
                     +:+ orDefault (CreateRepository.ca_instanceId args) ""
                     +:+ "' not found")), w, []).
Proof.
  unfold CreateRepository.createRepository, validCreateArgs.
  destruct (falsy (CreateRepository.ca_instanceId args)); [reflexivity|].
  destruct (falsy (CreateRepository.ca_name args)
            || CreateRepository.blank (orDefault (CreateRepository.ca_name args) ""));
    [reflexivity|].
  cbn [negb andb]. cbv zeta.
  fold (findInstance config (orDefault (CreateRepository.ca_instanceId args) "")).
  destruct (findInstance config _) as [instance|] eqn:Hfind.
  - rewrite bool_decide_true by discriminate.
    fold (createRequest true instance args).
    destruct (net w (createRequest true instance args)).1 as [response|e];
      [|reflexivity].
    destruct (CreateRepository.rr_ok response); reflexivity.
  - rewrite bool_decide_false by (intros H; apply H; reflexivity). reflexivity.
Qed.

(** X29: the create_repository tool checks its arguments and looks the
    instance up before its one request.  It sends at most one POST; it sends
    none, leaves the state as it was and throws [InvalidParams] exactly when
    the instance id or the name is missing or empty, the name is white space
    only, or no instance has the id.  Every error it throws is an
    [McpError].  It returns exactly when the reply is ok and its body can be
    read: when it returns, the arguments passed the checks and the reply to
    its request was ok with a readable body, whose fields it reports; and
    whenever the arguments pass the checks and the reply is ok with a
    readable body, it returns that report, having sent the one request. *)
Theorem create_repository_checks_before_its_one_request config args w :
  match CreateRepository.handler net config args w with
  | (Abrupt e, w', log) =>
      (exists c m, e = McpError c m) /\
      (length log <= 1)%nat /\
      (log = [] <-> validCreateArgs config args = false) /\
      (log = [] -> w' = w /\ exists m, e = McpError InvalidParams m)
  | (Normal out, w', log) =>
      validCreateArgs config args = true /\
      exists instance response repository,
        findInstance config (orDefault (CreateRepository.ca_instanceId args) "")
        = Some instance /\
        log = [createRequest true instance args] /\
        net w (createRequest true instance args)
        = (CreateRepository.RepoResolved response, w') /\
        CreateRepository.rr_ok response = true /\
        CreateRepository.rr_json response = Normal repository /\
        out = CreateRepository.created true repository
  end /\
  (forall instance response repository w',
     validCreateArgs config args = true ->
     findInstance config (orDefault (CreateRepository.ca_instanceId args) "")
     = Some instance ->
     net w (createRequest true instance args)
     = (CreateRepository.RepoResolved response, w') ->
     CreateRepository.rr_ok response = true ->
     CreateRepository.rr_json response = Normal repository ->
     CreateRepository.handler net config args w
     = (Normal (CreateRepository.created true repository), w',
        [createRequest true instance args])).
Proof.
  split.
  2: { intros instance response repository w' Hvalid Hfind Hnet Hok Hjson.
       unfold CreateRepository.handler. rewrite createRepository_run.
       rewrite Hvalid, Hfind. cbv zeta. rewrite Hnet. cbn [fst snd].
       rewrite Hok, Hjson. reflexivity. }
  unfold CreateRepository.handler. rewrite createRepository_run.
  destruct (validCreateArgs config args) eqn:Hvalid.
  - destruct (findInstance config _) as [instance|] eqn:Hfind.
    + cbv zeta. destruct (net w (createRequest true instance args)) as [reply w'] eqn:Hnet.
      cbn [fst snd].
      destruct reply as [response|e]; [|thrown_after_request e].
      destruct (CreateRepository.rr_ok response) eqn:Hok.
      * destruct (CreateRepository.rr_json response) as [repository|e] eqn:Hjson;
          [|thrown_after_request e].
        split; [reflexivity|]. exists instance, response, repository.
        repeat split; assumption.
      * destruct (CreateRepository.rr_text response) as [errorText|e];
          [|thrown_after_request e].
        split; [eexists _, _; reflexivity|]. split; [cbn [length]; lia|].
        split; [split; discriminate|discriminate].
    + exfalso. unfold validCreateArgs in Hvalid. rewrite Hfind in Hvalid.
      rewrite bool_decide_false in Hvalid by (intros H; apply H; reflexivity).
      rewrite andb_false_r in Hvalid. discriminate.
  - split; [eexists _, _; reflexivity|]. split; [cbn; lia|].
    split; [split; reflexivity|]. intros _. split; [reflexivity|].
    eexists. reflexivity.
Qed.

(** X30: the two copies of create_repository differ.  With a known instance
    the handler of the server class always sends its request, also when the
    name is missing or blank, which the tool module refuses; and when
    [private] is not given the server class asks for a public repository
    while the tool module, like the input schema, asks for a private one.
    The two requests are the same exactly when [private] is given. *)
Theorem create_repository_copies_differ config args w instance :
  falsy (CreateRepository.ca_instanceId args) = false ->
  findInstance config (orDefault (CreateRepository.ca_instanceId args) "")
  = Some instance ->
  (CreateRepository.handleCreateRepository net config args w).2
  = [createRequest false instance args] /\
  (CreateRepository.handler net config args w).2
  = (if validCreateArgs config args then [createRequest true instance args] else []) /\
  CreateRepository.rb_private (CreateRepository.cr_body (createRequest false instance args))
  = default false (CreateRepository.ca_private args) /\
  CreateRepository.rb_private (CreateRepository.cr_body (createRequest true instance args))
  = default true (CreateRepository.ca_private args) /\
  (createRequest true instance args = createRequest false instance args
   <-> CreateRepository.ca_private args <> None).
Proof.
  intros Hid Hfind. split; [|split; [|split; [reflexivity|split; [reflexivity|]]]].
  - unfold CreateRepository.handleCreateRepository.
    rewrite (find_by_given_id config _ Hid), Hfind. cbv zeta.
    fold (createRequest false instance args).
    destruct (net w (createRequest false instance args)).1 as [response|e];
      [|reflexivity].
    destruct (negb (CreateRepository.rr_ok response));
      [destruct (CreateRepository.rr_text response)
      |destruct (CreateRepository.rr_json response)]; reflexivity.
  - unfold CreateRepository.handler. rewrite createRepository_run, Hfind.
    destruct (validCreateArgs config args); [|reflexivity]. cbv zeta.
    destruct (net w (createRequest true instance args)).1 as [response|e].
    + destruct (CreateRepository.rr_ok response);
        [destruct (CreateRepository.rr_json response) as [r|e]
        |destruct (CreateRepository.rr_text response) as [t|e]];
        try reflexivity; destruct e; reflexivity.
    + destruct e; reflexivity.
  - unfold createRequest, CreateRepository.requestOf.
    destruct (CreateRepository.ca_private args) as [b|]; cbn [default].
    + split; [discriminate|reflexivity].
    + split; [discriminate|]. intros H. destruct (H eq_refl).
Qed.

End CreateRepositoryProperties.

Lemma create_repository_copies_differ_witness :
  let net := fun (w : unit) (rq : CreateRepository.CreateRequest) =>
               (CreateRepository.RepoRejected (Error "offline"), w) in
  let args := {| CreateRepository.ca_instanceId := Some "main";
                 CreateRepository.ca_name := Some "demo";
                 CreateRepository.ca_description := None;
                 CreateRepository.ca_private := None;
                 CreateRepository.ca_autoInit := None;
                 CreateRepository.ca_defaultBranch := None |} in
  CreateRepository.rb_private
    (CreateRepository.cr_body (createRequest false sampleInstance args)) = false /\
  CreateRepository.rb_private
    (CreateRepository.cr_body (createRequest true sampleInstance args)) = true.
Proof.
  intros net args.
  destruct (create_repository_copies_differ net sampleConfig args tt sampleInstance
              eq_refl eq_refl) as (_ & _ & H1 & H2 & _).
  split; [exact H1|exact H2].
Defined.
